(** * Green-Guardian: region resolution, aggregation, fusion and trigger rules

    A shallow embedding of the Python pipeline

      onemap_client.py  ->  aggregator.py / context_enricher.py
                        ->  data_fusion.py  ->  trigger_rules_enhanced.py

    Conventions of the embedding.

    - A Python float is modelled by the rational it stands for ([Q]); a
      missing value (NaN, [pd.NA], [None]) is [None] in an [option].  So
      is the name of a planning area that the payload gives as null.
      Comparisons with a missing value are false, as they are in Python.
      Where the rounding of an operation reaches the output (the quotient
      and the rounding of the green ratio, the mean and the rounding of the
      temperatures) the operation is the binary64 one: the exact result
      rounded to the nearest binary64 number, ties to the even mantissa.
      Infinities are not modelled.
    - Strings stay strings: region names, density labels and priorities are
      the literals of the source.
    - A Python dict is a [gmap]; a DataFrame is the list of its rows, with a
      separate constructor for the column-less [pd.DataFrame()].
    - Code that can raise returns an [outcome]; code that mutates the client
      object threads the client explicitly.
    - The network and the geometry library are parameters: [network] answers
      the n-th HTTP request, [contains] is shapely's [geometry.contains]. *)

From Stdlib Require Import QArith Qround Qabs Qpower Lqa.
From stdpp Require Import gmap strings list sorting.

Open Scope string_scope.
Open Scope list_scope.
Open Scope Q_scope.

(** ** Numbers *)

Definition Qleb (x y : Q) : bool := Qle_bool x y.
Definition Qltb (x y : Q) : bool := negb (Qle_bool y x).

(** [x >= c] and [x < c] on a possibly missing float: false on NaN. *)
Definition ge_float (x : option Q) (c : Q) : bool :=
  match x with Some v => Qleb c v | None => false end.
Definition lt_float (x : option Q) (c : Q) : bool :=
  match x with Some v => Qltb v c | None => false end.

(** numpy's [rint]: nearest integer, ties to the even one. *)
Definition round_half_even (x : Q) : Z :=
  let q := (Qnum x / Zpos (Qden x))%Z in
  let r := (Qnum x mod Zpos (Qden x))%Z in
  match (2 * r ?= Zpos (Qden x))%Z with
  | Lt => q
  | Gt => (q + 1)%Z
  | Eq => if Z.even q then q else (q + 1)%Z
  end.

(** *** binary64

    [binary64 x] is the binary64 number nearest to [x]: [x] is rounded to a
    multiple of [2^k], where [k] leaves 53 bits to the mantissa and is at
    least -1074 (the subnormal numbers). *)

Definition pow2 (k : Z) : Q := Qpower 2 k.

(** The integer [e] with [2^e <= |x| < 2^(e+1)], for [x] other than 0. *)
Definition ilog2 (x : Q) : Z :=
  let e := (Z.log2 (Z.abs (Qnum x)) - Z.log2 (Zpos (Qden x)))%Z in
  if Qltb (Qabs x) (pow2 e) then (e - 1)%Z else e.

Definition round_to_grid (k : Z) (x : Q) : Q :=
  inject_Z (round_half_even (x / pow2 k)) * pow2 k.

Definition exponent (x : Q) : Z := Z.max (ilog2 x - 52) (-1074).

Definition binary64 (x : Q) : Q :=
  if Qeq_bool x 0 then 0 else Qred (round_to_grid (exponent x) x).

Definition fadd (x y : Q) : Q := binary64 (x + y).
Definition fsub (x y : Q) : Q := binary64 (x - y).
Definition fmul (x y : Q) : Q := binary64 (x * y).
Definition fdiv (x y : Q) : Q := binary64 (x / y).

Definition rint (x : Q) : Q := inject_Z (round_half_even x).

(** [Series.round(d)] is numpy's [round]: for a float column and [d >= 0]
    it multiplies by [10^d], applies [rint] and divides by [10^d], each a
    binary64 operation. *)
Definition np_round (d : nat) (x : Q) : Q :=
  let f := inject_Z (10 ^ Z.of_nat d) in fdiv (rint (fmul x f)) f.

(** One step of the compensated (Kahan) summation of pandas' [group_mean]:
    [y = val - compensation; t = sumx + y;
     compensation = t - sumx - y; sumx = t]. *)
Definition kahan_step (acc : Q * Q) (val : Q) : Q * Q :=
  let '(sumx, compensation) := acc in
  let y := fsub val compensation in
  let t := fadd sumx y in
  (t, fsub (fsub t sumx) y).

(** The mean of a group as [groupby(...).agg('mean')] computes it: the
    compensated sum divided by the number of values. *)
Definition group_mean (xs : list Q) : Q :=
  fdiv (fold_left kahan_step xs (0, 0)).1 (binary64 (inject_Z (Z.of_nat (length xs)))).

(** The exact sum and the exact mean of a list of numbers, to which the
    results of the binary64 operations are compared. *)
Definition Qsum (xs : list Q) : Q := fold_right Qplus 0 xs.

Definition Qmean (xs : list Q) : Q := Qsum xs / inject_Z (Z.of_nat (length xs)).

Definition Qmax2 (x y : Q) : Q := if Qleb x y then y else x.

(** [Series.max()]: [None] (NaN) on an empty column. *)
Definition maximum (xs : list Q) : option Q :=
  match xs with
  | [] => None
  | x :: rest => Some (fold_left Qmax2 rest x)
  end.

(** ** Exceptions *)

Inductive exn : Type :=
  | RequestException
  | KeyError (key : string)
  | AttributeError.

Inductive outcome (A : Type) : Type :=
  | Returned (a : A)
  | Raised (e : exn).
Arguments Returned {A} a.
Arguments Raised {A} e.

(** ** DataFrames *)

Inductive DataFrame (R : Type) : Type :=
  | Empty_DataFrame                (* pd.DataFrame(): no columns, no rows *)
  | Frame (rows : list R).
Arguments Empty_DataFrame {R}.
Arguments Frame {R} rows.

Definition rows_of {R} (df : DataFrame R) : list R :=
  match df with Empty_DataFrame => [] | Frame rows => rows end.

(** [df.empty] *)
Definition empty {R} (df : DataFrame R) : bool :=
  match rows_of df with [] => true | _ => false end.

(** Python truthiness of a list. *)
Definition nonempty {A} (l : list A) : bool :=
  match l with [] => false | _ => true end.

(** ** onemap_client.py *)

Module OneMapClient.
Section Client.

(** shapely geometries and [geometry.contains(Point(lon, lat))] *)
Variable Geometry : Type.
Variable contains : Geometry -> Q -> Q -> bool.

(** A cached area; the name is [None] where the payload has a null. *)
Record area : Type := { name : option string; geometry : Geometry }.

(** A dict of the planning-area payload.  The key 'pln_area_n' is absent
  ([None]), null ([Some None]) or a string; [geojson = None] stands for a
  dict on which [json.loads] or [shape] raises. *)
Record item : Type := {
  pln_area_n : option (option string);
  geojson : option Geometry
}.

(** An element of the payload: a dict, or a value that has no [get]. *)
Inductive element : Type :=
| dict (it : item)
| not_a_dict.

(** [RequestFailed]: the request, its status check or the decoding of the
  body raises.  [Payload data]: [data] is the list that the load loop runs
  over. *)
Inductive response : Type :=
| RequestFailed
| Payload (data : list element).

(** What the n-th HTTP request of the process is answered with. *)
Variable network : nat -> response.

Record t : Type := { planning_areas : list area; requests : nat }.

(** [OneMapClient.__init__] *)
Definition init : t := {| planning_areas := []; requests := 0 |}.

(** [item.get("pln_area_n", "UNKNOWN")]: the default stands in for an
  absent key only. *)
Definition name_of (it : item) : option string :=
match pln_area_n it with
| None => Some "UNKNOWN"
| Some n => n
end.

(** The load loop.  A dict that does not parse is skipped by the per-item
  [try]; on an element that is not a dict [item.get] raises in the [try]
  and again in its handler, which ends the loop. *)
Fixpoint parse_areas (data : list element) : outcome (list area) :=
match data with
| [] => Returned []
| not_a_dict :: _ => Raised AttributeError
| dict it :: rest =>
    match parse_areas rest with
    | Raised e => Raised e
    | Returned parsed =>
        match geojson it with
        | Some polygon =>
            Returned ({| name := name_of it; geometry := polygon |} :: parsed)
        | None => Returned parsed
        end
    end
end.

(** Only a [RequestException] is caught (and raised again); nothing is
  assigned to the cache before the loop has ended. *)
Definition load_planning_areas (self : t) : outcome unit * t :=
if nonempty (planning_areas self) then (Returned tt, self)
else
  match network (requests self) with
  | RequestFailed =>
      (Raised RequestException,
       {| planning_areas := planning_areas self; requests := S (requests self) |})
  | Payload data =>
      match parse_areas data with
      | Returned parsed =>
          (Returned tt, {| planning_areas := parsed; requests := S (requests self) |})
      | Raised e =>
          (Raised e,
           {| planning_areas := planning_areas self; requests := S (requests self) |})
      end
  end.

(** The [for area in self.planning_areas] loop; the name it returns can
  itself be [None]. *)
Fixpoint first_containing (areas : list area) (lat lon : Q) : option string :=
match areas with
| [] => None
| a :: rest =>
    if contains (geometry a) lon lat then name a
    else first_containing rest lat lon
end.

Definition get_planning_area (self : t) (lat lon : Q) : outcome (option string) * t :=
let '(loaded, self') :=
  if nonempty (planning_areas self) then (Returned tt, self)
  else load_planning_areas self in
match loaded with
| Raised e => (Raised e, self')
| Returned _ => (Returned (first_containing (planning_areas self') lat lon), self')
end.

(** An element of the [points] argument of [map_points]: a dict with the keys
    'lat' and 'lon', or a tuple. *)
Inductive point_arg : Type :=
  | dict_point (lat lon : Q)
  | tuple_point (lat lon : Q).

(** A dict of the list that [map_points] returns. *)
Record mapped_point : Type := {
  lat : Q; lon : Q; planning_area : option string
}.

Fixpoint map_points (self : t) (points : list point_arg)
  : outcome (list mapped_point) * t :=
  match points with
  | [] => (Returned [], self)
  | p :: rest =>
      let '(p_lat, p_lon) :=
        match p with
        | dict_point p_lat p_lon => (p_lat, p_lon)
        | tuple_point p_lat p_lon => (p_lat, p_lon)
        end in
      match get_planning_area self p_lat p_lon with
      | (Raised e, self') => (Raised e, self')
      | (Returned area, self') =>
          match map_points self' rest with
          | (Raised e, self'') => (Raised e, self'')
          | (Returned results, self'') =>
              (Returned ({| lat := p_lat; lon := p_lon; planning_area := area |}
                           :: results), self'')
          end
      end
  end.

End Client.

Arguments name {Geometry} _.
Arguments geometry {Geometry} _.
Arguments planning_areas {Geometry} _.
Arguments requests {Geometry} _.
Arguments pln_area_n {Geometry} _.
Arguments geojson {Geometry} _.
Arguments name_of {Geometry} _.
Arguments dict {Geometry} it.
Arguments not_a_dict {Geometry}.
Arguments RequestFailed {Geometry}.
Arguments Payload {Geometry} data.
Arguments init {Geometry}.

End OneMapClient.

(** ** Sorting

    Python's [list.sort] and pandas' [groupby] order are fixed by the
    language and the library: the first is a stable sort, the second sorts
    the (distinct) group keys.  Both are modelled by insertion sort. *)

Fixpoint insert_by {A} (before : A -> A -> bool) (x : A) (l : list A) : list A :=
  match l with
  | [] => [x]
  | y :: rest => if before x y then x :: y :: rest else y :: insert_by before x rest
  end.

Definition insertion_sort {A} (before : A -> A -> bool) (l : list A) : list A :=
  fold_right (insert_by before) [] l.

(** Distinct keys in order of first appearance. *)
Fixpoint unique (l : list string) : list string :=
  match l with
  | [] => []
  | x :: rest => x :: filter (fun y => y <> x) (unique rest)
  end.

(** Sorted distinct keys, as [groupby] and an outer [merge] lay them out. *)
Definition sorted_keys (l : list string) : list string :=
  insertion_sort String.leb (unique l).

(** ** pandas' [sort_values]

    Both call sites sort one float column descending with NaN last and give
    no [kind].  pandas then sets the rows with a missing key aside, in
    their order, sorts the others with numpy's default sort and puts the
    rows with a missing key behind them.  numpy's default sort is a
    quicksort that its documentation lists as not stable; it partitions
    only while more than [SMALL_QUICKSORT] elements lie behind the first
    one and finishes by insertion, so that a column of at most 17 keys is
    sorted by insertion alone, which keeps equal keys in their order.

    The model takes the sort by this contract: the result is a
    rearrangement of the rows, ordered by the key; the rows with a missing
    key keep their order; and so do the rows with equal keys when at most
    17 rows have a key.  [key_order ka kb] says that a row with key [ka] may
    stand before a row with key [kb]. *)

Definition key_order (ka kb : option Q) : Prop :=
  match ka, kb with
  | Some x, Some y => y <= x
  | Some _, None => True
  | None, Some _ => False
  | None, None => True
  end.

Definition key_before (ka kb : option Q) : bool :=
  match ka, kb with
  | Some x, Some y => Qleb y x
  | Some _, None => true
  | None, Some _ => false
  | None, None => true
  end.

(** The key is the number [v]. *)
Definition key_equal (v : Q) (k : option Q) : Prop :=
  match k with
  | Some x => x == v
  | None => False
  end.

#[global] Instance key_equal_dec v k : Decision (key_equal v k).
Proof. destruct k as [x|]; simpl; [apply Qeq_dec|right; tauto]. Defined.

(** numpy's [SMALL_QUICKSORT]. *)
Definition SMALL_QUICKSORT : nat := 16.

Record pandas : Type := {
  sort_values : forall R : Type, (R -> option Q) -> list R -> list R;
  sort_values_Permutation :
    forall R (by_ : R -> option Q) (l : list R), sort_values R by_ l ≡ₚ l;
  sort_values_Sorted :
    forall R (by_ : R -> option Q) (l : list R),
      StronglySorted (fun a b => key_order (by_ a) (by_ b)) (sort_values R by_ l);
  sort_values_missing :
    forall R (by_ : R -> option Q) (l : list R),
      filter (fun r => by_ r = None) (sort_values R by_ l)
        = filter (fun r => by_ r = None) l;
  sort_values_short :
    forall R (by_ : R -> option Q) (l : list R) (v : Q),
      (length (filter (fun r => is_Some (by_ r)) l) <= S SMALL_QUICKSORT)%nat ->
      filter (fun r => key_equal v (by_ r)) (sort_values R by_ l)
        = filter (fun r => key_equal v (by_ r)) l
}.
Arguments sort_values _ {R} by_ l.

(** ** aggregator.py *)

Module TemperatureAggregator.

(** A weather point as [get_island_wide_weather] builds it: the keys are
    always present, the station name may be [None]. *)
Record point : Type := {
  lat : Q; lng : Q; value : Q; station_id : string; name : option string
}.

(** A row of [mapped_data]. *)
Record mapped : Type := {
  m_planning_area : string; temperature : Q; station_name : option string
}.

(** A row of the aggregated frame. *)
Record stat : Type := {
  planning_area : string;
  avg_temp : option Q;
  max_temp : option Q;
  station_count : nat;
  stations : list (option string)
}.

(** [if area:] is false for [None] and for the empty string. *)
Definition truthy (area : option string) : bool :=
  match area with
  | Some a => negb (String.eqb a "")
  | None => false
  end.

(** [Series.count()]: the number of non-null entries. *)
Definition count {A} (l : list (option A)) : nat :=
  length (filter (fun o => is_Some o) l).

(** The group mean then [.round(1)]; NaN on an empty group. *)
Definition rounded_mean (xs : list Q) : option Q :=
  match xs with
  | [] => None
  | _ => Some (np_round 1 (group_mean xs))
  end.

Definition group (k : string) (md : list mapped) : list mapped :=
  filter (fun m => m_planning_area m = k) md.

(** [df.groupby('planning_area').agg(...).reset_index()] followed by the
    rounding of [avg_temp]. *)
Definition aggregate (md : list mapped) : list stat :=
  map (fun k =>
         let g := group k md in
         {| planning_area := k;
            avg_temp := rounded_mean (map temperature g);
            max_temp := maximum (map temperature g);
            station_count := count (map station_name g);
            stations := map station_name g |})
      (sorted_keys (map m_planning_area md)).

Section Aggregator.

Variable Geometry : Type.
Variable contains : Geometry -> Q -> Q -> bool.
Variable network : nat -> OneMapClient.response Geometry.
Variable pd : pandas.

Abbreviation client := (OneMapClient.t Geometry).

(** The loop over [points]; an exception of the resolver ends it. *)
Fixpoint map_points (onemap_client : client) (points : list point)
  : outcome (list mapped) * client :=
  match points with
  | [] => (Returned [], onemap_client)
  | p :: rest =>
      match OneMapClient.get_planning_area Geometry contains network
              onemap_client (lat p) (lng p) with
      | (Raised e, c1) => (Raised e, c1)
      | (Returned area, c1) =>
          match map_points c1 rest with
          | (Raised e, c2) => (Raised e, c2)
          | (Returned md, c2) =>
              (Returned
                 (if truthy area
                  then {| m_planning_area := default "" area;
                          temperature := value p;
                          station_name := name p |} :: md
                  else md), c2)
          end
      end
  end.

(** [points] is what the weather client returned. *)
Definition get_aggregated_data (onemap_client : client) (points : list point)
  : outcome (DataFrame stat) * client :=
  if negb (nonempty points) then (Returned Empty_DataFrame, onemap_client)
  else
    match OneMapClient.load_planning_areas Geometry network onemap_client with
    | (Raised e, c1) => (Raised e, c1)
    | (Returned _, c1) =>
        match map_points c1 points with
        | (Raised e, c2) => (Raised e, c2)
        | (Returned mapped_data, c2) =>
            if negb (nonempty mapped_data) then (Returned Empty_DataFrame, c2)
            else (Returned (Frame (sort_values pd max_temp (aggregate mapped_data))), c2)
        end
    end.

End Aggregator.

End TemperatureAggregator.

(** ** context_enricher.py *)

Module ContextEnricher.

(** A row of the context frame. *)
Record features : Type := {
  planning_area : option string;
  green_ratio : Q;
  density_type : string;
  green_count : nat;
  comm_count : nat;
  res_count : nat
}.

(** [df['planning_area'].map(counts).fillna(0)] for one area; [counts] is
    the dict built by [_fetch_and_map], whose keys are strings. *)
Definition lookup_count (counts : gmap string nat) (a : option string) : nat :=
  match a with
  | Some n => default 0%nat (counts !! n)
  | None => 0%nat
  end.

Definition Qnat (n : nat) : Q := inject_Z (Z.of_nat n).

(** [df['green_count'].max()]: NaN ([None]) when the frame has no rows. *)
Definition max_count (counts : list nat) : option nat :=
  match counts with
  | [] => None
  | c :: rest => Some (fold_left Nat.max rest c)
  end.

(** [(green_count / max_green).round(2) if max_green > 0 else 0];
    [NaN > 0] is false.  The column and its maximum are converted to
    binary64 for the division. *)
Definition ratio_to_max (max_green : option nat) (count : nat) : Q :=
  match max_green with
  | Some m =>
      if Nat.ltb 0 m
      then np_round 2 (fdiv (binary64 (Qnat count)) (binary64 (Qnat m)))
      else 0
  | None => 0
  end.

Definition determine_density (c r : nat) : string :=
  let total := (c + r)%nat in
  if Nat.eqb total 0 then "Unknown/Low Density"
  else
    let comm_ratio := Qnat c / Qnat total in
    if Qltb (6 # 10) comm_ratio then "Commercial"
    else if Qltb comm_ratio (4 # 10) then "Residential"
    else "Mixed".

(** [all_areas] are the names of the cached planning areas and the three
    dicts are the results of [_fetch_and_map]. *)
Definition get_context_features (all_areas : list (option string))
    (green_counts comm_counts res_counts : gmap string nat) : list features :=
  let max_green := max_count (map (lookup_count green_counts) all_areas) in
  map (fun a =>
         let c := lookup_count comm_counts a in
         let r := lookup_count res_counts a in
         {| planning_area := a;
            green_ratio := ratio_to_max max_green (lookup_count green_counts a);
            density_type := determine_density c r;
            green_count := lookup_count green_counts a;
            comm_count := c;
            res_count := r |})
      all_areas.

Definition THEMES_GREEN : list string := ["nationalparks"; "nparks_parks"].
Definition THEMES_COMMERCIAL : list string := ["hotels"].
Definition THEMES_RESIDENTIAL : list string := ["kindergartens"; "ssot_hawkercentres"].

(** The character [','] (code 44). *)
Definition comma : Ascii.ascii := Ascii.ascii_of_nat 44.

(** [s.split(',')] *)
Fixpoint split_comma (s : string) : list string :=
  match s with
  | EmptyString => [EmptyString]
  | String c rest =>
      if Ascii.eqb c comma
      then EmptyString :: split_comma rest
      else
        match split_comma rest with
        | part :: parts => String c part :: parts
        | [] => [String c EmptyString]
        end
  end.

(** [',' in s] *)
Fixpoint has_comma (s : string) : bool :=
  match s with
  | EmptyString => false
  | String c rest => Ascii.eqb c comma || has_comma rest
  end.

(** An item of a theme; [LatLng = None] when the key is missing or null. *)
Record theme_item : Type := { LatLng : option string }.

(** What can leave [_fetch_and_map]: the [ValueError] of unpacking the split
    string, which is outside the [try], or an exception of the client. *)
Inductive error : Type :=
  | ValueError
  | ClientError (e : exn).

Inductive fetched (A : Type) : Type :=
  | Counted (a : A)
  | Failed (e : error).
Arguments Counted {A} a.
Arguments Failed {A} e.

Section FetchAndMap.

Variable Geometry : Type.
Variable contains : Geometry -> Q -> Q -> bool.
Variable network : nat -> OneMapClient.response Geometry.

(** Python's [float] on a string; [None] where it raises [ValueError]. *)
Variable float : string -> option Q.

(** [self.client.get_theme_data]: the items of a theme, none on a failure. *)
Variable get_theme_data : string -> list theme_item.

(** The body of the loop over the items of a theme.  The [except ValueError]
    covers the two [float] calls; a failed planning-area request is not a
    [ValueError] and leaves the function. *)
Definition count_item (client : OneMapClient.t Geometry) (counts : gmap string nat)
    (item : theme_item) : fetched (gmap string nat) * OneMapClient.t Geometry :=
  let latlng_str := default "" (LatLng item) in
  if String.eqb latlng_str "" || negb (has_comma latlng_str)
  then (Counted counts, client)
  else
    match split_comma latlng_str with
    | [lat; lon] =>
        match float lat with
        | None => (Counted counts, client)
        | Some lat =>
            match float lon with
            | None => (Counted counts, client)
            | Some lon =>
                match OneMapClient.get_planning_area Geometry contains network
                        client lat lon with
                | (Raised e, client') => (Failed (ClientError e), client')
                | (Returned area, client') =>
                    if TemperatureAggregator.truthy area
                    then
                      let a := default "" area in
                      (Counted (<[a := (default 0 (counts !! a) + 1)%nat]> counts),
                       client')
                    else (Counted counts, client')
                end
            end
        end
    | _ => (Failed ValueError, client)
    end.

Fixpoint count_items (client : OneMapClient.t Geometry) (counts : gmap string nat)
    (items : list theme_item) : fetched (gmap string nat) * OneMapClient.t Geometry :=
  match items with
  | [] => (Counted counts, client)
  | item :: rest =>
      match count_item client counts item with
      | (Failed e, client') => (Failed e, client')
      | (Counted counts', client') => count_items client' counts' rest
      end
  end.

Fixpoint count_themes (client : OneMapClient.t Geometry) (counts : gmap string nat)
    (theme_list : list string) : fetched (gmap string nat) * OneMapClient.t Geometry :=
  match theme_list with
  | [] => (Counted counts, client)
  | theme :: rest =>
      match count_items client counts (get_theme_data theme) with
      | (Failed e, client') => (Failed e, client')
      | (Counted counts', client') => count_themes client' counts' rest
      end
  end.

Definition _fetch_and_map (client : OneMapClient.t Geometry) (theme_list : list string)
  : fetched (gmap string nat) * OneMapClient.t Geometry :=
  count_themes client ∅ theme_list.

(** [get_context_features] as a whole: load the planning areas, take their
    names, count the three kinds of themes and build the frame. *)
Definition get_context_features_of (client : OneMapClient.t Geometry)
  : fetched (list features) * OneMapClient.t Geometry :=
  match OneMapClient.load_planning_areas Geometry network client with
  | (Raised e, c0) => (Failed (ClientError e), c0)
  | (Returned _, c0) =>
      let all_areas := map OneMapClient.name (OneMapClient.planning_areas c0) in
      match _fetch_and_map c0 THEMES_GREEN with
      | (Failed e, c1) => (Failed e, c1)
      | (Counted green_counts, c1) =>
          match _fetch_and_map c1 THEMES_COMMERCIAL with
          | (Failed e, c2) => (Failed e, c2)
          | (Counted comm_counts, c2) =>
              match _fetch_and_map c2 THEMES_RESIDENTIAL with
              | (Failed e, c3) => (Failed e, c3)
              | (Counted res_counts, c3) =>
                  (Counted (get_context_features all_areas
                              green_counts comm_counts res_counts), c3)
              end
          end
      end
  end.

End FetchAndMap.

End ContextEnricher.

(** ** data_fusion.py *)

Module DataFusion.

(** A row of the unified frame.  The key is missing on the row of an area
    whose name is null in the payload. *)
Record unified : Type := {
  planning_area : option string;
  avg_temperature : option Q;
  green_ratio : option Q;
  density_type : option string
}.

Abbreviation stat := TemperatureAggregator.stat.
Abbreviation features := ContextEnricher.features.

(** The row of an area found on both sides. *)
Definition both (k : option string) (t : stat) (c : features) : unified :=
  {| planning_area := k;
     avg_temperature := TemperatureAggregator.avg_temp t;
     green_ratio := Some (ContextEnricher.green_ratio c);
     density_type := Some (ContextEnricher.density_type c) |}.

Definition left_only (k : option string) (t : stat) : unified :=
  {| planning_area := k;
     avg_temperature := TemperatureAggregator.avg_temp t;
     green_ratio := None;
     density_type := None |}.

Definition right_only (k : option string) (c : features) : unified :=
  {| planning_area := k;
     avg_temperature := None;
     green_ratio := Some (ContextEnricher.green_ratio c);
     density_type := Some (ContextEnricher.density_type c) |}.

(** The key column of the temperature frame: its names are strings. *)
Definition temp_key (t : stat) : option string :=
  Some (TemperatureAggregator.planning_area t).

(** The rows of one key of [pd.merge(temp_df, context_df, how='outer')]. *)
Definition merge_key (temp : list stat) (context : list features) (k : option string)
  : list unified :=
  let ts := filter (fun t => temp_key t = k) temp in
  let cs := filter (fun c => ContextEnricher.planning_area c = k) context in
  match ts, cs with
  | [], _ => map (right_only k) cs
  | _, [] => map (left_only k) ts
  | _, _ => t ← ts; map (both k t) cs
  end.

(** The keys of an outer merge: the names sorted, then the missing key if
    it occurs (missing keys form one group, which is laid out last). *)
Definition merge_keys (l : list (option string)) : list (option string) :=
  map Some (sorted_keys (omap id l))
    ++ (if bool_decide (None ∈ l) then [None] else []).

(** [pd.merge(temp_df, context_df, on='planning_area', how='outer')]. *)
Definition merge_outer (temp : list stat) (context : list features) : list unified :=
  k ← merge_keys (map temp_key temp ++ map ContextEnricher.planning_area context);
  merge_key temp context k.

(** The join of [get_unified_dataset], before the final sort. *)
Definition joined (temp_df : DataFrame stat) (context_df : DataFrame features)
  : list unified :=
  if empty temp_df
  then map (fun c => right_only (ContextEnricher.planning_area c) c) (rows_of context_df)
  else merge_outer (rows_of temp_df) (rows_of context_df).

(** [temp_df] and [context_df] are what the aggregator and the enricher
    returned. *)
Definition get_unified_dataset (pd : pandas)
    (temp_df : DataFrame stat) (context_df : DataFrame features)
  : DataFrame unified :=
  if empty context_df then Empty_DataFrame
  else Frame (sort_values pd avg_temperature (joined temp_df context_df)).

End DataFusion.

(** ** trigger_rules_enhanced.py *)

Module EnhancedTriggerRules.

Abbreviation unified := DataFusion.unified.

Definition TEMP_HIGH : Q := 295 # 10.
Definition TEMP_CRITICAL : Q := 305 # 10.
Definition GREEN_LOW : Q := 2 # 10.
Definition GREEN_CRITICAL : Q := 1 # 10.

(** The message templates of the source; the interpolated numbers are in
    [details]. *)
Inductive reason : Type :=
  | not_found (planning_area : option string)
  | CRITICAL_extreme_heat
  | HIGH_low_green_ratio
  | HIGH_threshold_exceeded
  | MEDIUM_commercial
  | MEDIUM_residential
  | Normal_conditions
  | INFERRED_adequate
  | INFERRED_commercial
  | INFERRED_very_low
  | INFERRED_residential.

(** The [details] dict; [all_triggers] is set by the temperature branch
    only. *)
Record details : Type := {
  planning_area : string;
  avg_temperature : option Q;
  green_ratio : option Q;
  density_type : option string;
  all_triggers : option (list reason);
  data_source : string
}.

(** The result dict; [details = None] is the empty dict. *)
Record finding : Type := {
  trigger : bool;
  reason_ : reason;
  priority : string;
  details_ : option details
}.

(** [density == 'Commercial'] on a possibly missing label. *)
Definition is_density (density : option string) (label : string) : bool :=
  match density with Some d => String.eqb d label | None => false end.

Definition _evaluate_with_temperature (area : string) (temp : Q)
    (green : option Q) (density : option string) : finding :=
  let '(triggers, priority) :=
    if Qleb TEMP_CRITICAL temp && lt_float green GREEN_CRITICAL
       && is_density density "Commercial"
    then ([CRITICAL_extreme_heat], "CRITICAL")
    else if Qleb TEMP_HIGH temp && lt_float green GREEN_LOW
    then ([HIGH_low_green_ratio], "HIGH")
    else if Qleb TEMP_CRITICAL temp
    then ([HIGH_threshold_exceeded], "HIGH")
    else if Qleb TEMP_HIGH temp && is_density density "Commercial"
            && lt_float green GREEN_CRITICAL
    then ([MEDIUM_commercial], "MEDIUM")
    else if Qleb TEMP_HIGH temp && is_density density "Residential"
            && lt_float green GREEN_LOW
    then ([MEDIUM_residential], "MEDIUM")
    else ([], "NORMAL") in
  {| trigger := Nat.ltb 0 (length triggers);
     reason_ := match triggers with r :: _ => r | [] => Normal_conditions end;
     priority := priority;
     details_ := Some {| planning_area := area;
                         avg_temperature := Some temp;
                         green_ratio := green;
                         density_type := density;
                         all_triggers := Some triggers;
                         data_source := "temperature" |} |}.

Definition _infer_from_context (area : string)
    (green : option Q) (density : option string) : finding :=
  let '(priority, reason, trigger) :=
    if is_density density "Commercial" && lt_float green GREEN_CRITICAL
    then ("MEDIUM", INFERRED_commercial, true)
    else if lt_float green GREEN_CRITICAL
    then ("MEDIUM", INFERRED_very_low, true)
    else if is_density density "Residential" && lt_float green GREEN_LOW
    then ("LOW", INFERRED_residential, true)
    else ("NORMAL", INFERRED_adequate, false) in
  {| trigger := trigger;
     reason_ := reason;
     priority := priority;
     details_ := Some {| planning_area := area;
                         avg_temperature := None;
                         green_ratio := green;
                         density_type := density;
                         all_triggers := None;
                         data_source := "context_inference" |} |}.

(** [series == planning_area] for one entry of the key column: a missing
    value equals nothing, not even a missing value. *)
Definition same_area (key planning_area : option string) : Prop :=
  is_Some planning_area /\ key = planning_area.

#[global] Instance same_area_dec key planning_area : Decision (same_area key planning_area).
Proof. unfold same_area. apply _. Defined.

(** [self.df[self.df['planning_area'] == planning_area]]; indexing the
    column-less frame raises. *)
Definition select (df : DataFrame unified) (planning_area : option string)
  : outcome (list unified) :=
  match df with
  | Empty_DataFrame => Raised (KeyError "planning_area")
  | Frame rows =>
      Returned (filter (fun r => same_area (DataFusion.planning_area r) planning_area) rows)
  end.

(** [planning_area] is a name, or the missing value that [evaluate_all]
    reads from a row without a name. *)
Definition evaluate_area (df : DataFrame unified) (planning_area : option string)
  : outcome finding :=
  match select df planning_area with
  | Raised e => Raised e
  | Returned [] =>
      Returned {| trigger := false;
                  reason_ := not_found planning_area;
                  priority := "N/A";
                  details_ := None |}
  | Returned (row :: _) =>
      let area := default "" planning_area in
      let temp := DataFusion.avg_temperature row in
      let green := DataFusion.green_ratio row in
      let density := DataFusion.density_type row in
      match temp with
      | Some t => Returned (_evaluate_with_temperature area t green density)
      | None => Returned (_infer_from_context area green density)
      end
  end.

Definition priority_order : gmap string nat :=
  <["CRITICAL" := 0%nat]> (<["HIGH" := 1%nat]> (<["MEDIUM" := 2%nat]>
    (<["LOW" := 3%nat]> (<["NORMAL" := 4%nat]> ∅)))).

(** The sort key [priority_order.get(x['priority'], 5)]. *)
Definition rank (f : finding) : nat := default 5%nat (priority_order !! priority f).

(** The [for _, row in self.df.iterrows()] loop. *)
Fixpoint evaluate_rows (df : DataFrame unified) (rows : list unified)
  : outcome (list finding) :=
  match rows with
  | [] => Returned []
  | row :: rest =>
      match evaluate_area df (DataFusion.planning_area row) with
      | Raised e => Raised e
      | Returned result =>
          match evaluate_rows df rest with
          | Raised e => Raised e
          | Returned results => Returned (result :: results)
          end
      end
  end.

(** [results.sort(key=...)] is Python's stable sort. *)
Definition evaluate_all (df : DataFrame unified) : outcome (list finding) :=
  match evaluate_rows df (rows_of df) with
  | Raised e => Raised e
  | Returned results =>
      Returned (insertion_sort (fun x y => Nat.leb (rank x) (rank y)) results)
  end.

(** A row of the frame of triggered areas. *)
Record triggered_row : Type := {
  t_planning_area : string;
  t_priority : string;
  t_temperature : option Q;
  t_green_ratio : option Q;
  t_density_type : option string;
  t_data_source : string;
  t_reason : reason
}.

(** The dict built for one triggered result; [r['details'][...]] raises on
    the empty dict. *)
Definition triggered_entry (r : finding) : outcome triggered_row :=
  match details_ r with
  | None => Raised (KeyError "planning_area")
  | Some d =>
      Returned {| t_planning_area := planning_area d;
                  t_priority := priority r;
                  t_temperature := avg_temperature d;
                  t_green_ratio := green_ratio d;
                  t_density_type := density_type d;
                  t_data_source := data_source d;
                  t_reason := reason_ r |}
  end.

Fixpoint triggered_entries (rs : list finding) : outcome (list triggered_row) :=
  match rs with
  | [] => Returned []
  | r :: rest =>
      match triggered_entry r with
      | Raised e => Raised e
      | Returned row =>
          match triggered_entries rest with
          | Raised e => Raised e
          | Returned rows => Returned (row :: rows)
          end
      end
  end.

Definition get_triggered_areas (df : DataFrame unified)
  : outcome (DataFrame triggered_row) :=
  match evaluate_all df with
  | Raised e => Raised e
  | Returned results =>
      let triggered := filter (fun r => trigger r = true) results in
      if negb (nonempty triggered) then Returned Empty_DataFrame
      else
        match triggered_entries triggered with
        | Raised e => Raised e
        | Returned rows => Returned (Frame rows)
        end
  end.

End EnhancedTriggerRules.

(** ** perception.py: [DataGovClient.get_island_wide_weather]

    The parsed JSON of the weather API is modelled by typed records; a key
    that is missing or null is [None]. *)

Module DataGovClient.

(** An element of 'stations'; a missing 'location' gives no coordinates. *)
Record station : Type := {
  s_id : option string;
  s_name : option string;
  s_latitude : option Q;
  s_longitude : option Q
}.




(** A point of the result. *)
Record point : Type := {
  lat : option Q;
  lng : option Q;
  value : Q;
  station_id : string;
  name : option string
}.

(** [if sid:] for an optional string. *)
Definition truthy (sid : option string) : bool :=
  match sid with
  | Some s => negb (String.eqb s "")
  | None => false
  end.






End DataGovClient.

(** ** geo_enhanced.py

    A folium map is modelled by what the functions put on it: the heat
    layer, the station markers and the planning-area overlay.  Of a style
    only the fill colour is kept, the other entries are constants. *)

Module GeoEnhanced.

Definition RISK_COLORS : gmap string string :=
  <["CRITICAL" := "#8B0000"]> (<["HIGH" := "#FF4444"]> (<["MEDIUM" := "#FFA500"]>
    (<["LOW" := "#90EE90"]> (<["NORMAL" := "#32CD32"]>
      (<["NO_DATA" := "#808080"]> ∅))))).

(** A station label of [generate_heatmap]. *)
Record marker : Type := {
  location : Q * Q;
  station : option string;
  temp : Q;
  text_color : string
}.

Section Map.

Variable Geometry : Type.

(** A GeoJSON feature of the overlay with its two properties. *)
Record feature : Type := {
  pln_area_n : option string;
  priority : string;
  geometry : Geometry
}.

Record folium_map : Type := {
  heat_data : option (list (Q * Q * Q));
  markers : list marker;
  overlay : option (list feature)
}.

Definition generate_heatmap (data_points : list TemperatureAggregator.point)
  : folium_map :=
  if negb (nonempty data_points)
  then {| heat_data := None; markers := []; overlay := None |}
  else
    {| heat_data :=
         Some (map (fun p => (TemperatureAggregator.lat p,
                              TemperatureAggregator.lng p,
                              TemperatureAggregator.value p)) data_points);
       markers :=
         map (fun p =>
                {| location := (TemperatureAggregator.lat p, TemperatureAggregator.lng p);
                   station := TemperatureAggregator.name p;
                   temp := TemperatureAggregator.value p;
                   text_color :=
                     if Qltb 29 (TemperatureAggregator.value p)
                     then "#ff4444" else "#00ccff" |})
             data_points;
       overlay := None |}.

(** The fill colour that [style_function] gives a feature. *)
Definition style_function (f : feature) : string :=
  default "#808080" (RISK_COLORS !! priority f).

(** [risk_data.get(area['name'], 'NO_DATA')]; the keys of [risk_data] are
    strings. *)
Definition risk_of (risk_data : gmap string string) (name : option string) : string :=
  match name with
  | Some n => default "NO_DATA" (risk_data !! n)
  | None => "NO_DATA"
  end.

Definition add_planning_area_overlay (map_obj : folium_map)
    (planning_areas_data : list (OneMapClient.area Geometry))
    (risk_data : gmap string string) : folium_map :=
  let geojson_features :=
    map (fun area =>
           {| pln_area_n := OneMapClient.name area;
              priority := risk_of risk_data (OneMapClient.name area);
              geometry := OneMapClient.geometry area |})
        planning_areas_data in
  {| heat_data := heat_data map_obj;
     markers := markers map_obj;
     overlay := Some geojson_features |}.

(** [if planning_areas_data and risk_data]: both must be non-empty. *)
Definition generate_heatmap_with_planning_areas
    (data_points : list TemperatureAggregator.point)
    (planning_areas_data : list (OneMapClient.area Geometry))
    (risk_data : gmap string string) : folium_map :=
  let m := generate_heatmap data_points in
  if nonempty planning_areas_data && negb (bool_decide (risk_data = ∅))
  then add_planning_area_overlay m planning_areas_data risk_data
  else m.

End Map.

Arguments pln_area_n {Geometry} _.
Arguments priority {Geometry} _.
Arguments geometry {Geometry} _.
Arguments heat_data {Geometry} _.
Arguments markers {Geometry} _.
Arguments overlay {Geometry} _.

End GeoEnhanced.

(** ** dashboard.py *)

Module Dashboard.

(** The hotspot of the [dashboard] route: Python's [max] keeps the first of
    the largest values. *)
Fixpoint hottest (best : TemperatureAggregator.point)
    (points : list TemperatureAggregator.point) : TemperatureAggregator.point :=
  match points with
  | [] => best
  | p :: rest =>
      hottest (if Qltb (TemperatureAggregator.value best) (TemperatureAggregator.value p)
               then p else best) rest
  end.

(** [(hotspot_name, hotspot_temp)]; the station name of a point may be
    [None]. *)
Definition hotspot (points : list TemperatureAggregator.point) : option string * Q :=
  match points with
  | [] => (Some "N/A", 0)
  | p :: rest =>
      let h := hottest p rest in
      (TemperatureAggregator.name h, TemperatureAggregator.value h)
  end.

(** The dict comprehension
    [{r['details']['planning_area']: r['priority'] for r in evaluation_results}]:
    a later result overwrites an earlier one of the same area, and a result
    with empty details raises. *)
Fixpoint risk_data_from (acc : gmap string string)
    (evaluation_results : list EnhancedTriggerRules.finding)
  : outcome (gmap string string) :=
  match evaluation_results with
  | [] => Returned acc
  | r :: rest =>
      match EnhancedTriggerRules.details_ r with
      | None => Raised (KeyError "planning_area")
      | Some d =>
          risk_data_from
            (<[EnhancedTriggerRules.planning_area d := EnhancedTriggerRules.priority r]> acc)
            rest
      end
  end.

Section MapContent.

Variable Geometry : Type.
Variable network : nat -> OneMapClient.response Geometry.

(** The [map_content] route; [points] is what the weather client returned,
    [df] the table of the rules engine, and the result is the map before
    rendering. *)
Definition map_content (df : DataFrame DataFusion.unified)
    (onemap_client : OneMapClient.t Geometry)
    (points : list TemperatureAggregator.point)
  : outcome (GeoEnhanced.folium_map Geometry) * OneMapClient.t Geometry :=
  let '(loaded, client) :=
    if negb (nonempty (OneMapClient.planning_areas onemap_client))
    then OneMapClient.load_planning_areas Geometry network onemap_client
    else (Returned tt, onemap_client) in
  match loaded with
  | Raised e => (Raised e, client)
  | Returned _ =>
      match EnhancedTriggerRules.evaluate_all df with
      | Raised e => (Raised e, client)
      | Returned evaluation_results =>
          match risk_data_from ∅ evaluation_results with
          | Raised e => (Raised e, client)
          | Returned risk_data =>
              (Returned (GeoEnhanced.generate_heatmap_with_planning_areas Geometry
                           points (OneMapClient.planning_areas client) risk_data),
               client)
          end
      end
  end.

End MapContent.

End Dashboard.

(** ** The specification's decision lists

    The rule engine is specified as ordered lists of rules of which the first
    matching one wins.  [first_match rules otherwise v] holds when [v] is the
    verdict of the first rule of [rules] whose condition holds, or
    [otherwise] when none does. *)

Module Spec.

Inductive first_match {V : Type} : list (Prop * V) -> V -> V -> Prop :=
  | no_rule_left otherwise :
      first_match [] otherwise otherwise
  | rule_fires (condition : Prop) v rest otherwise :
      condition -> first_match ((condition, v) :: rest) otherwise v
  | rule_skipped (condition : Prop) v rest otherwise w :
      ~ condition -> first_match rest otherwise w ->
      first_match ((condition, v) :: rest) otherwise w.

(** A verdict: the priority and, where the rule states it, [triggered]. *)
Definition verdict : Type := string * option bool.

Definition TEMP_HIGH : Q := 295 # 10.
Definition TEMP_CRITICAL : Q := 305 # 10.
Definition GREEN_LOW : Q := 2 # 10.
Definition GREEN_CRITICAL : Q := 1 # 10.

(** [green < c] for a green ratio that may be missing. *)
Definition below (green : option Q) (c : Q) : Prop :=
  exists g, green = Some g /\ g < c.

Definition measurement_branch (temp : Q) (green : option Q) (density : option string)
  : list (Prop * verdict) :=
  [ (TEMP_CRITICAL <= temp /\ below green GREEN_CRITICAL /\ density = Some "Commercial",
     ("CRITICAL", None));
    (TEMP_HIGH <= temp /\ below green GREEN_LOW,
     ("HIGH", None));
    (TEMP_CRITICAL <= temp,
     ("HIGH", None));
    (TEMP_HIGH <= temp /\ density = Some "Commercial" /\ below green GREEN_CRITICAL,
     ("MEDIUM", None));
    (TEMP_HIGH <= temp /\ density = Some "Residential" /\ below green GREEN_LOW,
     ("MEDIUM", None)) ].

Definition measurement_otherwise : verdict := ("NORMAL", Some false).

Definition inference_branch (green : option Q) (density : option string)
  : list (Prop * verdict) :=
  [ (density = Some "Commercial" /\ below green GREEN_CRITICAL,
     ("MEDIUM", Some true));
    (below green GREEN_CRITICAL,
     ("MEDIUM", Some true));
    (density = Some "Residential" /\ below green GREEN_LOW,
     ("LOW", Some true)) ].

Definition inference_otherwise : verdict := ("NORMAL", Some false).

(** The decision list that applies to a fused record. *)
Definition evaluation (row : DataFusion.unified) (v : verdict) : Prop :=
  match DataFusion.avg_temperature row with
  | Some temp =>
      first_match
        (measurement_branch temp (DataFusion.green_ratio row) (DataFusion.density_type row))
        measurement_otherwise v
  | None =>
      first_match
        (inference_branch (DataFusion.green_ratio row) (DataFusion.density_type row))
        inference_otherwise v
  end.

(** A finding agrees with a verdict. *)
Definition agrees (f : EnhancedTriggerRules.finding) (v : verdict) : Prop :=
  EnhancedTriggerRules.priority f = v.1 /\
  forall b, v.2 = Some b -> EnhancedTriggerRules.trigger f = b.

End Spec.

(** * Properties *)

(** ** Insertion sort *)

Section InsertionSort.

Context {A : Type}.

Lemma insert_by_Permutation (before : A -> A -> bool) (x : A) (l : list A) :
  insert_by before x l ≡ₚ x :: l.
Proof.
  induction l as [|y l IH]; simpl; [done|].
  destruct (before x y); [done|].
  rewrite IH. apply Permutation_swap.
Qed.

Lemma insertion_sort_Permutation (before : A -> A -> bool) (l : list A) :
  insertion_sort before l ≡ₚ l.
Proof.
  induction l as [|x l IH]; simpl; [done|].
  rewrite insert_by_Permutation. by rewrite IH.
Qed.

Variable R : relation A.
Variable before : A -> A -> bool.
Hypothesis R_trans : Transitive R.
Hypothesis before_true : forall x y, before x y = true -> R x y.
Hypothesis before_false : forall x y, before x y = false -> R y x.

Lemma insert_by_StronglySorted (x : A) (l : list A) :
  StronglySorted R l -> StronglySorted R (insert_by before x l).
Proof.
  induction 1 as [|y l Hl IH Hy]; simpl.
  - repeat constructor.
  - destruct (before x y) eqn:E.
    + constructor; [by constructor|].
      constructor; [by apply before_true|].
      eapply Forall_impl; [exact Hy|].
      intros z Hz. etrans; [by apply before_true|done].
    + constructor; [done|].
      rewrite insert_by_Permutation.
      constructor; [by apply before_false|done].
Qed.

Lemma insertion_sort_StronglySorted (l : list A) :
  StronglySorted R (insertion_sort before l).
Proof.
  induction l as [|x l IH]; simpl; [constructor|].
  by apply insert_by_StronglySorted.
Qed.

End InsertionSort.

(** ** A sort that meets the contract of [sort_values] *)

Lemma key_order_trans (ka kb kc : option Q) :
  key_order ka kb -> key_order kb kc -> key_order ka kc.
Proof.
  destruct ka, kb, kc; simpl; try done.
  intros H1 H2. by apply Qle_trans with q0.
Qed.

Lemma key_before_true (ka kb : option Q) : key_before ka kb = true -> key_order ka kb.
Proof.
  destruct ka, kb; simpl; try done. apply Qle_bool_iff.
Qed.

Lemma key_before_false (ka kb : option Q) : key_before ka kb = false -> key_order kb ka.
Proof.
  destruct ka, kb; simpl; try done.
  unfold Qleb. intros H. apply Qlt_le_weak, Qnot_le_lt.
  intros Hle. apply Qle_bool_iff in Hle. congruence.
Qed.

(** Insertion never moves an element past one that it may stand before:
    elements that may stand before each other keep their order. *)
Lemma insert_by_filter {A} (before : A -> A -> bool) (P : A -> Prop)
    `{!forall x, Decision (P x)} (x : A) (l : list A) :
  (forall a b, P a -> P b -> before a b = true) ->
  filter P (insert_by before x l) = filter P (x :: l).
Proof.
  intros Hties. induction l as [|y l IH]; simpl; [done|].
  destruct (before x y) eqn:E; [done|].
  destruct (decide (P x)) as [Hx|Hx].
  - assert (~ P y) as Hy by (intros Hy; rewrite Hties in E; done).
    rewrite (filter_cons_False _ y) by done. rewrite IH.
    rewrite !(filter_cons_True _ x) by done.
    by rewrite (filter_cons_False _ y) by done.
  - destruct (decide (P y)) as [Hy|Hy].
    + rewrite (filter_cons_True _ y) by done. rewrite IH.
      rewrite !(filter_cons_False _ x) by done.
      by rewrite (filter_cons_True _ y) by done.
    + rewrite (filter_cons_False _ y) by done. rewrite IH.
      rewrite !(filter_cons_False _ x) by done.
      by rewrite (filter_cons_False _ y) by done.
Qed.

Lemma insertion_sort_filter {A} (before : A -> A -> bool) (P : A -> Prop)
    `{!forall x, Decision (P x)} (l : list A) :
  (forall a b, P a -> P b -> before a b = true) ->
  filter P (insertion_sort before l) = filter P l.
Proof.
  intros Hties. induction l as [|x l IH]; simpl; [done|].
  rewrite insert_by_filter by done.
  destruct (decide (P x)).
  - rewrite !(filter_cons_True _ x) by done. by rewrite IH.
  - rewrite !(filter_cons_False _ x) by done. by rewrite IH.
Qed.

(** Insertion sort, which keeps rows with equal keys in their order: what
    the default algorithm is on short columns. *)
Definition stable_sort_values (R : Type) (by_ : R -> option Q) (l : list R) : list R :=
  insertion_sort (fun a b => key_before (by_ a) (by_ b)) l.

Lemma stable_sort_values_Sorted R (by_ : R -> option Q) (l : list R) :
  StronglySorted (fun a b => key_order (by_ a) (by_ b)) (stable_sort_values R by_ l).
Proof.
  apply insertion_sort_StronglySorted.
  - intros a b c. apply key_order_trans.
  - intros a b. apply key_before_true.
  - intros a b. apply key_before_false.
Qed.

Lemma stable_sort_values_missing R (by_ : R -> option Q) (l : list R) :
  filter (fun r => by_ r = None) (stable_sort_values R by_ l)
    = filter (fun r => by_ r = None) l.
Proof.
  apply insertion_sort_filter. intros a b Ha Hb. by rewrite Ha, Hb.
Qed.

Lemma stable_sort_values_ties R (by_ : R -> option Q) (l : list R) (v : Q) :
  filter (fun r => key_equal v (by_ r)) (stable_sort_values R by_ l)
    = filter (fun r => key_equal v (by_ r)) l.
Proof.
  apply insertion_sort_filter. intros a b Ha Hb.
  destruct (by_ a) as [x|], (by_ b) as [y|]; simpl in *; try done.
  apply Qle_bool_iff. rewrite Ha, Hb. apply Qle_refl.
Qed.

Definition stable_pandas : pandas :=
  {| sort_values := stable_sort_values;
     sort_values_Permutation R by_ l := insertion_sort_Permutation _ l;
     sort_values_Sorted := stable_sort_values_Sorted;
     sort_values_missing := stable_sort_values_missing;
     sort_values_short R by_ l v _ := stable_sort_values_ties R by_ l v |}.

(** ** A concrete world for examples

    Regions are axis-parallel boxes [(lon0, lat0, lon1, lat1)] and a point is
    contained when it lies strictly inside. *)

Definition box : Type := Q * Q * Q * Q.

Definition box_contains (b : box) (lon lat : Q) : bool :=
  let '(lon0, lat0, lon1, lat1) := b in
  Qltb lon0 lon && Qltb lon lon1 && Qltb lat0 lat && Qltb lat lat1.

Definition region (n : string) (b : box) : OneMapClient.area box :=
  {| OneMapClient.name := Some n; OneMapClient.geometry := b |}.

(** Every request fails. *)
Definition offline : nat -> OneMapClient.response box :=
  fun _ => OneMapClient.RequestFailed.

(** A client whose cache holds two overlapping regions, ["WEST"] loaded
    first. *)
Definition two_regions : OneMapClient.t box :=
  {| OneMapClient.planning_areas :=
       [region "WEST" (0, 0, 2, 2); region "EAST" (1, 0, 3, 2)];
     OneMapClient.requests := 1 |}.

(** ** onemap_client.py: the cache *)

Section OneMapClientFacts.

Variable Geometry : Type.
Variable contains : Geometry -> Q -> Q -> bool.
Variable network : nat -> OneMapClient.response Geometry.

Abbreviation client := (OneMapClient.t Geometry).
Abbreviation load := (OneMapClient.load_planning_areas Geometry network).
Abbreviation resolve := (OneMapClient.get_planning_area Geometry contains network).

Lemma nonempty_true {A} (l : list A) : l <> [] -> nonempty l = true.
Proof. by destruct l. Qed.

Lemma nonempty_false {A} (l : list A) : nonempty l = false -> l = [].
Proof. by destruct l. Qed.

Lemma load_cached (self : client) :
  OneMapClient.planning_areas self <> [] -> load self = (Returned tt, self).
Proof.
  intros H. unfold OneMapClient.load_planning_areas.
  by rewrite (nonempty_true _ H).
Qed.

(** Where the loop of [get_planning_area] ends: at the first area that
    contains the point, whose name (a string or [None]) it returns, or
    behind the last area, with [None]. *)
Definition first_match (areas : list (OneMapClient.area Geometry)) (lat lon : Q)
    (result : option string) : Prop :=
  (exists before a after,
      areas = before ++ a :: after /\
      Forall (fun b => contains (OneMapClient.geometry b) lon lat = false) before /\
      contains (OneMapClient.geometry a) lon lat = true /\
      result = OneMapClient.name a) \/
  (Forall (fun b => contains (OneMapClient.geometry b) lon lat = false) areas /\
   result = None).

Lemma first_containing_spec (areas : list (OneMapClient.area Geometry)) (lat lon : Q) :
  first_match areas lat lon (OneMapClient.first_containing Geometry contains areas lat lon).
Proof.
  unfold first_match. induction areas as [|a areas IH]; simpl.
  - right. by split.
  - destruct (contains (OneMapClient.geometry a) lon lat) eqn:E.
    + left. exists [], a, areas. by repeat split.
    + destruct IH as [(before & a' & after & -> & Hb & Ha & Hn)|[Hall Hn]].
      * left. exists (a :: before), a', after. repeat split; try done.
        by constructor.
      * right. split; [by constructor|done].
Qed.

Lemma resolve_cached (self : client) (lat lon : Q) :
  OneMapClient.planning_areas self <> [] ->
  resolve self lat lon =
    (Returned (OneMapClient.first_containing Geometry contains
                 (OneMapClient.planning_areas self) lat lon), self).
Proof.
  intros H. unfold OneMapClient.get_planning_area.
  by rewrite (nonempty_true _ H).
Qed.

(** C9.  [load_planning_areas] fills the cache once: called while a
    non-empty set of planning areas is cached it returns without a request
    and leaves the client as it is, whatever the network would answer, and
    no number of further calls replaces the cached set. *)
Theorem load_planning_areas_keeps_cache (self : client) (n : nat) :
OneMapClient.planning_areas self <> [] ->
  OneMapClient.load_planning_areas Geometry network self = (Returned tt, self) /\
  Nat.iter n (fun c => (OneMapClient.load_planning_areas Geometry network c).2) self
    = self.
Proof.
  intros H. split; [by apply load_cached|].
  induction n as [|n IH]; simpl; [done|].
  rewrite IH. by rewrite load_cached.
Qed.

(** C6, amended.  With a non-empty cache, [get_planning_area] returns the
    name of the first cached area, in load order, whose geometry contains
    the point (the name is [None] where the payload had a null), returns
    [None] (and raises nothing) when no cached area contains it, and leaves
    the client unchanged, so that a repeated call gives the same answer. *)
Theorem get_planning_area_first_match (self : client) (lat lon : Q) :
  OneMapClient.planning_areas self <> [] ->
  exists result,
    OneMapClient.get_planning_area Geometry contains network self lat lon
      = (Returned result, self) /\
    (OneMapClient.get_planning_area Geometry contains network self lat lon).2 = self /\
    OneMapClient.get_planning_area Geometry contains network
      (OneMapClient.get_planning_area Geometry contains network self lat lon).2 lat lon
       = (Returned result, self) /\
    ((exists before a after,
         OneMapClient.planning_areas self = before ++ a :: after /\
         Forall (fun b => contains (OneMapClient.geometry b) lon lat = false) before /\
         contains (OneMapClient.geometry a) lon lat = true /\
         result = OneMapClient.name a) \/
     (Forall (fun b => contains (OneMapClient.geometry b) lon lat = false)
        (OneMapClient.planning_areas self) /\
      result = None)).
Proof.
  intros H.
  exists (OneMapClient.first_containing Geometry contains
            (OneMapClient.planning_areas self) lat lon).
  rewrite resolve_cached by done. simpl. rewrite resolve_cached by done.
  repeat split. apply first_containing_spec.
Qed.

End OneMapClientFacts.

Lemma load_planning_areas_keeps_cache_witness :
  OneMapClient.planning_areas two_regions <> [] /\
  OneMapClient.load_planning_areas box offline two_regions = (Returned tt, two_regions) /\
  Nat.iter 3 (fun c => (OneMapClient.load_planning_areas box offline c).2) two_regions
    = two_regions.
Proof.
  split; [done|].
  apply (load_planning_areas_keeps_cache box offline two_regions 3). done.
Defined.

Lemma get_planning_area_first_match_witness :
  OneMapClient.planning_areas two_regions <> [] /\
  OneMapClient.get_planning_area box box_contains offline two_regions 1 (3 # 2)
    = (Returned (Some "WEST"), two_regions).
Proof.
  split; [done|].
  destruct (get_planning_area_first_match box box_contains offline two_regions 1 (3 # 2))
    as (result & Hcall & _); [done|].
  rewrite Hcall. vm_compute in Hcall. by injection Hcall as <-.
Defined.

(** C6 as stated fails on an empty cache: no cached polygon contains the
    point, yet the call goes to the network and the failed request is raised
    to the caller instead of [None] being returned. *)
Lemma get_planning_area_empty_cache_raises :
  Forall (fun b => box_contains (OneMapClient.geometry b) 0 0 = false)
    (OneMapClient.planning_areas (OneMapClient.init (Geometry := box))) /\
  OneMapClient.get_planning_area box box_contains offline OneMapClient.init 0 0
    = (Raised RequestException,
       {| OneMapClient.planning_areas := []; OneMapClient.requests := 1 |}).
Proof. split; [constructor|reflexivity]. Qed.

(** ** trigger_rules_enhanced.py: the decision lists *)

(** A decision list over booleans, the shape of an [if]/[elif] chain. *)
Fixpoint decide_list {V} (rules : list (bool * V)) (otherwise : V) : V :=
  match rules with
  | [] => otherwise
  | (b, v) :: rest => if b then v else decide_list rest otherwise
  end.

Lemma decide_list_first_match {V} (tests : list (bool * V)) (rules : list (Prop * V))
    (otherwise : V) :
  Forall2 (fun t r => (t.1 = true <-> r.1) /\ t.2 = r.2) tests rules ->
  Spec.first_match rules otherwise (decide_list tests otherwise).
Proof.
  induction 1 as [|[b v] [P w] tests rules [Hb Hv] _ IH]; simpl in *.
  - constructor.
  - subst w. destruct b.
    + apply Spec.rule_fires. by apply Hb.
    + apply Spec.rule_skipped; [|done]. intros HP. by apply Hb in HP.
Qed.

Lemma Qleb_le (x y : Q) : Qleb x y = true <-> x <= y.
Proof. apply Qle_bool_iff. Qed.

Lemma Qltb_lt (x y : Q) : Qltb x y = true <-> x < y.
Proof.
  unfold Qltb. rewrite negb_true_iff. split.
  - intros H. apply Qnot_le_lt. intros Hle. apply Qle_bool_iff in Hle. congruence.
  - intros H. destruct (Qle_bool y x) eqn:E; [|done].
    apply Qle_bool_iff in E. by apply Qle_not_lt in E.
Qed.

Lemma lt_float_below (green : option Q) (c : Q) :
  lt_float green c = true <-> Spec.below green c.
Proof.
  unfold Spec.below. destruct green as [g|]; simpl.
  - rewrite Qltb_lt. split; [by exists g|]. by intros (g' & [= <-] & H).
  - split; [done|]. by intros (g' & [=] & _).
Qed.

Lemma is_density_eq (density : option string) (label : string) :
  EnhancedTriggerRules.is_density density label = true <-> density = Some label.
Proof.
  destruct density as [d|]; simpl; [|done].
  rewrite String.eqb_eq. split; congruence.
Qed.

Section RuleEngine.

Import EnhancedTriggerRules.

(** The priorities of a triggered finding. *)
Definition alert (p : string) : Prop :=
  p = "CRITICAL" \/ p = "HIGH" \/ p = "MEDIUM" \/ p = "LOW".

Lemma measurement_decision_list (area : string) (temp : Q)
    (green : option Q) (density : option string) :
  exists v,
    Spec.first_match (Spec.measurement_branch temp green density)
      Spec.measurement_otherwise v /\
    Spec.agrees (_evaluate_with_temperature area temp green density) v.
Proof.
  exists (decide_list
            [ (Qleb TEMP_CRITICAL temp && lt_float green GREEN_CRITICAL
               && is_density density "Commercial", ("CRITICAL", None));
              (Qleb TEMP_HIGH temp && lt_float green GREEN_LOW, ("HIGH", None));
              (Qleb TEMP_CRITICAL temp, ("HIGH", None));
              (Qleb TEMP_HIGH temp && is_density density "Commercial"
               && lt_float green GREEN_CRITICAL, ("MEDIUM", None));
              (Qleb TEMP_HIGH temp && is_density density "Residential"
               && lt_float green GREEN_LOW, ("MEDIUM", None)) ]
            Spec.measurement_otherwise).
  split.
  - apply decide_list_first_match.
    repeat (constructor; [split; [|reflexivity]|]); [..|constructor]; simpl;
      rewrite ?andb_true_iff, ?Qleb_le, ?lt_float_below, ?is_density_eq;
      change Spec.TEMP_CRITICAL with TEMP_CRITICAL;
      change Spec.TEMP_HIGH with TEMP_HIGH;
      change Spec.GREEN_CRITICAL with GREEN_CRITICAL;
      change Spec.GREEN_LOW with GREEN_LOW; tauto.
  - unfold _evaluate_with_temperature, Spec.agrees. simpl.
    destruct (Qleb TEMP_CRITICAL temp), (Qleb TEMP_HIGH temp),
      (lt_float green GREEN_CRITICAL), (lt_float green GREEN_LOW),
      (is_density density "Commercial"), (is_density density "Residential");
      simpl; split; try done; by intros b [= <-].
Qed.

Lemma inference_decision_list (area : string)
    (green : option Q) (density : option string) :
  exists v,
    Spec.first_match (Spec.inference_branch green density)
      Spec.inference_otherwise v /\
    Spec.agrees (_infer_from_context area green density) v.
Proof.
  exists (decide_list
            [ (is_density density "Commercial" && lt_float green GREEN_CRITICAL,
               ("MEDIUM", Some true));
              (lt_float green GREEN_CRITICAL, ("MEDIUM", Some true));
              (is_density density "Residential" && lt_float green GREEN_LOW,
               ("LOW", Some true)) ]
            Spec.inference_otherwise).
  split.
  - apply decide_list_first_match.
    repeat (constructor; [split; [|reflexivity]|]); [..|constructor]; simpl;
      rewrite ?andb_true_iff, ?lt_float_below, ?is_density_eq;
      change Spec.GREEN_CRITICAL with GREEN_CRITICAL;
      change Spec.GREEN_LOW with GREEN_LOW; tauto.
  - unfold _infer_from_context, Spec.agrees. simpl.
    destruct (lt_float green GREEN_CRITICAL), (lt_float green GREEN_LOW),
      (is_density density "Commercial"), (is_density density "Residential");
      simpl; split; try done; by intros b [= <-].
Qed.

(** The first row of a region that occurs in the table. *)
Lemma first_row_of (rows : list unified) (area : string) :
  Some area ∈ map DataFusion.planning_area rows ->
  exists before row after,
    rows = before ++ row :: after /\
    DataFusion.planning_area row = Some area /\
    (Some area ∉ map DataFusion.planning_area before) /\
    filter (fun r => same_area (DataFusion.planning_area r) (Some area)) rows
      = row :: filter (fun r => same_area (DataFusion.planning_area r) (Some area)) after.
Proof.
  induction rows as [|r rows IH]; simpl.
  - by intros ?%elem_of_nil.
  - intros Hin.
    destruct (decide (DataFusion.planning_area r = Some area)) as [Heq|Hne].
    + exists [], r, rows. repeat split; try done.
      * simpl. apply not_elem_of_nil.
      * rewrite filter_cons_True; [done|]. by split.
    + apply elem_of_cons in Hin as [Heq|Hin]; [done|].
      destruct (IH Hin) as (before & row & after & -> & Hrow & Hbefore & Hfilter).
      exists (r :: before), row, after. repeat split; try done.
      * simpl. by apply not_elem_of_cons.
      * rewrite filter_cons_False; [done|]. by intros [_ ?].
Qed.

(** A name that is not in the table selects no row, and neither does the
    missing value, whatever the table holds. *)
Lemma no_row_of (rows : list unified) (area : option string) :
  ~ (is_Some area /\ area ∈ map DataFusion.planning_area rows) ->
  filter (fun r => same_area (DataFusion.planning_area r) area) rows = [].
Proof.
  intros Hno. induction rows as [|r rows IH]; simpl; [done|].
  rewrite filter_cons_False.
  - apply IH. intros [Hsome Hin]. apply Hno. split; [done|].
    simpl. apply elem_of_cons. by right.
  - intros [Hsome Heq]. apply Hno. split; [done|].
    simpl. apply elem_of_cons. by left.
Qed.

(** What [evaluate_area] computes from the row it selected. *)
Definition evaluate_row (area : string) (row : unified) : finding :=
  match DataFusion.avg_temperature row with
  | Some t =>
      _evaluate_with_temperature area t
        (DataFusion.green_ratio row) (DataFusion.density_type row)
  | None =>
      _infer_from_context area
        (DataFusion.green_ratio row) (DataFusion.density_type row)
  end.

Lemma evaluate_area_present (rows : list unified) (area : string) :
  Some area ∈ map DataFusion.planning_area rows ->
  exists before row after,
    rows = before ++ row :: after /\
    DataFusion.planning_area row = Some area /\
    (Some area ∉ map DataFusion.planning_area before) /\
    evaluate_area (Frame rows) (Some area) = Returned (evaluate_row area row).
Proof.
  intros Hin.
  destruct (first_row_of rows area Hin) as (before & row & after & Hrows & Hrow & Hb & Hf).
  exists before, row, after. repeat split; try done.
  unfold evaluate_area, evaluate_row. simpl. rewrite Hf.
  by destruct (DataFusion.avg_temperature row).
Qed.

Lemma evaluate_area_absent (rows : list unified) (area : option string) :
  ~ (is_Some area /\ area ∈ map DataFusion.planning_area rows) ->
  evaluate_area (Frame rows) area
    = Returned {| trigger := false; reason_ := not_found area;
                  priority := "N/A"; details_ := None |}.
Proof.
  intros Hin. unfold evaluate_area. simpl. by rewrite no_row_of.
Qed.

(** The two cases of a lookup in a table that has its columns. *)
Lemma evaluate_area_cases (rows : list unified) (area : option string) :
  (exists n row, area = Some n /\ row ∈ rows /\
                 DataFusion.planning_area row = Some n /\
                 evaluate_area (Frame rows) area = Returned (evaluate_row n row)) \/
  (~ (is_Some area /\ area ∈ map DataFusion.planning_area rows) /\
   evaluate_area (Frame rows) area
     = Returned {| trigger := false; reason_ := not_found area;
                   priority := "N/A"; details_ := None |}).
Proof.
  destruct (decide (is_Some area /\ area ∈ map DataFusion.planning_area rows))
    as [[[n ->] Hin]|Hno].
  - left. destruct (evaluate_area_present rows n Hin)
      as (before & row & after & -> & Hrow & _ & Heval).
    exists n, row. split; [done|]. split; [|done].
    apply elem_of_app. right. apply elem_of_cons. by left.
  - right. split; [done|]. by apply evaluate_area_absent.
Qed.

(** C1.  For a region present in the fused table, [evaluate_area] decides
    on the first row of that region, and its finding is the verdict of the
    specification's ordered decision list for that row: the measurement
    branch when [avg_temperature] is present, the inference branch when it
    is absent, the first matching rule winning in each. *)
Theorem evaluate_area_decision_list (rows : list unified) (area : string) :
  Some area ∈ map DataFusion.planning_area rows ->
  exists before row after f v,
    rows = before ++ row :: after /\
    DataFusion.planning_area row = Some area /\
    (Some area ∉ map DataFusion.planning_area before) /\
    evaluate_area (Frame rows) (Some area) = Returned f /\
    Spec.evaluation row v /\
    Spec.agrees f v.
Proof.
  intros Hin.
  destruct (evaluate_area_present rows area Hin)
    as (before & row & after & Hrows & Hrow & Hb & Heval).
  unfold evaluate_row in Heval.
  destruct (DataFusion.avg_temperature row) as [temp|] eqn:Htemp.
  - destruct (measurement_decision_list area temp
                (DataFusion.green_ratio row) (DataFusion.density_type row))
      as (v & Hv & Hagree).
    exists before, row, after. eexists. exists v.
    unfold Spec.evaluation. by rewrite Htemp.
  - destruct (inference_decision_list area
                (DataFusion.green_ratio row) (DataFusion.density_type row))
      as (v & Hv & Hagree).
    exists before, row, after. eexists. exists v.
    unfold Spec.evaluation. by rewrite Htemp.
Qed.

End RuleEngine.

(** ** trigger_rules_enhanced.py: findings *)

Section Findings.

Import EnhancedTriggerRules.

(** A well-formed finding: triggered exactly on an alert priority, and
    carrying its details when triggered. *)
Definition consistent (f : finding) : Prop :=
  (trigger f = true <-> alert (priority f)) /\
  (trigger f = true -> is_Some (details_ f)).

Ltac solve_consistent :=
  simpl; split;
  [ split;
    [ let H := fresh in intros H; first [discriminate H | auto 6]
    | let H := fresh in
      intros [H | [H | [H | H]]]; first [reflexivity | discriminate H] ]
  | let H := fresh in intros H; first [discriminate H | by eexists] ].

Lemma alert_excludes (p : string) : alert p -> p <> "NORMAL" /\ p <> "N/A".
Proof. by intros [-> | [-> | [-> | ->]]]. Qed.

Lemma consistent_with_temperature area temp green density :
  consistent (_evaluate_with_temperature area temp green density).
Proof.
  unfold consistent, _evaluate_with_temperature, alert.
  destruct (Qleb TEMP_CRITICAL temp), (Qleb TEMP_HIGH temp),
    (lt_float green GREEN_CRITICAL), (lt_float green GREEN_LOW),
    (is_density density "Commercial"), (is_density density "Residential");
    solve_consistent.
Qed.

Lemma consistent_from_context area green density :
  consistent (_infer_from_context area green density).
Proof.
  unfold consistent, _infer_from_context, alert.
  destruct (lt_float green GREEN_CRITICAL), (lt_float green GREEN_LOW),
    (is_density density "Commercial"), (is_density density "Residential");
    solve_consistent.
Qed.

Lemma consistent_row area row : consistent (evaluate_row area row).
Proof.
  unfold evaluate_row. destruct (DataFusion.avg_temperature row).
  - apply consistent_with_temperature.
  - apply consistent_from_context.
Qed.

Lemma evaluate_area_consistent df area f :
  evaluate_area df area = Returned f -> consistent f.
Proof.
  destruct df as [|rows]; [done|].
  destruct (evaluate_area_cases rows area) as [(n & row & _ & _ & _ & ->)|[_ ->]].
  - intros [= <-]. apply consistent_row.
  - intros [= <-]. unfold consistent, alert. solve_consistent.
Qed.

(** The loop of [evaluate_all] only looks up regions of the table, so it
    never raises. *)
Lemma evaluate_rows_consistent (table rows : list unified) :
  exists results,
    evaluate_rows (Frame table) rows = Returned results /\
    Forall consistent results.
Proof.
  induction rows as [|row rows (results & Hrows & Hall)]; simpl.
  - by exists [].
  - destruct (evaluate_area (Frame table) (DataFusion.planning_area row))
      as [f|e] eqn:Hf.
    + rewrite Hrows. exists (f :: results). split; [done|].
      constructor; [|done]. by eapply evaluate_area_consistent.
    + destruct (evaluate_area_cases table (DataFusion.planning_area row))
        as [(? & ? & _ & _ & _ & H)|[_ H]]; congruence.
Qed.

Lemma evaluate_all_consistent (df : DataFrame unified) :
  exists results, evaluate_all df = Returned results /\ Forall consistent results.
Proof.
  unfold evaluate_all. destruct df as [|table]; simpl.
  - by exists [].
  - destruct (evaluate_rows_consistent table table) as (results & -> & Hall).
    eexists. split; [done|].
    by rewrite insertion_sort_Permutation.
Qed.

Lemma triggered_entries_alert (rs : list finding) :
  Forall (fun f => consistent f /\ trigger f = true) rs ->
  exists rows,
    triggered_entries rs = Returned rows /\
    Forall (fun r => alert (t_priority r)) rows.
Proof.
  induction 1 as [|f rs [[Halert Hdetails] Htrigger] _ (rows & Hrows & Hall)]; simpl.
  - by exists [].
  - unfold triggered_entry.
    destruct (Hdetails Htrigger) as [d ->]. rewrite Hrows.
    eexists. split; [done|]. constructor; [|done]. simpl. by apply Halert.
Qed.

(** On a table that has its columns, a region that is not in the table
    gets the not-found finding, whose priority is the literal 'N/A'. *)
Lemma evaluate_area_not_found (rows : list unified) (area : string) :
  Some area ∉ map DataFusion.planning_area rows ->
  exists f,
    evaluate_area (Frame rows) (Some area) = Returned f /\
    priority f = "N/A" /\ trigger f = false.
Proof.
  intros H. rewrite evaluate_area_absent by (by intros [_ ?]). by eexists.
Qed.

(** C2, at the input where the code fails.  The column-less frame is what
    [get_unified_dataset] returns when there is no context data.  No region
    is in that table, and the lookup of any region raises [KeyError] before
    the not-found guard is reached. *)
Theorem evaluate_area_empty_frame_raises (area : string) :
  (Some area ∉ map DataFusion.planning_area (rows_of (Empty_DataFrame (R := unified)))) /\
  evaluate_area Empty_DataFrame (Some area) = Raised (KeyError "planning_area").
Proof. split; [apply not_elem_of_nil|done]. Qed.

(** C10.  Every finding that [evaluate_area] returns, from the temperature
    rules, from the context inference or for a region that was not found,
    has [trigger] true exactly when its priority is CRITICAL, HIGH, MEDIUM
    or LOW; and [get_triggered_areas] returns a frame whose rows all carry
    one of these priorities, hence neither NORMAL nor 'N/A'. *)
Theorem trigger_iff_alert_priority (df : DataFrame unified) :
  (forall area f,
      evaluate_area df area = Returned f ->
      (trigger f = true <-> alert (priority f)) /\
      (priority f = "NORMAL" \/ priority f = "N/A" -> trigger f = false)) /\
  (exists view,
      get_triggered_areas df = Returned view /\
      Forall (fun r => alert (t_priority r) /\
                       t_priority r <> "NORMAL" /\ t_priority r <> "N/A")
        (rows_of view)).
Proof.
  split.
  - intros area f Hf. apply evaluate_area_consistent in Hf as [Hiff _].
    split; [done|]. intros Hp.
    destruct (trigger f); [|done].
    destruct (alert_excludes (priority f)); [by apply Hiff|]. by destruct Hp.
  - unfold get_triggered_areas.
    destruct (evaluate_all_consistent df) as (results & -> & Hall).
    destruct (nonempty _) eqn:Hne; simpl; [|by exists Empty_DataFrame].
    destruct (triggered_entries_alert (filter (fun r => trigger r = true) results))
      as (rows & -> & Hrows).
    { apply Forall_forall. intros f [Htrigger Hf]%list_elem_of_filter.
      split; [|done]. rewrite Forall_forall in Hall. by apply Hall. }
    exists (Frame rows). split; [done|]. simpl.
    eapply Forall_impl; [exact Hrows|].
    intros r Hr. split; [done|]. by apply alert_excludes.
Qed.

End Findings.

(** A fused table of three regions: a hot commercial one, one without a
    temperature, and one under normal conditions. *)
Definition sample_table : list DataFusion.unified :=
  [ {| DataFusion.planning_area := Some "DOWNTOWN CORE";
       DataFusion.avg_temperature := Some (31 # 1);
       DataFusion.green_ratio := Some (5 # 100);
       DataFusion.density_type := Some "Commercial" |};
    {| DataFusion.planning_area := Some "BEDOK";
       DataFusion.avg_temperature := None;
       DataFusion.green_ratio := Some (15 # 100);
       DataFusion.density_type := Some "Residential" |};
    {| DataFusion.planning_area := Some "TENGAH";
       DataFusion.avg_temperature := Some (28 # 1);
       DataFusion.green_ratio := Some (5 # 10);
       DataFusion.density_type := Some "Residential" |} ].

Lemma evaluate_area_decision_list_witness :
  Some "BEDOK" ∈ map DataFusion.planning_area sample_table /\
  exists f,
    EnhancedTriggerRules.evaluate_area (Frame sample_table) (Some "BEDOK") = Returned f /\
    EnhancedTriggerRules.priority f = "LOW" /\
    EnhancedTriggerRules.trigger f = true.
Proof.
  assert (Hin : Some "BEDOK" ∈ map DataFusion.planning_area sample_table).
  { simpl. rewrite !elem_of_cons. auto. }
  split; [exact Hin|].
  destruct (evaluate_area_decision_list sample_table "BEDOK" Hin)
    as (_ & _ & _ & f & _ & _ & _ & _ & Hf & _).
  exists f. split; [exact Hf|].
  vm_compute in Hf. by injection Hf as <-.
Defined.

(** ** Rounding *)

Section Rounding.

(** ** Facts about [round_half_even] *)

Lemma round_half_even_close (n : Z) (d : positive) :
  (2 * Z.abs (round_half_even (n # d) * Zpos d - n) <= Zpos d)%Z.
Proof.
  unfold round_half_even. simpl.
  pose proof (Z.div_mod n (Zpos d) ltac:(done)) as Hn.
  pose proof (Z.mod_pos_bound n (Zpos d) ltac:(done)) as Hr.
  destruct (Z.compare_spec (2 * (n mod Zpos d)) (Zpos d)) as [He|Hlt|Hgt].
  - destruct (Z.even (n / Zpos d)); lia.
  - lia.
  - lia.
Qed.

Lemma round_half_even_tie (n : Z) (d : positive) :
  (2 * Z.abs (round_half_even (n # d) * Zpos d - n) = Zpos d)%Z ->
  Z.even (round_half_even (n # d)) = true.
Proof.
  unfold round_half_even. simpl.
  pose proof (Z.div_mod n (Zpos d) ltac:(done)) as Hn.
  pose proof (Z.mod_pos_bound n (Zpos d) ltac:(done)) as Hr.
  destruct (Z.compare_spec (2 * (n mod Zpos d)) (Zpos d)) as [He|Hlt|Hgt].
  - destruct (Z.even (n / Zpos d)) eqn:Heven; [done|]. intros _.
    by rewrite Z.add_1_r, Z.even_succ, <- Z.negb_even, Heven.
  - lia.
  - lia.
Qed.

(** The nearest integer, with the even one at a tie, is unique. *)
Lemma round_half_even_unique (n : Z) (d : positive) (z : Z) :
  (2 * Z.abs (z * Zpos d - n) <= Zpos d)%Z ->
  ((2 * Z.abs (z * Zpos d - n) = Zpos d)%Z -> Z.even z = true) ->
  round_half_even (n # d) = z.
Proof.
  intros Hz Tz.
  pose proof (round_half_even_close n d) as Hx.
  pose proof (round_half_even_tie n d) as Tx.
  set (a := round_half_even (n # d)) in *.
  destruct (Z.lt_trichotomy a z) as [Hlt|[Heq|Hgt]]; [|done|]; exfalso.
  - assert (z = a + 1)%Z as Hza by nia.
    assert (Z.even a = true) as Ha by (apply Tx; nia).
    assert (Z.even z = true) as Hb by (apply Tz; nia).
    rewrite Hza, Z.add_1_r, Z.even_succ, <- Z.negb_even, Ha in Hb. done.
  - assert (a = z + 1)%Z as Hza by nia.
    assert (Z.even a = true) as Ha by (apply Tx; nia).
    assert (Z.even z = true) as Hb by (apply Tz; nia).
    rewrite Hza, Z.add_1_r, Z.even_succ, <- Z.negb_even, Hb in Ha. done.
Qed.

Lemma round_half_even_mono (x y : Q) :
  x <= y -> (round_half_even x <= round_half_even y)%Z.
Proof.
  destruct x as [nx dx], y as [ny dy]. unfold Qle. simpl. intros Hxy.
  pose proof (round_half_even_close nx dx) as Hx.
  pose proof (round_half_even_close ny dy) as Hy.
  pose proof (round_half_even_tie nx dx) as Tx.
  pose proof (round_half_even_tie ny dy) as Ty.
  set (a := round_half_even (nx # dx)) in *.
  set (b := round_half_even (ny # dy)) in *.
  destruct (Z_le_gt_dec a b) as [|Hgt]; [done|]. exfalso.
  assert (2 * a * Zpos dx * Zpos dy <= 2 * b * Zpos dx * Zpos dy
                                        + 2 * Zpos dx * Zpos dy)%Z as Hbound by nia.
  assert (a = b + 1)%Z as Hab by nia.
  assert (Z.even a = true) as Ha by (apply Tx; nia).
  assert (Z.even b = true) as Hb by (apply Ty; nia).
  rewrite Hab, Z.add_1_r, Z.even_succ, <- Z.negb_even, Hb in Ha. done.
Qed.

#[global] Instance round_half_even_proper : Proper (Qeq ==> eq) round_half_even.
Proof.
  intros x y Hxy. apply Z.le_antisymm; apply round_half_even_mono; rewrite Hxy;
    apply Qle_refl.
Qed.

Lemma round_half_even_integer (z : Z) : round_half_even (inject_Z z) = z.
Proof.
  apply round_half_even_unique; [lia|]. intros H. lia.
Qed.

Lemma round_half_even_opp (x : Q) : round_half_even (- x) = (- round_half_even x)%Z.
Proof.
  destruct x as [n d]. change (- (n # d)) with ((- n) # d).
  pose proof (round_half_even_close n d) as Hx.
  pose proof (round_half_even_tie n d) as Tx.
  apply round_half_even_unique.
  - replace (- round_half_even (n # d) * Z.pos d - - n)%Z
      with (- (round_half_even (n # d) * Z.pos d - n))%Z by ring.
    by rewrite Z.abs_opp.
  - replace (- round_half_even (n # d) * Z.pos d - - n)%Z
      with (- (round_half_even (n # d) * Z.pos d - n))%Z by ring.
    rewrite Z.abs_opp, Z.even_opp. exact Tx.
Qed.

(** Within one half of the number. *)
Lemma round_half_even_error (x : Q) :
  Qabs (inject_Z (round_half_even x) - x) <= 1 # 2.
Proof.
  destruct x as [n d]. pose proof (round_half_even_close n d) as H.
  set (z := round_half_even (n # d)) in *.
  unfold Qminus, Qplus, Qopp, inject_Z, Qabs, Qle. simpl.
  rewrite Z.mul_1_l. replace (z * Z.pos d + - n * 1)%Z with (z * Z.pos d - n)%Z by ring.
  lia.
Qed.

(** ** Powers of two *)

Lemma pow2_pos (k : Z) : 0 < pow2 k.
Proof. by apply Qpower_0_lt. Qed.

Lemma pow2_add (a b : Z) : pow2 (a + b) == pow2 a * pow2 b.
Proof. by apply Qpower_plus. Qed.

Lemma pow2_le (a b : Z) : (a <= b)%Z -> pow2 a <= pow2 b.
Proof. intros H. by apply Qpower_le_compat_l. Qed.

Lemma pow2_lt (a b : Z) : (a < b)%Z -> pow2 a < pow2 b.
Proof. intros H. by apply Qpower_lt_compat_l. Qed.

Lemma pow2_nonneg_exponent (k : Z) : (0 <= k)%Z -> pow2 k == inject_Z (2 ^ k).
Proof. intros H. unfold pow2. by rewrite Zpower_Qpower. Qed.

Lemma pow2_sub (a b : Z) : pow2 (a - b) == pow2 a / pow2 b.
Proof.
  unfold Z.sub. rewrite pow2_add. unfold pow2. by rewrite Qpower_opp.
Qed.

(** ** The binade of a number *)

Lemma ilog2_spec (x : Q) :
  ~ x == 0 -> pow2 (ilog2 x) <= Qabs x /\ Qabs x < pow2 (ilog2 x + 1).
Proof.
  intros Hx. unfold ilog2.
  set (n := Z.abs (Qnum x)). set (d := Qden x).
  assert (0 < n)%Z as Hn.
  { unfold n. destruct x as [m e]. unfold Qeq in Hx. simpl in *. lia. }
  set (a := Z.log2 n). set (b := Z.log2 (Zpos d)).
  destruct (Z.log2_spec n Hn) as [Ha1 Ha2]. fold a in Ha1, Ha2.
  destruct (Z.log2_spec (Zpos d) ltac:(done)) as [Hb1 Hb2]. fold b in Hb1, Hb2.
  assert (0 <= a)%Z as Ha0 by apply Z.log2_nonneg.
  assert (0 <= b)%Z as Hb0 by apply Z.log2_nonneg.
  assert (Habs : Qabs x = n # d) by (by destruct x).
  assert (Hlow : pow2 (a - b - 1) <= Qabs x).
  { replace (a - b - 1)%Z with (a - Z.succ b)%Z by lia.
    rewrite pow2_sub, !pow2_nonneg_exponent by lia. rewrite Habs.
    apply Qle_shift_div_r.
    { change 0 with (inject_Z 0). rewrite <- Zlt_Qlt. lia. }
    unfold Qle, Qmult, inject_Z. simpl. nia. }
  assert (Hhigh : Qabs x < pow2 (a - b + 1)).
  { replace (a - b + 1)%Z with (Z.succ a - b)%Z by lia.
    rewrite pow2_sub, !pow2_nonneg_exponent by lia. rewrite Habs.
    apply Qlt_shift_div_l.
    { change 0 with (inject_Z 0). rewrite <- Zlt_Qlt. lia. }
    unfold Qlt, Qmult, inject_Z. simpl. nia. }
  destruct (Qltb (Qabs x) (pow2 (a - b))) eqn:E.
  - split; [done|]. replace (a - b - 1 + 1)%Z with (a - b)%Z by lia.
    unfold Qltb in E. apply negb_true_iff in E.
    apply Qnot_le_lt. intros H. apply Qle_bool_iff in H. congruence.
  - split; [|done]. unfold Qltb in E. apply negb_false_iff in E.
    by apply Qle_bool_iff in E.
Qed.

Lemma ilog2_unique (x : Q) (e : Z) :
  pow2 e <= Qabs x -> Qabs x < pow2 (e + 1) -> ilog2 x = e.
Proof.
  intros Hlo Hhi.
  assert (~ x == 0) as Hx.
  { intros H. rewrite H in Hlo. pose proof (pow2_pos e) as Hp.
    apply (Qlt_irrefl 0). by apply Qlt_le_trans with (pow2 e). }
  destruct (ilog2_spec x Hx) as [Hlo' Hhi'].
  destruct (Z.lt_trichotomy (ilog2 x) e) as [Hlt|[Heq|Hgt]]; [|done|]; exfalso.
  - apply (Qlt_irrefl (Qabs x)). apply Qlt_le_trans with (pow2 (ilog2 x + 1)); [done|].
    apply Qle_trans with (pow2 e); [|done]. apply pow2_le. lia.
  - apply (Qlt_irrefl (Qabs x)). apply Qlt_le_trans with (pow2 (e + 1)); [done|].
    apply Qle_trans with (pow2 (ilog2 x)); [|done]. apply pow2_le. lia.
Qed.

Lemma Qabs_nonzero (x : Q) : ~ x == 0 -> 0 < Qabs x.
Proof.
  intros Hx. destruct (ilog2_spec x Hx) as [Hlo _].
  apply Qlt_le_trans with (pow2 (ilog2 x)); [apply pow2_pos|done].
Qed.

Lemma ilog2_mono (x y : Q) :
  ~ x == 0 -> Qabs x <= Qabs y -> (ilog2 x <= ilog2 y)%Z.
Proof.
  intros Hx Hxy.
  assert (~ y == 0) as Hy.
  { intros H. rewrite H in Hxy. pose proof (Qabs_nonzero x Hx) as Hp.
    apply (Qlt_irrefl 0). by apply Qlt_le_trans with (Qabs x). }
  destruct (ilog2_spec x Hx) as [Hlo _]. destruct (ilog2_spec y Hy) as [_ Hhi].
  destruct (Z_le_gt_dec (ilog2 x) (ilog2 y)) as [|Hgt]; [done|]. exfalso.
  apply (Qlt_irrefl (Qabs y)). apply Qlt_le_trans with (pow2 (ilog2 y + 1)); [done|].
  apply Qle_trans with (pow2 (ilog2 x)); [apply pow2_le; lia|].
  by apply Qle_trans with (Qabs x).
Qed.

(** ** Rounding to the multiples of [2^k] *)

Lemma round_to_grid_mono (k : Z) (x y : Q) :
  x <= y -> round_to_grid k x <= round_to_grid k y.
Proof.
  intros Hxy. unfold round_to_grid.
  apply Qmult_le_compat_r; [|apply Qlt_le_weak, pow2_pos].
  rewrite <- Zle_Qle. apply round_half_even_mono.
  unfold Qdiv. apply Qmult_le_compat_r; [done|].
  apply Qlt_le_weak, Qinv_lt_0_compat, pow2_pos.
Qed.

#[global] Instance round_to_grid_proper (k : Z) : Proper (Qeq ==> Qeq) (round_to_grid k).
Proof. intros x y Hxy. unfold round_to_grid. by rewrite Hxy. Qed.

(** A multiple of [2^k] is left as it is. *)
Lemma round_to_grid_multiple (k : Z) (z : Z) :
  round_to_grid k (inject_Z z * pow2 k) == inject_Z z * pow2 k.
Proof.
  unfold round_to_grid.
  assert (inject_Z z * pow2 k / pow2 k == inject_Z z) as ->.
  { apply Qdiv_mult_l. intros H. pose proof (pow2_pos k) as Hp. rewrite H in Hp.
    by apply Qlt_irrefl in Hp. }
  by rewrite round_half_even_integer.
Qed.

Lemma round_to_grid_pow2 (k j : Z) : (k <= j)%Z -> round_to_grid k (pow2 j) == pow2 j.
Proof.
  intros H. replace j with ((j - k) + k)%Z by lia.
  rewrite pow2_add, pow2_nonneg_exponent by lia. apply round_to_grid_multiple.
Qed.

Lemma round_to_grid_opp (k : Z) (x : Q) : round_to_grid k (- x) == - round_to_grid k x.
Proof.
  unfold round_to_grid.
  assert (- x / pow2 k == - (x / pow2 k)) as -> by (unfold Qdiv; ring).
  rewrite round_half_even_opp, inject_Z_opp. ring.
Qed.

Lemma round_to_grid_error (k : Z) (x : Q) :
  Qabs (round_to_grid k x - x) <= pow2 (k - 1).
Proof.
  unfold round_to_grid. pose proof (pow2_pos k) as Hp.
  assert (inject_Z (round_half_even (x / pow2 k)) * pow2 k - x
          == (inject_Z (round_half_even (x / pow2 k)) - x / pow2 k) * pow2 k) as ->.
  { field. intros H. rewrite H in Hp. by apply Qlt_irrefl in Hp. }
  rewrite Qabs_Qmult, (Qabs_pos (pow2 k)) by (by apply Qlt_le_weak).
  rewrite pow2_sub. change (pow2 1) with 2.
  apply Qle_trans with ((1 # 2) * pow2 k).
  - apply Qmult_le_compat_r; [apply round_half_even_error|by apply Qlt_le_weak].
  - apply Qle_lteq. right. field.
Qed.

(** ** binary64 *)

Lemma ilog2_Qeq (x y : Q) : ~ y == 0 -> x == y -> ilog2 x = ilog2 y.
Proof.
  intros Hy Hxy. destruct (ilog2_spec y Hy) as [Hlo Hhi].
  apply ilog2_unique; by rewrite Hxy.
Qed.

Lemma Qeq_bool_zero (x : Q) : x == 0 -> Qeq_bool x 0 = true.
Proof. apply Qeq_bool_iff. Qed.

Lemma Qeq_bool_nonzero (x : Q) : ~ x == 0 -> Qeq_bool x 0 = false.
Proof.
  intros H. destruct (Qeq_bool x 0) eqn:E; [|done]. by apply Qeq_bool_iff in E.
Qed.

Lemma binary64_zero (x : Q) : x == 0 -> binary64 x = 0.
Proof. intros H. unfold binary64. by rewrite Qeq_bool_zero. Qed.

Lemma binary64_grid (x : Q) :
  ~ x == 0 -> binary64 x == round_to_grid (exponent x) x.
Proof.
  intros H. unfold binary64. rewrite Qeq_bool_nonzero by done. apply Qred_correct.
Qed.

#[global] Instance binary64_proper : Proper (Qeq ==> eq) binary64.
Proof.
  intros x y Hxy. destruct (Qeq_dec y 0) as [Hy|Hy].
  - rewrite !binary64_zero; [done|done|by rewrite Hxy].
  - assert (~ x == 0) as Hx by (by rewrite Hxy).
    unfold binary64. rewrite !Qeq_bool_nonzero by done.
    apply Qred_complete. unfold exponent. rewrite (ilog2_Qeq x y) by done.
    by rewrite Hxy.
Qed.

Lemma round_to_grid_zero (k : Z) : round_to_grid k 0 == 0.
Proof.
  assert (0 == inject_Z 0 * pow2 k) as H by ring.
  rewrite H at 1. rewrite round_to_grid_multiple. ring.
Qed.

Lemma binary64_nonneg (x : Q) : 0 <= x -> 0 <= binary64 x.
Proof.
  intros H. destruct (Qeq_dec x 0) as [Hx|Hx].
  - by rewrite binary64_zero.
  - rewrite binary64_grid by done. rewrite <- (round_to_grid_zero (exponent x)).
    by apply round_to_grid_mono.
Qed.

Lemma exponent_opp (x : Q) : exponent (- x) = exponent x.
Proof.
  unfold exponent, ilog2. destruct x as [n d]. simpl.
  by rewrite Z.abs_opp.
Qed.

Lemma binary64_opp (x : Q) : binary64 (- x) == - binary64 x.
Proof.
  destruct (Qeq_dec x 0) as [Hx|Hx].
  - rewrite !binary64_zero; [done|done|]. rewrite Hx. done.
  - assert (~ - x == 0) as Hx'.
    { intros H. apply Hx. rewrite <- (Qopp_involutive x), H. done. }
    rewrite !binary64_grid by done. rewrite exponent_opp.
    apply round_to_grid_opp.
Qed.

Lemma binary64_mono_pos (x y : Q) : 0 < x -> x <= y -> binary64 x <= binary64 y.
Proof.
  intros Hx Hxy.
  assert (0 < y) as Hy by (by apply Qlt_le_trans with x).
  assert (~ x == 0) as Hx0.
  { intros H. rewrite H in Hx. by apply Qlt_irrefl in Hx. }
  assert (~ y == 0) as Hy0.
  { intros H. rewrite H in Hy. by apply Qlt_irrefl in Hy. }
  rewrite !binary64_grid by done.
  assert (Qabs x == x) as Hax by (by apply Qabs_pos, Qlt_le_weak).
  assert (Qabs y == y) as Hay by (by apply Qabs_pos, Qlt_le_weak).
  assert (ilog2 x <= ilog2 y)%Z as Hlog.
  { apply ilog2_mono; [done|]. by rewrite Hax, Hay. }
  destruct (Z.eq_dec (exponent x) (exponent y)) as [Heq|Hne].
  - rewrite Heq. by apply round_to_grid_mono.
  - assert (exponent x < exponent y)%Z as Hlt by (unfold exponent in *; lia).
    assert (exponent y = ilog2 y - 52)%Z as Hky by (unfold exponent in *; lia).
    assert (ilog2 x < ilog2 y)%Z as Hlog' by (unfold exponent in *; lia).
    destruct (ilog2_spec x Hx0) as [_ Hxhi]. destruct (ilog2_spec y Hy0) as [Hylo _].
    rewrite Hax in Hxhi. rewrite Hay in Hylo.
    apply Qle_trans with (pow2 (ilog2 y)).
    + rewrite <- (round_to_grid_pow2 (exponent x) (ilog2 y)) by lia.
      apply round_to_grid_mono. apply Qlt_le_weak.
      apply Qlt_le_trans with (pow2 (ilog2 x + 1)); [done|]. apply pow2_le. lia.
    + rewrite <- (round_to_grid_pow2 (exponent y) (ilog2 y)) at 1 by lia.
      by apply round_to_grid_mono.
Qed.

(** Rounding to binary64 keeps the order. *)
Lemma binary64_mono (x y : Q) : x <= y -> binary64 x <= binary64 y.
Proof.
  intros Hxy. destruct (Qlt_le_dec 0 x) as [Hx|Hx].
  - by apply binary64_mono_pos.
  - destruct (Qlt_le_dec y 0) as [Hy|Hy].
    + apply Qopp_le_compat in Hxy.
      assert (0 < - y) as Hy'.
      { apply Qopp_lt_compat in Hy. exact Hy. }
      pose proof (binary64_mono_pos (- y) (- x) Hy' Hxy) as H.
      rewrite !binary64_opp in H. apply Qopp_le_compat in H.
      by rewrite !Qopp_involutive in H.
    + apply Qle_trans with 0; [|by apply binary64_nonneg].
      apply Qopp_le_compat in Hx.
      pose proof (binary64_nonneg (- x) Hx) as H. rewrite binary64_opp in H.
      apply Qopp_le_compat in H. by rewrite Qopp_involutive in H.
Qed.

(** The relative error is at most [2^-53], but for the absolute error
    [2^-1075] of the subnormal range. *)
Lemma binary64_error (x : Q) :
  Qabs (binary64 x - x) <= pow2 (-53) * Qabs x + pow2 (-1075).
Proof.
  pose proof (pow2_pos (-53)) as H53. pose proof (pow2_pos (-1075)) as H1075.
  pose proof (Qabs_nonneg x) as Hnn.
  destruct (Qeq_dec x 0) as [Hx|Hx].
  - rewrite binary64_zero by done. rewrite Hx. simpl.
    apply Qlt_le_weak. rewrite Qmult_0_r, Qplus_0_l. exact H1075.
  - rewrite binary64_grid by done.
    apply Qle_trans with (pow2 (exponent x - 1)); [apply round_to_grid_error|].
    destruct (ilog2_spec x Hx) as [Hlo _].
    unfold exponent. destruct (Z.max_spec (ilog2 x - 52) (-1074)) as [[_ ->]|[_ ->]].
    + change (-1074 - 1)%Z with (-1075)%Z.
      rewrite <- (Qplus_0_l (pow2 (-1075))) at 1.
      apply Qplus_le_compat; [|apply Qle_refl].
      apply Qmult_le_0_compat; [by apply Qlt_le_weak|done].
    + replace (ilog2 x - 52 - 1)%Z with (-53 + ilog2 x)%Z by lia.
      rewrite pow2_add. rewrite <- (Qplus_0_r (pow2 (-53) * pow2 (ilog2 x))).
      apply Qplus_le_compat; [|by apply Qlt_le_weak].
      apply Qmult_le_l; [done|done].
Qed.

(** An integer below [2^53] is a binary64 number. *)
Lemma binary64_integer (z : Z) :
  (Z.abs z < 2 ^ 53)%Z -> binary64 (inject_Z z) == inject_Z z.
Proof.
  intros Hz. destruct (Z.eq_dec z 0%Z) as [->|Hz0]; [done|].
  assert (~ inject_Z z == 0) as Hx.
  { unfold Qeq. simpl. lia. }
  rewrite binary64_grid by done.
  destruct (ilog2_spec _ Hx) as [Hlo _].
  assert (ilog2 (inject_Z z) < 53)%Z as He.
  { destruct (Z_lt_ge_dec (ilog2 (inject_Z z)) 53) as [|Hge]; [done|]. exfalso.
    assert (pow2 53 <= Qabs (inject_Z z)) as H.
    { apply Qle_trans with (pow2 (ilog2 (inject_Z z))); [apply pow2_le; lia|done]. }
    rewrite pow2_nonneg_exponent in H by lia.
    change (Qabs (inject_Z z)) with (inject_Z (Z.abs z)) in H.
    rewrite <- Zle_Qle in H. lia. }
  set (k := exponent (inject_Z z)).
  assert (k <= 0)%Z as Hk by (unfold k, exponent; lia).
  assert (inject_Z z == inject_Z (z * 2 ^ (- k)) * pow2 k) as ->.
  { rewrite inject_Z_mult, <- pow2_nonneg_exponent by lia.
    rewrite <- Qmult_assoc, <- pow2_add. replace (- k + k)%Z with 0%Z by lia.
    change (pow2 0) with 1. ring. }
  apply round_to_grid_multiple.
Qed.

(** ** numpy's [round] *)

Lemma power_of_ten_pos (d : nat) : 0 < inject_Z (10 ^ Z.of_nat d).
Proof.
  change 0 with (inject_Z 0). rewrite <- Zlt_Qlt. apply Z.pow_pos_nonneg; lia.
Qed.

Lemma rint_mono (x y : Q) : x <= y -> rint x <= rint y.
Proof. intros H. unfold rint. rewrite <- Zle_Qle. by apply round_half_even_mono. Qed.

#[global] Instance rint_proper : Proper (Qeq ==> eq) rint.
Proof. intros x y H. unfold rint. by rewrite H. Qed.

Lemma np_round_mono (d : nat) (x y : Q) : x <= y -> np_round d x <= np_round d y.
Proof.
  intros H. unfold np_round, fdiv, fmul. pose proof (power_of_ten_pos d) as Hf.
  apply binary64_mono. unfold Qdiv.
  apply Qmult_le_compat_r; [|by apply Qlt_le_weak, Qinv_lt_0_compat].
  apply rint_mono, binary64_mono.
  apply Qmult_le_compat_r; [done|by apply Qlt_le_weak].
Qed.

#[global] Instance np_round_proper (d : nat) : Proper (Qeq ==> eq) (np_round d).
Proof. intros x y H. unfold np_round, fdiv, fmul. by rewrite H. Qed.

(** Two decimals of a number between 0 and 1. *)
Lemma np_round_unit (x : Q) :
  0 <= x -> x <= 1 -> 0 <= np_round 2 x /\ np_round 2 x <= 1.
Proof.
  intros H0 H1. split.
  - apply Qle_trans with (np_round 2 0); [by vm_compute|by apply np_round_mono].
  - apply Qle_trans with (np_round 2 1); [by apply np_round_mono|by vm_compute].
Qed.

(** The two decimals that [np_round] gives the binary64 value of a number
    between 0 and 1 are the hundredths nearest to the number, up to the
    rounding errors of the three binary64 operations. *)
Lemma np_round_close (x : Q) :
  0 <= x -> x <= 1 ->
  exists h : Z,
    np_round 2 (binary64 x) = binary64 (inject_Z h / 100) /\
    Qabs (inject_Z h / 100 - x) <= (1 # 200) + pow2 (-51).
Proof.
  intros H0 H1.
  set (q := binary64 x). set (p := binary64 (q * 100)).
  exists (round_half_even p). split; [done|].
  assert (0 <= q) as Hq0 by (by apply binary64_nonneg).
  assert (q <= 1) as Hq1.
  { apply Qle_trans with (binary64 1); [by apply binary64_mono|by vm_compute]. }
  pose proof (binary64_error x) as Hq. fold q in Hq.
  pose proof (binary64_error (q * 100)) as Hp. fold p in Hp.
  pose proof (round_half_even_error p) as Hh.
  rewrite (Qabs_pos x) in Hq by done.
  rewrite (Qabs_pos (q * 100)) in Hp by (apply Qmult_le_0_compat; [done|by vm_compute]).
  pose proof (pow2_pos (-53)) as H53. pose proof (pow2_pos (-1075)) as H1075.
  assert (pow2 (-1075) <= pow2 (-53)) as Hsmall by (apply pow2_le; lia).
  assert (pow2 (-51) == 4 * pow2 (-53)) as ->.
  { change (-51)%Z with (2 + -53)%Z. by rewrite pow2_add. }
  assert (pow2 (-53) * x <= pow2 (-53)) as Ht1.
  { rewrite <- (Qmult_1_r (pow2 (-53))) at 2. apply Qmult_le_l; done. }
  assert (pow2 (-53) * (q * 100) <= 100 * pow2 (-53)) as Ht2.
  { rewrite (Qmult_comm 100). apply Qmult_le_l; [done|].
    apply Qle_trans with (1 * 100); [by apply Qmult_le_compat_r|done]. }
  set (h := inject_Z (round_half_even p)) in *.
  set (t1 := pow2 (-53) * x) in *. set (t2 := pow2 (-53) * (q * 100)) in *.
  set (e53 := pow2 (-53)) in *. set (e1075 := pow2 (-1075)) in *.
  clearbody h t1 t2 e53 e1075 p q.
  assert (h / 100 == h * (1 # 100)) as -> by (by unfold Qdiv).
  rewrite Qabs_Qle_condition in Hq, Hp, Hh. rewrite Qabs_Qle_condition. lra.
Qed.

(** ** The mean of a group *)

(** A number of magnitude at most [M] is rounded with an error of at most
    [2^-53 * M + 2^-1075]. *)
Lemma binary64_error_bound (x M e : Q) :
  Qabs x <= M ->
  pow2 (-53) * M + pow2 (-1075) <= e ->
  Qabs (binary64 x - x) <= e.
Proof.
  intros Hx He. pose proof (binary64_error x) as H.
  pose proof (pow2_pos (-53)) as H53.
  apply Qle_trans with (pow2 (-53) * Qabs x + pow2 (-1075)); [done|].
  apply Qle_trans with (pow2 (-53) * M + pow2 (-1075)); [|done].
  apply Qplus_le_compat; [|apply Qle_refl].
  apply Qmult_le_l; done.
Qed.

Lemma Qabs_le_iff (x y : Q) : Qabs x <= y <-> - y <= x /\ x <= y.
Proof. apply Qabs_Qle_condition. Qed.

Lemma Qle_shift_div_r_abs (a n b : Q) :
  0 < n -> Qabs a <= n * b -> Qabs (a / n) <= b.
Proof.
  intros Hn Ha. unfold Qdiv. rewrite Qabs_Qmult.
  rewrite (Qabs_pos (/ n)) by (apply Qlt_le_weak, Qinv_lt_0_compat; done).
  apply Qle_shift_div_r; [done|]. by rewrite (Qmult_comm b).
Qed.

(** The bound on the values, the bound on the compensation and the error
    that one step adds to the sum. *)
Definition value_bound : Q := 64.
Definition compensation_bound : Q := pow2 (-34).
Definition step_error : Q := pow2 (-33).

(** The state of the summation after [k] values of exact sum [S]. *)
Definition kahan_close (k : nat) (acc : Q * Q) (total : Q) : Prop :=
  Qabs (acc.2) <= compensation_bound /\
  Qabs (acc.1 - total) <= inject_Z (Z.of_nat k) * step_error /\
  Qabs total <= inject_Z (Z.of_nat k) * value_bound.

Lemma kahan_step_close (k : nat) (acc : Q * Q) (total x : Q) :
  (k < 1024)%nat ->
  Qabs x <= value_bound ->
  kahan_close k acc total ->
  kahan_close (S k) (kahan_step acc x) (total + x).
Proof.
  intros Hk Hx (Hc & Hs & HS). destruct acc as [s c]. cbn [fst snd] in Hc, Hs, HS.
  unfold kahan_close, kahan_step, fsub, fadd. cbv beta iota zeta. cbn [fst snd].
  set (y := binary64 (x - c)).
  set (t := binary64 (s + y)).
  set (d := binary64 (t - s)).
  unfold value_bound, compensation_bound, step_error in *.
  assert (Hkq : inject_Z (Z.of_nat k) <= 1023).
  { change 1023 with (inject_Z 1023). rewrite <- Zle_Qle. lia. }
  assert (Hk0 : 0 <= inject_Z (Z.of_nat k)).
  { change 0 with (inject_Z 0). rewrite <- Zle_Qle. lia. }
  assert (HSk : inject_Z (Z.of_nat (S k)) == inject_Z (Z.of_nat k) + 1).
  { rewrite Nat2Z.inj_succ. unfold Z.succ. by rewrite inject_Z_plus. }
  rewrite HSk.
  assert (E34 : pow2 (-34) == 1 # 17179869184) by reflexivity.
  assert (E33 : pow2 (-33) == 1 # 8589934592) by reflexivity.
  rewrite E34 in *. rewrite E33 in *.
  set (K := inject_Z (Z.of_nat k)) in *. clearbody K.
  apply Qabs_le_iff in Hx, Hc, Hs, HS.
  assert (Hy : Qabs (y - (x - c)) <= 1 # 35184372088832).
  { apply (binary64_error_bound _ 128); [|by vm_compute].
    apply Qabs_le_iff. lra. }
  apply Qabs_le_iff in Hy.
  assert (Ht : Qabs (t - (s + y)) <= 1 # 34359738368).
  { apply (binary64_error_bound _ 131072); [|by vm_compute].
    apply Qabs_le_iff. nra. }
  apply Qabs_le_iff in Ht.
  assert (Hd : Qabs (d - (t - s)) <= 1 # 35184372088832).
  { apply (binary64_error_bound _ 128); [|by vm_compute].
    apply Qabs_le_iff. lra. }
  apply Qabs_le_iff in Hd.
  assert (Hc' : Qabs (binary64 (d - y) - (d - y)) <= 1 # 35184372088832).
  { apply (binary64_error_bound _ 128); [|by vm_compute].
    apply Qabs_le_iff. lra. }
  apply Qabs_le_iff in Hc'.
  set (c' := binary64 (d - y)) in *. clearbody c' d t y.
  split; [|split]; apply Qabs_le_iff; nra.
Qed.


Lemma kahan_fold_close (xs : list Q) (k : nat) (acc : Q * Q) (total : Q) :
  (k + length xs <= 1024)%nat ->
  Forall (fun x => Qabs x <= value_bound) xs ->
  kahan_close k acc total ->
  kahan_close (k + length xs) (fold_left kahan_step xs acc) (total + Qsum xs).
Proof.
  revert k acc total. induction xs as [|x xs IH]; intros k acc total Hk Hxs Hacc.
  - simpl. rewrite Nat.add_0_r. destruct Hacc as (Hc & Hs & HS).
    unfold kahan_close. by rewrite !Qplus_0_r.
  - apply Forall_cons in Hxs as [Hx Hxs]. simpl in Hk. simpl fold_left.
    assert (kahan_close (S k + length xs) (fold_left kahan_step xs (kahan_step acc x))
              (total + x + Qsum xs)) as (Hc & Hs & HS).
    { apply IH; [lia|done|]. apply kahan_step_close; [lia|done|done]. }
    replace (k + length (x :: xs))%nat with (S k + length xs)%nat by (simpl; lia).
    assert (total + Qsum (x :: xs) == total + x + Qsum xs) as Heq
        by (simpl; ring).
    unfold kahan_close. by rewrite Heq.
Qed.

(** The mean of at most 1024 values of magnitude at most 64, as pandas
    computes it, is within [2^-22] of the exact mean. *)
Lemma group_mean_close (xs : list Q) :
  xs <> [] ->
  (length xs <= 1024)%nat ->
  Forall (fun x => Qabs x <= 64) xs ->
  Qabs (group_mean xs - Qmean xs) <= pow2 (-22) /\ Qabs (Qmean xs) <= 64.
Proof.
  intros Hne Hlen Hxs. unfold group_mean, Qmean.
  destruct (kahan_fold_close xs 0 (0, 0) 0) as (_ & Hs & HS); [done|done| |].
  { unfold kahan_close. simpl. repeat split; by vm_compute. }
  simpl plus in Hs, HS. rewrite Qplus_0_l in Hs, HS.
  set (s := (fold_left kahan_step xs (0, 0)).1) in *.
  set (n := inject_Z (Z.of_nat (length xs))) in *.
  assert (Hn1 : 1 <= n).
  { unfold n. change 1 with (inject_Z 1). rewrite <- Zle_Qle.
    destruct xs; [done|simpl; lia]. }
  assert (Hn2 : n <= 1024).
  { unfold n. change 1024 with (inject_Z 1024). rewrite <- Zle_Qle. lia. }
  assert (Hfl : binary64 n == n).
  { unfold n. apply binary64_integer. lia. }
  unfold fdiv.
  assert (binary64 (s / binary64 n) = binary64 (s / n)) as ->.
  { apply binary64_proper. by rewrite Hfl. }
  unfold step_error, value_bound in *.
  assert (E33 : pow2 (-33) == 1 # 8589934592) by reflexivity.
  assert (E22 : pow2 (-22) == 1 # 4194304) by reflexivity.
  rewrite E33 in Hs. rewrite E22.
  assert (Hpos : 0 < n) by lra.
  assert (Hquot : Qabs (s / n - Qsum xs / n) <= 1 # 8589934592).
  { assert (s / n - Qsum xs / n == (s - Qsum xs) / n) as -> by (field; lra).
    apply Qle_shift_div_r_abs; done. }
  assert (Hmean : Qabs (Qsum xs / n) <= 64).
  { apply Qle_shift_div_r_abs; done. }
  split; [|done].
  apply Qabs_le_iff in Hquot, Hmean.
  assert (Hm : Qabs (binary64 (s / n) - s / n) <= 1 # 35184372088832).
  { apply (binary64_error_bound _ 128); [|by vm_compute].
    apply Qabs_le_iff. lra. }
  apply Qabs_le_iff in Hm. apply Qabs_le_iff. lra.
Qed.


(** The average of a region is a number of tenths, and these tenths are
    the ones nearest to the exact mean, up to the rounding errors of the
    summation, the division and the rounding. *)
Lemma rounded_mean_close (xs : list Q) :
  xs <> [] ->
  (length xs <= 1024)%nat ->
  Forall (fun x => Qabs x <= 64) xs ->
  exists tenths : Z,
    TemperatureAggregator.rounded_mean xs = Some (binary64 (inject_Z tenths / 10)) /\
    Qabs (inject_Z tenths / 10 - Qmean xs) <= (1 # 20) + pow2 (-21).
Proof.
  intros Hne Hlen Hxs.
  destruct (group_mean_close xs Hne Hlen Hxs) as [Hm Hmean].
  set (m := group_mean xs) in *.
  set (p := binary64 (m * 10)).
  exists (round_half_even p). split.
  { unfold TemperatureAggregator.rounded_mean. by destruct xs. }
  assert (E22 : pow2 (-22) == 1 # 4194304) by reflexivity.
  assert (E21 : pow2 (-21) == 1 # 2097152) by reflexivity.
  rewrite E22 in Hm. rewrite E21.
  apply Qabs_le_iff in Hm, Hmean.
  assert (Hp : Qabs (p - m * 10) <= 1 # 4398046511104).
  { apply (binary64_error_bound _ 1024); [|by vm_compute].
    apply Qabs_le_iff. lra. }
  pose proof (round_half_even_error p) as Hh.
  apply Qabs_le_iff in Hp, Hh.
  set (h := inject_Z (round_half_even p)) in *. clearbody h p m.
  assert (h / 10 == h * (1 # 10)) as -> by (field; lra).
  apply Qabs_le_iff. lra.
Qed.

Lemma Qsum_le_bound (xs : list Q) (b : Q) :
  Forall (fun x => x <= b) xs -> Qsum xs <= inject_Z (Z.of_nat (length xs)) * b.
Proof.
  induction 1 as [|x xs Hx _ IH].
  - change (0 <= 0 * b). rewrite Qmult_0_l. apply Qle_refl.
  - change (Qsum (x :: xs)) with (x + Qsum xs).
    change (length (x :: xs)) with (S (length xs)).
    rewrite Nat2Z.inj_succ. unfold Z.succ. rewrite inject_Z_plus.
    set (n := inject_Z (Z.of_nat (length xs))) in *. clearbody n.
    change (inject_Z 1) with 1. lra.
Qed.

(** The exact mean does not exceed a bound of the values. *)
Lemma Qmean_le_bound (xs : list Q) (b : Q) :
  xs <> [] -> Forall (fun x => x <= b) xs -> Qmean xs <= b.
Proof.
  intros Hne Hxs. unfold Qmean.
  assert (0 < inject_Z (Z.of_nat (length xs))) as Hn.
  { change 0 with (inject_Z 0). rewrite <- Zlt_Qlt. destruct xs; [done|simpl; lia]. }
  apply Qle_shift_div_r; [done|]. rewrite Qmult_comm. by apply Qsum_le_bound.
Qed.

(** The average exceeds no bound of the values by more than 0.05, up to
    the rounding errors. *)
Lemma rounded_mean_le_bound (xs : list Q) (a b : Q) :
  (length xs <= 1024)%nat ->
  Forall (fun x => Qabs x <= 64) xs ->
  Forall (fun x => x <= b) xs ->
  TemperatureAggregator.rounded_mean xs = Some a ->
  a <= b + (1 # 20) + pow2 (-20).
Proof.
  intros Hlen Hxs Hb Ha.
  assert (Hne : xs <> []) by (by intros ->).
  destruct (rounded_mean_close xs Hne Hlen Hxs) as (h & Hh & Hclose).
  rewrite Ha in Hh. injection Hh as ->.
  pose proof (Qmean_le_bound xs b Hne Hb) as Hmean.
  destruct (group_mean_close xs Hne Hlen Hxs) as [_ Hmean64].
  assert (E21 : pow2 (-21) == 1 # 2097152) by reflexivity.
  assert (E20 : pow2 (-20) == 1 # 1048576) by reflexivity.
  rewrite E21 in Hclose. rewrite E20.
  apply Qabs_le_iff in Hclose, Hmean64.
  assert (Hfl : Qabs (binary64 (inject_Z h / 10) - inject_Z h / 10)
                  <= 1 # 35184372088832).
  { apply (binary64_error_bound _ 128); [|by vm_compute].
    apply Qabs_le_iff. lra. }
  apply Qabs_le_iff in Hfl. lra.
Qed.

End Rounding.

(** ** context_enricher.py *)

Section ContextEnricherFacts.

Import ContextEnricher.

Lemma Qnat_nonneg (n : nat) : 0 <= Qnat n.
Proof. unfold Qnat, Qle. simpl. lia. Qed.

Lemma Qnat_pos (n : nat) : (0 < n)%nat -> 0 < Qnat n.
Proof. unfold Qnat, Qlt. simpl. lia. Qed.

Lemma Qnat_le (m n : nat) : (m <= n)%nat -> Qnat m <= Qnat n.
Proof. unfold Qnat, Qle. simpl. lia. Qed.

(** C7.  [determine_density] is a function of the two counts alone: a zero
    total gives the unknown class (spelled 'Unknown/Low Density'); otherwise,
    with the ratio of the commercial count to the total, a ratio above 0.6
    gives Commercial, a ratio below 0.4 gives Residential, and every ratio
    from 0.4 to 0.6, both ends included, gives Mixed. *)
Theorem determine_density_thresholds (c r : nat) :
  ((c + r = 0)%nat -> determine_density c r = "Unknown/Low Density") /\
  ((c + r <> 0)%nat ->
   let ratio := Qnat c / Qnat (c + r) in
   (6 # 10 < ratio -> determine_density c r = "Commercial") /\
   (ratio < 4 # 10 -> determine_density c r = "Residential") /\
   (4 # 10 <= ratio /\ ratio <= 6 # 10 -> determine_density c r = "Mixed") /\
   (ratio == 4 # 10 \/ ratio == 6 # 10 -> determine_density c r = "Mixed")) /\
  determine_density 0 0 = "Unknown/Low Density" /\
  determine_density 7 3 = "Commercial" /\
  determine_density 3 7 = "Residential" /\
  determine_density 5 5 = "Mixed".
Proof.
  split; [|split; [|by vm_compute]].
  - intros H. unfold determine_density. by rewrite H.
  - intros H ratio. unfold determine_density.
    destruct (Nat.eqb_spec (c + r) 0) as [|_]; [done|]. fold ratio.
    assert (Hmixed : 4 # 10 <= ratio /\ ratio <= 6 # 10 ->
                     (if Qltb (6 # 10) ratio then "Commercial"
                      else if Qltb ratio (4 # 10) then "Residential" else "Mixed")
                     = "Mixed").
    { intros [Hlo Hhi].
      destruct (Qltb (6 # 10) ratio) eqn:E1.
      { apply Qltb_lt in E1. by apply Qle_not_lt in Hhi. }
      destruct (Qltb ratio (4 # 10)) eqn:E2; [|done].
      apply Qltb_lt in E2. by apply Qle_not_lt in Hlo. }
    repeat split.
    + intros Hgt. apply Qltb_lt in Hgt. by rewrite Hgt.
    + intros Hlt.
      destruct (Qltb (6 # 10) ratio) eqn:E1.
      { apply Qltb_lt in E1. exfalso.
        apply (Qlt_irrefl ratio). apply Qlt_trans with (4 # 10); [done|].
        by apply Qlt_trans with (6 # 10). }
      apply Qltb_lt in Hlt. by rewrite Hlt.
    + exact Hmixed.
    + intros [He|He]; apply Hmixed; rewrite He; done.
Qed.

Lemma max_count_spec (counts : list nat) (m : nat) :
  max_count counts = Some m ->
  m ∈ counts /\ forall c, c ∈ counts -> (c <= m)%nat.
Proof.
  destruct counts as [|c0 rest]; simpl; [done|]. intros [= <-].
  revert c0. induction rest as [|c rest IH]; intros c0; simpl.
  - split; [apply elem_of_cons; by left|].
    intros c [->|[]%elem_of_nil]%elem_of_cons. done.
  - destruct (IH (Nat.max c0 c)) as [Hin Hmax]. split.
    + apply elem_of_cons in Hin as [Heq|Hin].
      * rewrite Heq. destruct (Nat.max_spec c0 c) as [[_ ->]|[_ ->]].
        -- apply elem_of_cons. right. apply elem_of_cons. by left.
        -- apply elem_of_cons. by left.
      * apply elem_of_cons. right. apply elem_of_cons. by right.
    + intros x Hx.
      assert (Nat.max c0 c <= fold_left Nat.max rest (Nat.max c0 c))%nat as Htop.
      { apply Hmax. apply elem_of_cons. by left. }
      apply elem_of_cons in Hx as [->|Hx]; [lia|].
      apply elem_of_cons in Hx as [->|Hx]; [lia|].
      apply Hmax. apply elem_of_cons. by right.
Qed.

Lemma ratio_unit (count m : nat) :
  (0 < m)%nat -> (count <= m)%nat ->
  0 <= Qnat count / Qnat m /\ Qnat count / Qnat m <= 1.
Proof.
  intros Hm Hle. split.
  - apply Qle_shift_div_l; [by apply Qnat_pos|].
    rewrite Qmult_0_l. apply Qnat_nonneg.
  - apply Qle_shift_div_r; [by apply Qnat_pos|].
    rewrite Qmult_1_l. by apply Qnat_le.
Qed.

End ContextEnricherFacts.

Section GreenRatio.

Import ContextEnricher.

Variable all_areas : list (option string).
Variables green_counts comm_counts res_counts : gmap string nat.

Abbreviation context := (get_context_features all_areas green_counts comm_counts res_counts).

Lemma green_count_column :
  map green_count context = map (lookup_count green_counts) all_areas.
Proof.
  unfold get_context_features. rewrite map_map. simpl. done.
Qed.

Lemma green_ratio_row (row : features) :
  row ∈ context ->
  green_ratio row
    = ratio_to_max (max_count (map green_count context)) (green_count row).
Proof.
  rewrite green_count_column. unfold get_context_features.
  intros Hin. apply list_elem_of_In, in_map_iff in Hin as (a & <- & _). done.
Qed.

(** The quotient of a count by the largest count, in binary64. *)
Lemma float_ratio_unit (count m : nat) :
  (0 < m)%nat -> (count <= m)%nat ->
  0 <= fdiv (binary64 (Qnat count)) (binary64 (Qnat m)) /\
  fdiv (binary64 (Qnat count)) (binary64 (Qnat m)) <= 1.
Proof.
  intros Hm Hle.
  assert (1 <= binary64 (Qnat m)) as Hb.
  { apply Qle_trans with (binary64 1); [by vm_compute|].
    apply binary64_mono. change 1 with (Qnat 1). apply Qnat_le. lia. }
  assert (0 < binary64 (Qnat m)) as Hpos by (by apply Qlt_le_trans with 1).
  assert (0 <= binary64 (Qnat count)) as Ha by apply binary64_nonneg, Qnat_nonneg.
  assert (binary64 (Qnat count) <= binary64 (Qnat m)) as Hab
    by (by apply binary64_mono, Qnat_le).
  unfold fdiv. split.
  - apply binary64_nonneg. apply Qle_shift_div_l; [done|]. by rewrite Qmult_0_l.
  - apply Qle_trans with (binary64 1); [|by vm_compute].
    apply binary64_mono. apply Qle_shift_div_r; [done|]. by rewrite Qmult_1_l.
Qed.

Lemma binary64_Qnat (n : nat) :
  (Z.of_nat n < 2 ^ 53)%Z -> binary64 (Qnat n) == Qnat n.
Proof. intros H. apply binary64_integer. lia. Qed.

(** C8.  Let [max_green] be the largest [green_count] of the context frame.
    Every row has it as an upper bound of its own count.  When [max_green]
    is zero the row's [green_ratio] is zero and nothing is divided; when it
    is positive the [green_ratio] is the count divided by [max_green] and
    rounded to two decimals, both in binary64: for counts below [2^53] it
    is the binary64 number nearest to a number of hundredths that lies
    within 1/200 of the exact quotient, up to a rounding error of [2^-51].
    In both cases the [green_ratio] lies between 0 and 1. *)
Theorem green_ratio_relative_to_max (row : features) :
  row ∈ context ->
  exists max_green : nat,
    max_green ∈ map green_count context /\
    (forall r, r ∈ context -> (green_count r <= max_green)%nat) /\
    (max_green = 0%nat -> green_ratio row = 0) /\
    ((0 < max_green)%nat ->
     let quotient := Qnat (green_count row) / Qnat max_green in
     green_ratio row
       = np_round 2 (fdiv (binary64 (Qnat (green_count row)))
                          (binary64 (Qnat max_green))) /\
     ((Z.of_nat max_green < 2 ^ 53)%Z ->
      exists hundredths : Z,
        green_ratio row = binary64 (inject_Z hundredths / 100) /\
        Qabs (inject_Z hundredths / 100 - quotient) <= (1 # 200) + pow2 (-51))) /\
    0 <= green_ratio row /\ green_ratio row <= 1.
Proof.
  intros Hrow. rewrite (green_ratio_row row Hrow).
  destruct (max_count (map green_count context)) as [m|] eqn:Hmax.
  - destruct (max_count_spec _ _ Hmax) as [Hin Hle].
    assert (Hcount : (green_count row <= m)%nat).
    { apply Hle. apply list_elem_of_In, in_map. by apply list_elem_of_In. }
    exists m. split; [done|]. split.
    { intros r Hr. apply Hle. apply list_elem_of_In, in_map. by apply list_elem_of_In. }
    unfold ratio_to_max. destruct (Nat.ltb_spec 0 m) as [Hpos|Hzero].
    + split; [lia|]. split.
      * intros _. split; [done|]. intros Hsmall.
        destruct (ratio_unit (green_count row) m Hpos Hcount) as [Hq0 Hq1].
        destruct (np_round_close _ Hq0 Hq1) as (h & Hh & Hclose).
        exists h. split; [|done]. rewrite <- Hh. unfold fdiv.
        rewrite !binary64_Qnat by lia. done.
      * destruct (float_ratio_unit (green_count row) m Hpos Hcount).
        by apply np_round_unit.
    + split; [done|]. split; [lia|]. done.
  - destruct context as [|r0 rows]; [by apply elem_of_nil in Hrow|done].
Qed.

End GreenRatio.

(** Three regions with green counts 3, 4 and 0. *)
Definition sample_green_counts : gmap string nat :=
  <["BEDOK" := 3%nat]> (<["TENGAH" := 4%nat]> ∅).

(** Two regions with green counts 23 and 40: the quotient 0.575 has the
    binary64 value 0.57499999999999996, which becomes 0.57. *)
Definition tie_green_counts : gmap string nat :=
  <["BEDOK" := 23%nat]> (<["TENGAH" := 40%nat]> ∅).

Lemma green_ratio_relative_to_max_witness :
  exists row,
    row ∈ ContextEnricher.get_context_features [Some "BEDOK"; Some "TENGAH"]
            tie_green_counts ∅ ∅ /\
    ContextEnricher.green_ratio row = binary64 (57 # 100) /\
    0 <= ContextEnricher.green_ratio row /\ ContextEnricher.green_ratio row <= 1.
Proof.
  set (rows := ContextEnricher.get_context_features [Some "BEDOK"; Some "TENGAH"]
                 tie_green_counts ∅ ∅).
  assert (Hrows : exists row rest, rows = row :: rest /\
                    ContextEnricher.green_ratio row = binary64 (57 # 100)).
  { vm_compute. by repeat eexists. }
  destruct Hrows as (row & rest & Hrows & Hratio).
  assert (Hin : row ∈ rows) by (rewrite Hrows; apply elem_of_cons; by left).
  exists row. split; [exact Hin|]. split; [exact Hratio|].
  destruct (green_ratio_relative_to_max [Some "BEDOK"; Some "TENGAH"]
              tie_green_counts ∅ ∅ row Hin) as (_ & _ & _ & _ & _ & Hunit).
  exact Hunit.
Defined.

(** ** Keys and groups *)

Section Keys.

Lemma elem_of_unique (l : list string) (x : string) : x ∈ unique l <-> x ∈ l.
Proof.
  induction l as [|y l IH]; simpl; [done|].
  rewrite !elem_of_cons, list_elem_of_filter, IH.
  destruct (decide (x = y)); tauto.
Qed.

Lemma NoDup_unique (l : list string) : NoDup (unique l).
Proof.
  induction l as [|y l IH]; simpl; [constructor|].
  apply NoDup_cons. split.
  - rewrite list_elem_of_filter. by intros [H _].
  - by apply NoDup_filter.
Qed.

Lemma sorted_keys_Permutation (l : list string) : sorted_keys l ≡ₚ unique l.
Proof. apply insertion_sort_Permutation. Qed.

Lemma elem_of_sorted_keys (l : list string) (x : string) : x ∈ sorted_keys l <-> x ∈ l.
Proof. by rewrite sorted_keys_Permutation, elem_of_unique. Qed.

Lemma NoDup_sorted_keys (l : list string) : NoDup (sorted_keys l).
Proof. rewrite sorted_keys_Permutation. apply NoDup_unique. Qed.





(** The keys of an outer merge are the keys of its inputs, each once. *)
Lemma elem_of_merge_keys (l : list (option string)) (k : option string) :
  k ∈ DataFusion.merge_keys l <-> k ∈ l.
Proof.
  unfold DataFusion.merge_keys. rewrite elem_of_app. destruct k as [s|].
  - rewrite list_elem_of_fmap. split.
    + intros [(s' & [= <-] & Hs)|Hnone].
      * apply elem_of_sorted_keys, list_elem_of_omap in Hs as (o & Ho & Hs).
        simpl in Hs. by subst.
      * case_bool_decide; [by apply list_elem_of_singleton in Hnone|].
        by apply elem_of_nil in Hnone.
    + intros Hs. left. exists s. split; [done|].
      apply elem_of_sorted_keys, list_elem_of_omap. by exists (Some s).
  - rewrite list_elem_of_fmap. split.
    + intros [(s' & [=] & _)|Hnone].
      case_bool_decide; [done|]. by apply elem_of_nil in Hnone.
    + intros Hnone. right. rewrite bool_decide_eq_true_2 by done.
      by apply list_elem_of_singleton.
Qed.

Lemma NoDup_merge_keys (l : list (option string)) : NoDup (DataFusion.merge_keys l).
Proof.
  unfold DataFusion.merge_keys. apply NoDup_app. split; [|split].
  - apply (NoDup_fmap_2 Some), NoDup_sorted_keys.
  - intros k (s & -> & _)%list_elem_of_fmap Hnone.
    case_bool_decide; [by apply list_elem_of_singleton in Hnone|].
    by apply elem_of_nil in Hnone.
  - case_bool_decide; [apply NoDup_singleton|constructor].
Qed.

Context {R K : Type} `{!EqDecision K}.
Variable key : R -> K.

Lemma elem_of_keys (l : list R) (k : K) :
  k ∈ map key l <-> exists r, r ∈ l /\ key r = k.
Proof.
  rewrite list_elem_of_In, in_map_iff.
  split; intros (r & H1 & H2); exists r.
  - by rewrite list_elem_of_In.
  - by rewrite <- list_elem_of_In.
Qed.

(** With distinct keys a key selects at most one row. *)
Lemma filter_key_NoDup (l : list R) (k : K) :
  NoDup (map key l) ->
  filter (fun r => key r = k) l = [] \/
  exists r, filter (fun r => key r = k) l = [r].
Proof.
  induction l as [|r l IH]; simpl; [by left|].
  intros [Hr Hl]%NoDup_cons. destruct (decide (key r = k)) as [Heq|Hne].
  - right. exists r. rewrite filter_cons_True by done. f_equal.
    destruct (filter (fun r0 => key r0 = k) l) as [|r' rest] eqn:Hf; [done|].
    assert (r' ∈ filter (fun r0 => key r0 = k) l) as Hin
        by (rewrite Hf; apply elem_of_cons; by left).
    apply list_elem_of_filter in Hin as [Hk Hin].
    exfalso. apply Hr. apply elem_of_keys. exists r'. split; [done|]. congruence.
  - rewrite filter_cons_False by done. by apply IH.
Qed.

Lemma filter_key_nil (l : list R) (k : K) :
  filter (fun r => key r = k) l = [] -> k ∉ map key l.
Proof.
  intros Hf (r & Hin & Hk)%elem_of_keys.
  assert (r ∈ filter (fun r => key r = k) l) as H by by apply list_elem_of_filter.
  rewrite Hf in H. by apply elem_of_nil in H.
Qed.

Lemma filter_key_singleton (l : list R) (k : K) (r : R) :
  filter (fun r => key r = k) l = [r] ->
  r ∈ l /\ key r = k /\ forall r', r' ∈ l -> key r' = k -> r' = r.
Proof.
  intros Hf.
  assert (r ∈ filter (fun r => key r = k) l) as [Hk Hin]%list_elem_of_filter
      by (rewrite Hf; apply elem_of_cons; by left).
  repeat split; try done.
  intros r' Hin' Hk'.
  assert (r' ∈ filter (fun r => key r = k) l) as H by by apply list_elem_of_filter.
  rewrite Hf in H. by apply list_elem_of_singleton in H.
Qed.

Lemma NoDup_keys_inj (l : list R) (r r' : R) :
  NoDup (map key l) -> r ∈ l -> r' ∈ l -> key r = key r' -> r = r'.
Proof.
  intros Hl Hr Hr' Hk.
  destruct (filter_key_NoDup l (key r) Hl) as [Hf|[r0 Hf]].
  - apply filter_key_nil in Hf. exfalso. apply Hf, elem_of_keys. eauto.
  - apply filter_key_singleton in Hf as (_ & _ & Hone).
    rewrite (Hone r), (Hone r'); done.
Qed.

(** Laying out one row per key gives back the keys. *)
Lemma keys_of_bind (f : K -> list R) (keys : list K) :
  (forall k, k ∈ keys -> map key (f k) = [k]) ->
  map key (keys ≫= f) = keys.
Proof.
  induction keys as [|k keys IH]; intros H; [done|].
  change ((k :: keys) ≫= f) with (f k ++ (keys ≫= f)).
  rewrite map_app, H by (apply elem_of_cons; by left).
  simpl. f_equal. apply IH. intros k' Hk'. apply H. apply elem_of_cons. by right.
Qed.

End Keys.

(** Any two rows of a sorted frame are in key order. *)
Lemma StronglySorted_pair {A} (R : relation A) (l1 l2 l3 : list A) (a b : A) :
  StronglySorted R (l1 ++ a :: l2 ++ b :: l3) -> R a b.
Proof.
  induction l1 as [|x l1 IH]; simpl; intros H.
  - apply StronglySorted_inv in H as [_ H].
    rewrite Forall_forall in H. apply H.
    apply elem_of_app. right. apply elem_of_cons. by left.
  - apply StronglySorted_inv in H as [H _]. by apply IH.
Qed.

(** ** data_fusion.py *)

Abbreviation context_key := ContextEnricher.planning_area.

Section Fusion.

Import DataFusion.

(** How a unified row relates to the two inputs: the temperature of the
    matching statistic or none, the green ratio and density of the matching
    context row or none. *)
Definition fused (temp : list stat) (context : list features) (row : unified) : Prop :=
  (forall t, t ∈ temp -> temp_key t = planning_area row ->
             avg_temperature row = TemperatureAggregator.avg_temp t) /\
  (planning_area row ∉ map temp_key temp -> avg_temperature row = None) /\
  (forall c, c ∈ context -> context_key c = planning_area row ->
             green_ratio row = Some (ContextEnricher.green_ratio c) /\
             density_type row = Some (ContextEnricher.density_type c)) /\
  (planning_area row ∉ map context_key context ->
   green_ratio row = None /\ density_type row = None).

Variables (temp : list stat) (context : list features).
Hypothesis temp_distinct : NoDup (map temp_key temp).
Hypothesis context_distinct : NoDup (map context_key context).

Ltac fused_case :=
  repeat split; intros; simpl in *;
  first
    [ done
    | exfalso;
      match goal with
      | H : _ ∉ _ |- _ => apply H; apply elem_of_keys; by eauto
      end
    | match goal with
      | Hone : forall r', r' ∈ _ -> _ -> r' = _, Hin : ?r ∈ _ |- _ =>
          by rewrite (Hone r)
      end ].

Lemma merge_key_row (k : option string) :
  k ∈ map temp_key temp ++ map context_key context ->
  exists row, merge_key temp context k = [row] /\
              planning_area row = k /\ fused temp context row.
Proof.
  intros Hk. unfold merge_key, fused.
  destruct (filter_key_NoDup temp_key temp k temp_distinct) as [Ht|[t Ht]];
    destruct (filter_key_NoDup context_key context k context_distinct) as [Hc|[c Hc]];
    rewrite Ht, Hc; simpl.
  - apply filter_key_nil in Ht, Hc. apply elem_of_app in Hk. tauto.
  - apply filter_key_nil in Ht.
    apply filter_key_singleton in Hc as (Hin & Hkey & Hone).
    eexists. split; [done|]. fused_case.
  - apply filter_key_nil in Hc.
    apply filter_key_singleton in Ht as (Hin & Hkey & Hone).
    eexists. split; [done|]. fused_case.
  - apply filter_key_singleton in Ht as (Hint & Hkeyt & Honet).
    apply filter_key_singleton in Hc as (Hinc & Hkeyc & Honec).
    eexists. split; [done|]. fused_case.
Qed.

Lemma merge_outer_keys :
  map planning_area (merge_outer temp context)
    = merge_keys (map temp_key temp ++ map context_key context).
Proof.
  unfold merge_outer. apply keys_of_bind.
  intros k Hk. rewrite elem_of_merge_keys in Hk.
  destruct (merge_key_row k Hk) as (row & -> & <- & _). done.
Qed.

Lemma merge_outer_fused (row : unified) :
  row ∈ merge_outer temp context -> fused temp context row.
Proof.
  unfold merge_outer. intros (k & Hrow & Hk)%list_elem_of_bind.
  rewrite elem_of_merge_keys in Hk.
  destruct (merge_key_row k Hk) as (row' & Hrows & _ & Hfused).
  rewrite Hrows in Hrow. by apply list_elem_of_singleton in Hrow as ->.
Qed.

(** The join when there are no statistics: the context rows, each without a
    temperature. *)
Lemma right_only_keys :
  map planning_area (map (fun c => right_only (context_key c) c) context)
    = map context_key context.
Proof. rewrite map_map. done. Qed.

Lemma right_only_fused (row : unified) :
  row ∈ map (fun c => right_only (context_key c) c) context -> fused [] context row.
Proof.
  intros Hrow. apply list_elem_of_In, in_map_iff in Hrow as (c & <- & Hc).
  apply list_elem_of_In in Hc.
  unfold fused. simpl. split; [by intros t ?%elem_of_nil|].
  split; [done|]. split.
  - intros c' Hc' Hk.
    by rewrite (NoDup_keys_inj context_key context c' c context_distinct).
  - intros H'. exfalso. apply H', elem_of_keys. eauto.
Qed.

End Fusion.

Section UnifiedDataset.

Import DataFusion.

Variable pd : pandas.
Variable temp_df : DataFrame stat.
Variable context_df : DataFrame features.

Lemma empty_rows_of {R} (df : DataFrame R) : empty df = true -> rows_of df = [].
Proof. unfold empty. by destruct (rows_of df). Qed.

(** The join has one row per region of either input. *)
Lemma joined_outer_join :
  NoDup (map temp_key (rows_of temp_df)) ->
  NoDup (map context_key (rows_of context_df)) ->
  NoDup (map planning_area (joined temp_df context_df)) /\
  (forall k, k ∈ map planning_area (joined temp_df context_df) <->
             k ∈ map temp_key (rows_of temp_df) \/
             k ∈ map context_key (rows_of context_df)) /\
  (forall row, row ∈ joined temp_df context_df ->
               fused (rows_of temp_df) (rows_of context_df) row).
Proof.
  intros Ht Hc. unfold joined. destruct (empty temp_df) eqn:He.
  - apply empty_rows_of in He. rewrite He, right_only_keys.
    split; [done|]. split.
    + intros k. simpl. rewrite elem_of_nil. tauto.
    + intros row. by apply right_only_fused.
  - rewrite merge_outer_keys by done. split; [apply NoDup_merge_keys|]. split.
    + intros k. by rewrite elem_of_merge_keys, elem_of_app.
    + intros row. by apply merge_outer_fused.
Qed.

(** C3, amended.  Let the region names be distinct within each input.  When
    the context frame is empty the result is the empty frame, whatever the
    statistics hold.  Otherwise the result has exactly one row per region
    of either input; the row's temperature is that of the region's
    statistic and is absent when the region has none; its green ratio and
    density are those of the region's context row and are both absent
    (not 0.0 and Unknown) when the region has none. *)
Theorem get_unified_dataset_outer_join :
  NoDup (map temp_key (rows_of temp_df)) ->
  NoDup (map context_key (rows_of context_df)) ->
  (empty context_df = true ->
   get_unified_dataset pd temp_df context_df = Empty_DataFrame) /\
  (empty context_df = false ->
   exists rows,
     get_unified_dataset pd temp_df context_df = Frame rows /\
     NoDup (map planning_area rows) /\
     (forall k, k ∈ map planning_area rows <->
                k ∈ map temp_key (rows_of temp_df) \/
                k ∈ map context_key (rows_of context_df)) /\
     (forall row, row ∈ rows ->
                  fused (rows_of temp_df) (rows_of context_df) row)).
Proof.
  intros Ht Hc. unfold get_unified_dataset.
  split; intros He; rewrite He; [done|].
  destruct (joined_outer_join Ht Hc) as (Hdistinct & Hkeys & Hfused).
  pose proof (sort_values_Permutation pd unified avg_temperature
                (joined temp_df context_df)) as Hperm.
  eexists. split; [done|]. split; [|split].
  - by rewrite (Permutation_map planning_area Hperm).
  - intros k. by rewrite (Permutation_map planning_area Hperm).
  - intros row. rewrite Hperm. apply Hfused.
Qed.


End UnifiedDataset.

(** Sample inputs of the fusion. *)
Definition statistic (area : string) (t : Q) : TemperatureAggregator.stat :=
  {| TemperatureAggregator.planning_area := area;
     TemperatureAggregator.avg_temp := Some t;
     TemperatureAggregator.max_temp := Some t;
     TemperatureAggregator.station_count := 1;
     TemperatureAggregator.stations := [Some area] |}.

Definition profile (area : string) : ContextEnricher.features :=
  {| ContextEnricher.planning_area := Some area;
     ContextEnricher.green_ratio := 5 # 10;
     ContextEnricher.density_type := "Mixed";
     ContextEnricher.green_count := 1;
     ContextEnricher.comm_count := 1;
     ContextEnricher.res_count := 1 |}.

Lemma get_unified_dataset_outer_join_witness :
  exists rows,
    DataFusion.get_unified_dataset stable_pandas
      (Frame [statistic "BEDOK" (30 # 1)]) (Frame [profile "BEDOK"; profile "TUAS"])
      = Frame rows /\
    NoDup (map DataFusion.planning_area rows).
Proof.
  assert (Ht : NoDup (map DataFusion.temp_key
                        (rows_of (Frame [statistic "BEDOK" (30 # 1)])))).
  { apply NoDup_singleton. }
  assert (Hc : NoDup (map ContextEnricher.planning_area
                        (rows_of (Frame [profile "BEDOK"; profile "TUAS"])))).
  { simpl. apply NoDup_cons. split; [|apply NoDup_singleton].
    by intros ?%list_elem_of_singleton. }
  destruct (get_unified_dataset_outer_join stable_pandas _ _ Ht Hc) as [_ H].
  destruct (H eq_refl) as (rows & Hrows & Hdistinct & _).
  by exists rows.
Defined.

(** C3 as stated fails for a region that has a statistic and no context row:
    the outer merge leaves its green ratio and density missing; they are not
    0.0 and Unknown. *)
Lemma statistic_without_profile_has_no_context :
  DataFusion.get_unified_dataset stable_pandas
    (Frame [statistic "TUAS" (30 # 1)]) (Frame [profile "BEDOK"])
  = Frame [ {| DataFusion.planning_area := Some "TUAS";
               DataFusion.avg_temperature := Some (30 # 1);
               DataFusion.green_ratio := None;
               DataFusion.density_type := None |};
            {| DataFusion.planning_area := Some "BEDOK";
               DataFusion.avg_temperature := None;
               DataFusion.green_ratio := Some (5 # 10);
               DataFusion.density_type := Some "Mixed" |} ].
Proof. reflexivity. Qed.


(** ** aggregator.py *)

Lemma Qmax2_upper (x y : Q) : x <= Qmax2 x y /\ y <= Qmax2 x y.
Proof.
  unfold Qmax2. destruct (Qleb x y) eqn:E.
  - apply Qleb_le in E. split; [done|apply Qle_refl].
  - split; [apply Qle_refl|]. apply Qlt_le_weak, Qnot_le_lt.
    intros H. apply Qleb_le in H. congruence.
Qed.

Lemma Qmax2_choice (x y : Q) : Qmax2 x y = x \/ Qmax2 x y = y.
Proof. unfold Qmax2. destruct (Qleb x y); auto. Qed.

Lemma fold_Qmax2_spec (rest : list Q) (x : Q) :
  fold_left Qmax2 rest x ∈ x :: rest /\
  forall v, v ∈ x :: rest -> v <= fold_left Qmax2 rest x.
Proof.
  revert x. induction rest as [|y rest IH]; intros x; simpl.
  - split; [apply elem_of_cons; by left|].
    intros v Hv. apply list_elem_of_singleton in Hv as ->. apply Qle_refl.
  - destruct (IH (Qmax2 x y)) as [Hin Hmax]. split.
    + apply elem_of_cons in Hin as [Heq|Hin].
      * rewrite Heq. destruct (Qmax2_choice x y) as [-> | ->].
        -- apply elem_of_cons. by left.
        -- apply elem_of_cons. right. apply elem_of_cons. by left.
      * apply elem_of_cons. right. apply elem_of_cons. by right.
    + intros v Hv.
      assert (Qmax2 x y <= fold_left Qmax2 rest (Qmax2 x y)) as Htop.
      { apply Hmax. apply elem_of_cons. by left. }
      destruct (Qmax2_upper x y) as [Hx Hy].
      apply elem_of_cons in Hv as [->|Hv]; [by eapply Qle_trans|].
      apply elem_of_cons in Hv as [->|Hv]; [by eapply Qle_trans|].
      apply Hmax. apply elem_of_cons. by right.
Qed.

(** [Series.max()] of a non-empty column is one of its values and bounds
    them all. *)
Lemma maximum_spec (xs : list Q) :
  xs <> [] ->
  exists m, maximum xs = Some m /\ m ∈ xs /\ forall v, v ∈ xs -> v <= m.
Proof.
  destruct xs as [|x rest]; [done|]. intros _. simpl.
  eexists. split; [done|]. apply fold_Qmax2_spec.
Qed.

Lemma count_all_present {A} (l : list (option A)) :
  Forall is_Some l -> TemperatureAggregator.count l = length l.
Proof.
  unfold TemperatureAggregator.count.
  induction 1 as [|o l Ho _ IH]; [done|].
  rewrite filter_cons_True by done. simpl. by rewrite IH.
Qed.

Section AggregatorFacts.

Import TemperatureAggregator.

Variable Geometry : Type.
Variable contains : Geometry -> Q -> Q -> bool.
Variable network : nat -> OneMapClient.response Geometry.
Variable pd : pandas.

Abbreviation areas_of := (@OneMapClient.planning_areas Geometry).

(** The region a point is attributed to: the name of the first cached area
    that contains it, unless there is none or the name is empty. *)
Definition located (areas : list (OneMapClient.area Geometry)) (p : point)
  : option string :=
  let area := OneMapClient.first_containing Geometry contains areas (lat p) (lng p) in
  if truthy area then area else None.

(** The points attributed to region [k], in input order. *)
Definition contributing (areas : list (OneMapClient.area Geometry))
    (k : string) (points : list point) : list point :=
  filter (fun p => located areas p = Some k) points.

Fixpoint mapped_data (areas : list (OneMapClient.area Geometry))
    (points : list point) : list mapped :=
  match points with
  | [] => []
  | p :: rest =>
      match located areas p with
      | Some k =>
          {| m_planning_area := k; temperature := value p; station_name := name p |}
            :: mapped_data areas rest
      | None => mapped_data areas rest
      end
  end.

Lemma map_points_cached (self : OneMapClient.t Geometry) (points : list point) :
  areas_of self <> [] ->
  map_points Geometry contains network self points
    = (Returned (mapped_data (areas_of self) points), self).
Proof.
  intros H. induction points as [|p points IH]; simpl; [done|].
  rewrite resolve_cached by done. rewrite IH. unfold located.
  destruct (OneMapClient.first_containing _ _ _ _ _) as [a|]; simpl; [|done].
  by destruct (negb (String.eqb a "")).
Qed.

Lemma mapped_data_keys areas points (k : string) :
  k ∈ map m_planning_area (mapped_data areas points) <->
  exists p, p ∈ points /\ located areas p = Some k.
Proof.
  induction points as [|p points IH]; simpl.
  - rewrite elem_of_nil. split; [done|]. by intros (p & ?%elem_of_nil & _).
  - destruct (located areas p) as [k'|] eqn:Hp; simpl.
    + rewrite elem_of_cons, IH. split.
      * intros [->|(q & Hq & Hk)].
        -- exists p. split; [apply elem_of_cons; by left|done].
        -- exists q. split; [apply elem_of_cons; by right|done].
      * intros (q & [->|Hq]%elem_of_cons & Hk).
        -- left. congruence.
        -- right. by exists q.
    + rewrite IH. split.
      * intros (q & Hq & Hk). exists q. split; [apply elem_of_cons; by right|done].
      * intros (q & [->|Hq]%elem_of_cons & Hk); [congruence|]. by exists q.
Qed.

Lemma group_temperatures areas points (k : string) :
  map temperature (group k (mapped_data areas points))
    = map value (contributing areas k points).
Proof.
  unfold group, contributing. induction points as [|p points IH]; simpl; [done|].
  destruct (located areas p) as [k'|] eqn:Hp.
  - destruct (decide (k' = k)) as [->|Hne].
    + rewrite !filter_cons_True by done. simpl. by rewrite IH.
    + rewrite !filter_cons_False by (simpl; congruence). done.
  - rewrite filter_cons_False by congruence. done.
Qed.

Lemma group_stations areas points (k : string) :
  map station_name (group k (mapped_data areas points))
    = map name (contributing areas k points).
Proof.
  unfold group, contributing. induction points as [|p points IH]; simpl; [done|].
  destruct (located areas p) as [k'|] eqn:Hp.
  - destruct (decide (k' = k)) as [->|Hne].
    + rewrite !filter_cons_True by done. simpl. by rewrite IH.
    + rewrite !filter_cons_False by (simpl; congruence). done.
  - rewrite filter_cons_False by congruence. done.
Qed.

Lemma aggregate_keys (md : list mapped) :
  map planning_area (aggregate md) = sorted_keys (map m_planning_area md).
Proof. unfold aggregate. rewrite map_map. simpl. apply map_id. Qed.

(** The statistics of one region, in terms of the points attributed to
    it. *)
Definition summarises (areas : list (OneMapClient.area Geometry))
    (points : list point) (row : stat) : Prop :=
  let ps := contributing areas (planning_area row) points in
  ps <> [] /\
  avg_temp row = Some (np_round 1 (group_mean (map value ps))) /\
  ((length ps <= 1024)%nat ->
   Forall (fun p => Qabs (value p) <= 64) ps ->
   exists tenths : Z,
     avg_temp row = Some (binary64 (inject_Z tenths / 10)) /\
     Qabs (inject_Z tenths / 10 - Qmean (map value ps)) <= (1 # 20) + pow2 (-21)) /\
  (exists m, max_temp row = Some m /\ m ∈ map value ps /\
             forall v, v ∈ map value ps -> v <= m) /\
  station_count row = count (map name ps) /\
  (Forall (fun p => is_Some (name p)) ps -> station_count row = length ps) /\
  stations row = map name ps.

Lemma aggregate_summarises areas points (row : stat) :
  row ∈ aggregate (mapped_data areas points) -> summarises areas points row.
Proof.
  unfold aggregate. intros Hrow.
  apply list_elem_of_In, in_map_iff in Hrow as (k & <- & Hk).
  apply list_elem_of_In, elem_of_sorted_keys, mapped_data_keys in Hk
    as (p & Hp & Hpk).
  unfold summarises. simpl.
  rewrite group_temperatures, group_stations.
  assert (Hne : contributing areas k points <> []).
  { intros He. assert (p ∈ contributing areas k points) as Hin
        by by apply list_elem_of_filter.
    rewrite He in Hin. by apply elem_of_nil in Hin. }
  split; [done|]. split; [|split; [|split; [|split; [|split]]]]; try done.
  - unfold rounded_mean. by destruct (contributing areas k points).
  - intros Hlen Hvalues. apply rounded_mean_close.
    + by destruct (contributing areas k points).
    + by rewrite length_map.
    + by apply Forall_fmap.
  - apply maximum_spec. by destruct (contributing areas k points).
  - intros Hall. rewrite count_all_present, length_map; [done|].
    by apply Forall_fmap in Hall.
Qed.

(** With no points the result is the empty frame, whatever the client
    holds; the planning areas are not even loaded. *)
Lemma get_aggregated_data_no_points (self : OneMapClient.t Geometry) :
  get_aggregated_data Geometry contains network pd self []
    = (Returned Empty_DataFrame, self).
Proof. done. Qed.

(** The frame that is made of the points attributed to [areas]. *)
Definition aggregated (areas : list (OneMapClient.area Geometry))
    (points : list point) : DataFrame stat :=
  let md := mapped_data areas points in
  if negb (nonempty md) then Empty_DataFrame
  else Frame (sort_values pd max_temp (aggregate md)).

(** The frame of the aggregation under a filled cache. *)
Lemma get_aggregated_data_cached (self : OneMapClient.t Geometry) (points : list point) :
  areas_of self <> [] ->
  points <> [] ->
  get_aggregated_data Geometry contains network pd self points
    = (Returned (aggregated (areas_of self) points), self).
Proof.
  intros Hcached Hpoints. unfold get_aggregated_data, aggregated.
  rewrite (nonempty_true _ Hpoints). simpl.
  rewrite load_cached by done. rewrite map_points_cached by done.
  by destruct (negb (nonempty _)).
Qed.



(** The rows of the frame: the statistics of the regions, rearranged. *)
Lemma aggregated_rows (areas : list (OneMapClient.area Geometry)) (points : list point) :
  rows_of (aggregated areas points) ≡ₚ aggregate (mapped_data areas points).
Proof.
  unfold aggregated. destruct (mapped_data areas points) as [|m md] eqn:Hmd; [done|].
  simpl. apply sort_values_Permutation.
Qed.


End AggregatorFacts.

(** Two stations reporting 30 degrees: the first one read lies in WEST only,
    the second in EAST only. *)
Definition west_station : TemperatureAggregator.point :=
  {| TemperatureAggregator.lat := 1;
     TemperatureAggregator.lng := 1 # 2;
     TemperatureAggregator.value := 30 # 1;
     TemperatureAggregator.station_id := "S01";
     TemperatureAggregator.name := Some "West Road" |}.

Definition east_station : TemperatureAggregator.point :=
  {| TemperatureAggregator.lat := 1;
     TemperatureAggregator.lng := 5 # 2;
     TemperatureAggregator.value := 30 # 1;
     TemperatureAggregator.station_id := "S02";
     TemperatureAggregator.name := Some "East Road" |}.





(** * Further properties of the code *)

(** ** trigger_rules_enhanced.py: [evaluate_all] and [get_triggered_areas] *)

Section SortedByKey.

Context {A : Type}.
Variable key : A -> nat.

Abbreviation by_key := (fun x y : A => Nat.leb (key x) (key y)).

(** Insertion by a numeric key keeps the elements of a class in their order
    when the class has one key. *)
Lemma insertion_sort_class (P : A -> Prop) `{!forall x, Decision (P x)} (l : list A) :
  (forall a b, P a -> P b -> key a = key b) ->
  filter P (insertion_sort by_key l) = filter P l.
Proof.
  intros Hkey. apply insertion_sort_filter. intros a b Ha Hb.
  apply Nat.leb_le. by rewrite (Hkey a b).
Qed.

Lemma insertion_sort_key_sorted (l : list A) :
  StronglySorted (fun x y => (key x <= key y)%nat) (insertion_sort by_key l).
Proof.
  apply insertion_sort_StronglySorted.
  - intros x y z. apply Nat.le_trans.
  - intros x y H. by apply Nat.leb_le.
  - intros x y H. apply Nat.leb_gt in H. lia.
Qed.

End SortedByKey.

Section EvaluateAll.

Import EnhancedTriggerRules.

(** The priorities of a region that is in the table. *)
Definition risk_level (p : string) : Prop :=
  p = "CRITICAL" \/ p = "HIGH" \/ p = "MEDIUM" \/ p = "LOW" \/ p = "NORMAL".

Lemma risk_level_rank (f : finding) : risk_level (priority f) -> (rank f <= 4)%nat.
Proof.
  unfold rank. intros [-> | [-> | [-> | [-> | ->]]]]; vm_compute; lia.
Qed.

(** The priorities from the most to the least urgent, the priority of a
    region that is not found last. *)
Definition scale : list string :=
  ["CRITICAL"; "HIGH"; "MEDIUM"; "LOW"; "NORMAL"; "N/A"].

(** [p] stands at or before [q] on the scale. *)
Definition no_milder (p q : string) : Prop :=
  exists i j, scale !! i = Some p /\ scale !! j = Some q /\ (i <= j)%nat.

Lemma rank_on_scale (f : finding) :
  risk_level (priority f) \/ priority f = "N/A" ->
  scale !! rank f = Some (priority f).
Proof.
  unfold rank. intros [[-> | [-> | [-> | [-> | ->]]]] | ->]; reflexivity.
Qed.

(** The finding of a row without a name. *)
Definition unnamed : finding :=
  {| trigger := false; reason_ := not_found None; priority := "N/A"; details_ := None |}.

(** What a finding of a region in the table looks like: a risk level as
    priority, and details that name the region, repeat the three values of
    the row and give 'temperature' as source when there is a temperature
    and 'context_inference' when there is none. *)
Definition found (area : string) (row : unified) (f : finding) : Prop :=
  risk_level (priority f) /\
  exists d, details_ f = Some d /\
            planning_area d = area /\
            avg_temperature d = DataFusion.avg_temperature row /\
            green_ratio d = DataFusion.green_ratio row /\
            density_type d = DataFusion.density_type row /\
            data_source d = match avg_temperature d with
                            | Some _ => "temperature"
                            | None => "context_inference"
                            end.

Lemma evaluate_row_found area row : found area row (evaluate_row area row).
Proof.
  unfold found, evaluate_row, risk_level.
  destruct (DataFusion.avg_temperature row) as [temp|].
  - unfold _evaluate_with_temperature.
    destruct (Qleb TEMP_CRITICAL temp), (Qleb TEMP_HIGH temp),
      (lt_float (DataFusion.green_ratio row) GREEN_CRITICAL),
      (lt_float (DataFusion.green_ratio row) GREEN_LOW),
      (is_density (DataFusion.density_type row) "Commercial"),
      (is_density (DataFusion.density_type row) "Residential"); simpl;
      (split; [auto 6|]); eexists; (split; [done|]); simpl;
      by repeat (split; try done).
  - unfold _infer_from_context.
    destruct (lt_float (DataFusion.green_ratio row) GREEN_CRITICAL),
      (lt_float (DataFusion.green_ratio row) GREEN_LOW),
      (is_density (DataFusion.density_type row) "Commercial"),
      (is_density (DataFusion.density_type row) "Residential"); simpl;
      (split; [auto 6|]); eexists; (split; [done|]); simpl;
      by repeat (split; try done).
Qed.

(** The finding of a row of the table: the finding of a region that is not
    found when the row has no name, and otherwise the evaluation of the
    first row of that name. *)
Definition finding_of (table : list unified) (row : unified) (f : finding) : Prop :=
  (DataFusion.planning_area row = None /\ f = unnamed) \/
  (exists n first, DataFusion.planning_area row = Some n /\
                   first ∈ table /\
                   DataFusion.planning_area first = Some n /\
                   found n first f).

Lemma evaluate_area_of_row (table : list unified) (row : unified) :
  row ∈ table ->
  exists f, evaluate_area (Frame table) (DataFusion.planning_area row) = Returned f /\
            finding_of table row f.
Proof.
  intros Hrow.
  destruct (evaluate_area_cases table (DataFusion.planning_area row))
    as [(n & first & Hn & Hfirst & Hname & ->)|[Hno ->]].
  - eexists. split; [done|]. right. exists n, first.
    repeat split; try done; apply evaluate_row_found.
  - eexists. split; [done|].
    destruct (DataFusion.planning_area row) as [n|] eqn:Hn.
    + exfalso. apply Hno. split; [done|]. rewrite <- Hn.
      apply elem_of_keys. by exists row.
    + by left.
Qed.

(** The loop of [evaluate_all] collects the findings of the rows it is
    given, in their order. *)
Lemma evaluate_rows_each (df : DataFrame unified) (rows : list unified)
    (fs : list finding) :
  Forall2 (fun row f => evaluate_area df (DataFusion.planning_area row) = Returned f)
    rows fs ->
  evaluate_rows df rows = Returned fs.
Proof.
  induction 1 as [|row f rows fs Hf _ IH]; simpl; [done|]. by rewrite Hf, IH.
Qed.

Lemma findings_of_rows (table rows : list unified) :
  rows ⊆ table ->
  exists fs,
    Forall2 (fun row f =>
               evaluate_area (Frame table) (DataFusion.planning_area row) = Returned f /\
               finding_of table row f)
      rows fs.
Proof.
  induction rows as [|row rows IH]; intros Hsub.
  - exists []. constructor.
  - destruct IH as (fs & Hall).
    { intros r Hr. apply Hsub. apply elem_of_cons. by right. }
    destruct (evaluate_area_of_row table row) as (f & Hf & Hfound).
    { apply Hsub. apply elem_of_cons. by left. }
    exists (f :: fs). by constructor.
Qed.

(** The findings of the rows of a frame, in the order of the rows. *)
Lemma findings_of_frame (df : DataFrame unified) :
  exists fs,
    Forall2 (fun row f =>
               evaluate_area df (DataFusion.planning_area row) = Returned f /\
               finding_of (rows_of df) row f)
      (rows_of df) fs.
Proof.
  destruct df as [|table]; simpl.
  - exists []. constructor.
  - by apply findings_of_rows.
Qed.

Lemma findings_each (df : DataFrame unified) (rows : list unified) (fs : list finding) :
  Forall2 (fun row f =>
             evaluate_area df (DataFusion.planning_area row) = Returned f /\
             finding_of (rows_of df) row f) rows fs ->
  Forall2 (fun row f => evaluate_area df (DataFusion.planning_area row) = Returned f)
    rows fs.
Proof. intros H. eapply Forall2_impl; [exact H|]. by intros row f [? _]. Qed.

Lemma finding_of_on_scale (table : list unified) (row : unified) (f : finding) :
  finding_of table row f -> risk_level (priority f) \/ priority f = "N/A".
Proof.
  intros [[_ ->]|(n & first & _ & _ & _ & Hlevel & _)]; [by right|by left].
Qed.

Lemma Forall2_elem_of_r {A B} (P : A -> B -> Prop) (l : list A) (k : list B) (y : B) :
  Forall2 P l k -> y ∈ k -> exists x, x ∈ l /\ P x y.
Proof.
  induction 1 as [|x y' l k Hxy _ IH]; [by intros ?%elem_of_nil|].
  intros [->|Hy]%elem_of_cons.
  - exists x. split; [apply elem_of_cons; by left|done].
  - destruct (IH Hy) as (x' & Hx' & HP). exists x'. split; [apply elem_of_cons; by right|done].
Qed.

Lemma Forall2_elem_of_l {A B} (P : A -> B -> Prop) (l : list A) (k : list B) (x : A) :
  Forall2 P l k -> x ∈ l -> exists y, y ∈ k /\ P x y.
Proof.
  induction 1 as [|x' y l k Hxy _ IH]; [by intros ?%elem_of_nil|].
  intros [->|Hx]%elem_of_cons.
  - exists y. split; [apply elem_of_cons; by left|done].
  - destruct (IH Hx) as (y' & Hy' & HP). exists y'. split; [apply elem_of_cons; by right|done].
Qed.

(** X1.  [evaluate_all] never raises.  Let [fs] hold, row by row, what
    [evaluate_area] returns for the name of each row of the table.  The
    result is a rearrangement of [fs] in which no finding stands before a
    more urgent one, on the scale CRITICAL, HIGH, MEDIUM, LOW, NORMAL, N/A.
    A row without a name gets the finding of a region that is not found,
    with priority N/A; a row with a name gets one of the five risk
    levels. *)
Theorem evaluate_all_sorted_by_priority (df : DataFrame unified) :
  exists fs results,
    Forall2 (fun row f => evaluate_area df (DataFusion.planning_area row) = Returned f)
      (rows_of df) fs /\
    evaluate_all df = Returned results /\
    results ≡ₚ fs /\
    (forall l1 a l2 b l3,
        results = l1 ++ a :: l2 ++ b :: l3 -> no_milder (priority a) (priority b)) /\
    Forall2 (fun row f =>
               (DataFusion.planning_area row = None ->
                f = {| trigger := false; reason_ := not_found None;
                       priority := "N/A"; details_ := None |}) /\
               (is_Some (DataFusion.planning_area row) -> risk_level (priority f)))
      (rows_of df) fs.
Proof.
  destruct (findings_of_frame df) as (fs & Hof).
  pose proof (findings_each df _ fs Hof) as Heach.
  exists fs. unfold evaluate_all. rewrite (evaluate_rows_each df _ fs Heach).
  pose proof (insertion_sort_Permutation
                (fun x y => Nat.leb (rank x) (rank y)) fs) as Hperm.
  eexists. split; [done|]. split; [done|]. split; [done|]. split.
  - intros l1 a l2 b l3 Hresults.
    pose proof (insertion_sort_key_sorted rank fs) as Hsorted.
    rewrite Hresults in Hsorted. apply StronglySorted_pair in Hsorted.
    assert (Hon : forall f, f ∈ l1 ++ a :: l2 ++ b :: l3 ->
                            scale !! rank f = Some (priority f)).
    { intros f Hf. rewrite <- Hresults, Hperm in Hf.
      destruct (Forall2_elem_of_r _ _ _ _ Hof Hf) as (row & _ & _ & Hrow).
      by eapply rank_on_scale, finding_of_on_scale. }
    exists (rank a), (rank b). split; [|split; [|done]]; apply Hon.
    + apply elem_of_app. right. apply elem_of_cons. by left.
    + apply elem_of_app. right. apply elem_of_cons. right.
      apply elem_of_app. right. apply elem_of_cons. by left.
  - eapply Forall2_impl; [exact Hof|].
    intros row f [_ [[Hnone ->]|(n & first & Hn & _ & _ & Hlevel & _)]].
    + split; [done|]. rewrite Hnone. by intros [? [=]].
    + split; [by rewrite Hn|done].
Qed.

(** X2.  The sort of [evaluate_all] is stable: with [fs] as in X1, the
    findings of one priority stand in the result in the order of their
    rows in the table. *)
Theorem evaluate_all_keeps_table_order (df : DataFrame unified) (p : string) :
  exists fs results,
    Forall2 (fun row f => evaluate_area df (DataFusion.planning_area row) = Returned f)
      (rows_of df) fs /\
    evaluate_all df = Returned results /\
    filter (fun f => priority f = p) results = filter (fun f => priority f = p) fs.
Proof.
  destruct (findings_of_frame df) as (fs & Hof).
  pose proof (findings_each df _ fs Hof) as Heach.
  exists fs. unfold evaluate_all. rewrite (evaluate_rows_each df _ fs Heach).
  eexists. split; [done|]. split; [done|].
  apply insertion_sort_class. intros a b Ha Hb. unfold rank. by rewrite Ha, Hb.
Qed.

(** A table of four rows, the second without a name: its finding is the one
    of a region that is not found, and stands last. *)
Lemma evaluate_all_unnamed_row :
  let row name temp :=
    {| DataFusion.planning_area := name; DataFusion.avg_temperature := temp;
       DataFusion.green_ratio := Some (5 # 100);
       DataFusion.density_type := Some "Residential" |} in
  option_map (map priority)
    (match evaluate_all (Frame [ row (Some "BEDOK") None; row None (Some 31);
                                 row (Some "TUAS") (Some 31);
                                 row (Some "YISHUN") None ]) with
     | Returned results => Some results
     | Raised _ => None
     end)
  = Some ["HIGH"; "MEDIUM"; "MEDIUM"; "N/A"].
Proof. reflexivity. Qed.

(** [evaluate_all] returns the findings of the rows, rearranged. *)
Lemma evaluate_all_findings (df : DataFrame unified) :
  exists fs results,
    Forall2 (fun row f =>
               evaluate_area df (DataFusion.planning_area row) = Returned f /\
               finding_of (rows_of df) row f)
      (rows_of df) fs /\
    evaluate_all df = Returned results /\
    results ≡ₚ fs.
Proof.
  destruct (findings_of_frame df) as (fs & Hof).
  pose proof (findings_each df _ fs Hof) as Heach.
  exists fs. unfold evaluate_all. rewrite (evaluate_rows_each df _ fs Heach).
  eexists. split; [done|]. split; [done|]. apply insertion_sort_Permutation.
Qed.

Lemma evaluate_all_found (df : DataFrame unified) :
  exists results,
    evaluate_all df = Returned results /\
    Forall (fun f => exists row,
                       row ∈ rows_of df /\
                       evaluate_area df (DataFusion.planning_area row) = Returned f /\
                       finding_of (rows_of df) row f)
      results.
Proof.
  destruct (findings_of_frame df) as (fs & Hof).
  pose proof (findings_each df _ fs Hof) as Heach.
  unfold evaluate_all. rewrite (evaluate_rows_each df _ fs Heach).
  eexists. split; [done|]. rewrite insertion_sort_Permutation.
  apply Forall_forall. intros f Hf.
  destruct (Forall2_elem_of_r _ _ _ _ Hof Hf) as (row & Hrow & Heval & Hfound).
  by exists row.
Qed.

Lemma triggered_entries_each (rs : list finding) :
  Forall (fun f => is_Some (details_ f)) rs ->
  exists rows,
    triggered_entries rs = Returned rows /\
    Forall2 (fun f r => triggered_entry f = Returned r) rs rows.
Proof.
  induction 1 as [|f rs [d Hd] _ (rows & Hrows & Hall)]; simpl.
  - exists []. split; [done|]. constructor.
  - destruct (triggered_entry f) as [r|e] eqn:Hr.
    + rewrite Hrows. exists (r :: rows). split; [done|]. by constructor.
    + unfold triggered_entry in Hr. by rewrite Hd in Hr.
Qed.

Lemma filter_nil_Forall {A} (P : A -> Prop) `{!forall x, Decision (P x)} (l : list A) :
  filter P l = [] <-> Forall (fun x => ~ P x) l.
Proof.
  induction l as [|x l IH]; simpl; [split; [constructor|done]|].
  destruct (decide (P x)) as [HP|HP].
  - rewrite filter_cons_True by done. split; [done|].
    intros [Hx _]%Forall_cons. done.
  - rewrite filter_cons_False by done. rewrite IH. split.
    + intros Hl. by constructor.
    + by intros [_ Hl]%Forall_cons.
Qed.

(** X3.  [get_triggered_areas] never raises.  The frame is the column-less
    one exactly when no finding of [evaluate_all] is triggered.  Otherwise
    it has one row per triggered finding, in the order of [evaluate_all]:
    the row carries the priority and the reason of the finding, which is
    what [evaluate_area] returns for the region the row names; a row of the
    table has that name, and the temperature, green ratio and density of the
    row of the frame are those of [evaluate_area]'s row of the table; the
    source is 'temperature' when the row has a temperature and
    'context_inference' when it has none. *)
Theorem get_triggered_areas_rows (df : DataFrame unified) :
  exists results view,
    evaluate_all df = Returned results /\
    get_triggered_areas df = Returned view /\
    (view = Empty_DataFrame <-> Forall (fun f => trigger f = false) results) /\
    Forall2 (fun f r =>
               t_priority r = priority f /\
               t_reason r = reason_ f /\
               evaluate_area df (Some (t_planning_area r)) = Returned f /\
               t_data_source r = match t_temperature r with
                                 | Some _ => "temperature"
                                 | None => "context_inference"
                                 end /\
               exists first,
                 first ∈ rows_of df /\
                 DataFusion.planning_area first = Some (t_planning_area r) /\
                 t_temperature r = DataFusion.avg_temperature first /\
                 t_green_ratio r = DataFusion.green_ratio first /\
                 t_density_type r = DataFusion.density_type first)
      (filter (fun f => trigger f = true) results) (rows_of view).
Proof.
  destruct (evaluate_all_found df) as (results & Hresults & Hfound).
  exists results. unfold get_triggered_areas. rewrite Hresults.
  set (triggered := filter (fun f => trigger f = true) results).
  assert (Htriggered :
            Forall (fun f => exists n first,
                       evaluate_area df (Some n) = Returned f /\
                       first ∈ rows_of df /\
                       DataFusion.planning_area first = Some n /\
                       found n first f) triggered).
  { apply Forall_forall. intros f [Htrig Hf]%list_elem_of_filter.
    rewrite Forall_forall in Hfound.
    destruct (Hfound f Hf) as (row & _ & Heval & [[_ ->]|(n & first & Hn & H)]);
      [done|].
    exists n, first. split; [by rewrite <- Hn|exact H]. }
  assert (Hnone : triggered = [] <-> Forall (fun f => trigger f = false) results).
  { unfold triggered. rewrite filter_nil_Forall. apply Forall_iff.
    intros f. by destruct (trigger f). }
  destruct triggered as [|f0 rest] eqn:Ht; simpl.
  - exists Empty_DataFrame. simpl.
    split; [done|]. split; [done|]. split; [|constructor].
    split; [|done]. intros _. by apply Hnone.
  - destruct (triggered_entries_each (f0 :: rest)) as (rows & Hrows & Hall).
    { eapply Forall_impl; [exact Htriggered|].
      intros f (n & first & _ & _ & _ & _ & d & Hd & _). by exists d. }
    simpl in Hrows. rewrite Hrows. exists (Frame rows). simpl.
    split; [done|]. split; [done|]. split.
    { split; [done|]. intros H. apply Hnone in H. done. }
    clear Hrows Ht Hnone. revert Htriggered.
    induction Hall as [|f r fs rs Hfr _ IH]; intros Hfs; [constructor|].
    apply Forall_cons in Hfs as [(n & first & Heval & Hfirst & Hname & _ & d & Hd
                                   & Harea & Htemp & Hgreen & Hdensity & Hsource) Hfs].
    constructor; [|by apply IH].
    unfold triggered_entry in Hfr. rewrite Hd in Hfr. injection Hfr as <-.
    simpl. rewrite Harea. repeat (split; [done|]).
    exists first. by rewrite Htemp, Hgreen, Hdensity.
Qed.

End EvaluateAll.

(** ** onemap_client.py: loading and batch resolution *)

Section Loading.

Variable Geometry : Type.
Variable contains : Geometry -> Q -> Q -> bool.
Variable network : nat -> OneMapClient.response Geometry.

(** The dicts of a payload whose geometry parses. *)
Definition parsable (items : list (OneMapClient.item Geometry))
  : list (OneMapClient.item Geometry) :=
  filter (fun it => is_Some (OneMapClient.geojson it)) items.

(** A cached area made from a dict: its geometry is the parsed one, and its
    name is the dict's [pln_area_n], which may be null, or 'UNKNOWN' when
    the dict has no such key. *)
Definition cached_from (it : OneMapClient.item Geometry)
    (a : OneMapClient.area Geometry) : Prop :=
  OneMapClient.geojson it = Some (OneMapClient.geometry a) /\
  match OneMapClient.pln_area_n it with
  | None => OneMapClient.name a = Some "UNKNOWN"
  | Some None => OneMapClient.name a = None
  | Some (Some n) => OneMapClient.name a = Some n
  end.

Lemma parse_areas_dicts (items : list (OneMapClient.item Geometry)) :
  exists areas,
    OneMapClient.parse_areas Geometry (map OneMapClient.dict items) = Returned areas /\
    Forall2 cached_from (parsable items) areas.
Proof.
  unfold parsable. induction items as [|it items (areas & IH & Hall)]; simpl.
  - exists []. split; [done|]. constructor.
  - rewrite IH. destruct (OneMapClient.geojson it) as [g|] eqn:Hg.
    + rewrite filter_cons_True by (rewrite Hg; by eexists).
      eexists. split; [done|]. constructor; [|done].
      unfold cached_from, OneMapClient.name_of. simpl. split; [done|].
      by destruct (OneMapClient.pln_area_n it) as [[n|]|].
    + rewrite filter_cons_False by (rewrite Hg; by intros [? [=]]).
      by exists areas.
Qed.

Lemma parse_areas_not_a_dict (data : list (OneMapClient.element Geometry)) :
  OneMapClient.not_a_dict ∈ data ->
  OneMapClient.parse_areas Geometry data = Raised AttributeError.
Proof.
  induction data as [|e data IH]; [by intros ?%elem_of_nil|].
  intros [<-|Hin]%elem_of_cons; [done|].
  destruct e as [it|]; simpl; [|done]. by rewrite IH.
Qed.

Lemma load_empty_payload
    (self : OneMapClient.t Geometry) (data : list (OneMapClient.element Geometry))
    (areas : list (OneMapClient.area Geometry)) :
  OneMapClient.planning_areas self = [] ->
  network (OneMapClient.requests self) = OneMapClient.Payload data ->
  OneMapClient.parse_areas Geometry data = Returned areas ->
  OneMapClient.load_planning_areas Geometry network self
    = (Returned tt,
       {| OneMapClient.planning_areas := areas;
          OneMapClient.requests := S (OneMapClient.requests self) |}).
Proof.
  intros Hempty Hnet Hparse. unfold OneMapClient.load_planning_areas.
  by rewrite Hempty, Hnet, Hparse.
Qed.

Lemma load_empty_failed (self : OneMapClient.t Geometry) :
  OneMapClient.planning_areas self = [] ->
  network (OneMapClient.requests self) = OneMapClient.RequestFailed ->
  OneMapClient.load_planning_areas Geometry network self
    = (Raised RequestException,
       {| OneMapClient.planning_areas := [];
          OneMapClient.requests := S (OneMapClient.requests self) |}).
Proof.
  intros Hempty Hnet. unfold OneMapClient.load_planning_areas.
  by rewrite Hempty, Hnet.
Qed.

(** X4.  A load on an empty cache that the network answers makes one
    request.  When every element of the payload is a dict, it caches one
    area per dict whose geometry parses, in payload order, and skips the
    others without ending the load; the cached name is the dict's
    [pln_area_n], null included, and 'UNKNOWN' only for a dict without
    that key.  When some element is not a dict, the load raises
    [AttributeError] and caches nothing. *)
Theorem load_planning_areas_skips_malformed
    (self : OneMapClient.t Geometry) (data : list (OneMapClient.element Geometry)) :
  OneMapClient.planning_areas self = [] ->
  network (OneMapClient.requests self) = OneMapClient.Payload data ->
  (forall items,
      data = map OneMapClient.dict items ->
      exists loaded,
        OneMapClient.load_planning_areas Geometry network self = (Returned tt, loaded) /\
        OneMapClient.requests loaded = S (OneMapClient.requests self) /\
        Forall2 (fun it a =>
                   OneMapClient.geojson it = Some (OneMapClient.geometry a) /\
                   match OneMapClient.pln_area_n it with
                   | None => OneMapClient.name a = Some "UNKNOWN"
                   | Some None => OneMapClient.name a = None
                   | Some (Some n) => OneMapClient.name a = Some n
                   end)
          (filter (fun it => is_Some (OneMapClient.geojson it)) items)
          (OneMapClient.planning_areas loaded)) /\
  (OneMapClient.not_a_dict ∈ data ->
   OneMapClient.load_planning_areas Geometry network self
     = (Raised AttributeError,
        {| OneMapClient.planning_areas := [];
           OneMapClient.requests := S (OneMapClient.requests self) |})).
Proof.
  intros Hempty Hnet. split.
  - intros items ->. destruct (parse_areas_dicts items) as (areas & Hparse & Hall).
    rewrite (load_empty_payload self _ areas) by done.
    eexists. split; [done|]. split; [done|]. exact Hall.
  - intros Hin. unfold OneMapClient.load_planning_areas.
    by rewrite Hempty, Hnet, parse_areas_not_a_dict.
Qed.

(** X5.  Nothing is remembered of a load that cached no area.  When the
    request fails the exception reaches the caller and the cache stays
    empty; when the payload holds no parsable item the load returns
    normally with an empty cache.  In both cases the next load asks the
    network again and caches what it then answers. *)
Theorem load_planning_areas_retries
    (self : OneMapClient.t Geometry) (data : list (OneMapClient.element Geometry))
    (areas : list (OneMapClient.area Geometry)) :
  OneMapClient.planning_areas self = [] ->
  network (OneMapClient.requests self) = OneMapClient.RequestFailed \/
  (exists empty_data,
      network (OneMapClient.requests self)
        = OneMapClient.Payload (map OneMapClient.dict empty_data) /\
      parsable empty_data = []) ->
  network (S (OneMapClient.requests self)) = OneMapClient.Payload data ->
  OneMapClient.parse_areas Geometry data = Returned areas ->
  exists result after,
    OneMapClient.load_planning_areas Geometry network self = (result, after) /\
    (network (OneMapClient.requests self) = OneMapClient.RequestFailed ->
     result = Raised RequestException) /\
    OneMapClient.planning_areas after = [] /\
    OneMapClient.load_planning_areas Geometry network after
      = (Returned tt,
         {| OneMapClient.planning_areas := areas;
            OneMapClient.requests := S (S (OneMapClient.requests self)) |}).
Proof.
  intros Hempty Hfirst Hsecond Hparse.
  destruct Hfirst as [Hfail|(empty_data & Hpayload & Hnone)].
  - rewrite load_empty_failed by done. eexists _, _. split; [done|].
    split; [done|]. split; [done|].
    by rewrite (load_empty_payload _ data areas).
  - destruct (parse_areas_dicts empty_data) as (none & Hparsed & Hall).
    rewrite Hnone in Hall. apply Forall2_nil_inv_l in Hall as ->.
    rewrite (load_empty_payload self _ []) by done.
    eexists _, _. split; [done|]. split; [congruence|]. split; [done|].
    by rewrite (load_empty_payload _ data areas).
Qed.

(** The lazy load of [get_planning_area]. *)
Lemma get_planning_area_lazy
    (self : OneMapClient.t Geometry) (data : list (OneMapClient.element Geometry))
    (areas : list (OneMapClient.area Geometry)) (lat lon lat' lon' : Q) :
  OneMapClient.planning_areas self = [] ->
  network (OneMapClient.requests self) = OneMapClient.Payload data ->
  OneMapClient.parse_areas Geometry data = Returned areas ->
  areas <> [] ->
  let loaded := {| OneMapClient.planning_areas := areas;
                   OneMapClient.requests := S (OneMapClient.requests self) |} in
  OneMapClient.get_planning_area Geometry contains network self lat lon
    = (Returned (OneMapClient.first_containing Geometry contains areas lat lon), loaded) /\
  OneMapClient.get_planning_area Geometry contains network loaded lat' lon'
    = (Returned (OneMapClient.first_containing Geometry contains areas lat' lon'), loaded).
Proof.
  intros Hempty Hnet Hparse Hparsed loaded. split.
  - unfold OneMapClient.get_planning_area, OneMapClient.load_planning_areas.
    by rewrite Hempty, Hnet, Hparse.
  - by rewrite resolve_cached.
Qed.

(** X6.  [get_planning_area] on an empty cache loads the planning areas
    itself: it makes one request, resolves the point against what was
    loaded, and leaves the areas cached, so that the next call resolves
    against the same areas without a request. *)
Theorem get_planning_area_loads_once
    (self : OneMapClient.t Geometry) (data : list (OneMapClient.element Geometry))
    (areas : list (OneMapClient.area Geometry)) (lat lon lat' lon' : Q) :
  OneMapClient.planning_areas self = [] ->
  network (OneMapClient.requests self) = OneMapClient.Payload data ->
  OneMapClient.parse_areas Geometry data = Returned areas ->
  areas <> [] ->
  let loaded := {| OneMapClient.planning_areas := areas;
                   OneMapClient.requests := S (OneMapClient.requests self) |} in
  OneMapClient.get_planning_area Geometry contains network self lat lon
    = (Returned (OneMapClient.first_containing Geometry contains areas lat lon), loaded) /\
  OneMapClient.get_planning_area Geometry contains network loaded lat' lon'
    = (Returned (OneMapClient.first_containing Geometry contains areas lat' lon'), loaded).
Proof. apply get_planning_area_lazy. Qed.

(** The result list of [map_points] for points resolved against [areas]. *)
Definition resolved_against (areas : list (OneMapClient.area Geometry))
    (p : OneMapClient.point_arg) (r : OneMapClient.mapped_point) : Prop :=
  match p with
  | OneMapClient.dict_point lat lon | OneMapClient.tuple_point lat lon =>
      OneMapClient.lat r = lat /\ OneMapClient.lon r = lon /\
      OneMapClient.planning_area r
        = OneMapClient.first_containing Geometry contains areas lat lon
  end.

Lemma map_points_cached_batch
    (self : OneMapClient.t Geometry) (points : list OneMapClient.point_arg) :
  OneMapClient.planning_areas self <> [] ->
  exists results,
    OneMapClient.map_points Geometry contains network self points
      = (Returned results, self) /\
    Forall2 (resolved_against (OneMapClient.planning_areas self)) points results.
Proof.
  intros Hcached. induction points as [|p points (results & IH & Hall)]; simpl.
  - exists []. split; [done|]. constructor.
  - destruct p as [lat lon|lat lon]; rewrite resolve_cached by done; rewrite IH;
      eexists; (split; [done|]); by constructor.
Qed.

(** X7.  With planning areas cached, [map_points] makes no request and
    returns one dict per input point, in input order, dicts and tuples
    alike: the point's own coordinates and the name of the first cached
    area containing it, or [None] for a point outside every area (such
    points are kept, not dropped). *)
Theorem map_points_one_result_per_point
    (self : OneMapClient.t Geometry) (points : list OneMapClient.point_arg) :
  OneMapClient.planning_areas self <> [] ->
  exists results,
    OneMapClient.map_points Geometry contains network self points
      = (Returned results, self) /\
    length results = length points /\
    Forall2 (resolved_against (OneMapClient.planning_areas self)) points results.
Proof.
  intros Hcached.
  destruct (map_points_cached_batch self points Hcached) as (results & Hcall & Hall).
  exists results. split; [done|]. split; [|done].
  symmetry. by eapply Forall2_length.
Qed.

(** X8.  [map_points] on an empty cache: with no points nothing is
    requested; otherwise the first point triggers the load, and when that
    load caches at least one area the whole batch costs that one request and
    every point is resolved against the loaded areas; when the request fails
    the batch raises and returns no partial list. *)
Theorem map_points_loads_at_first_point
    (self : OneMapClient.t Geometry) (p : OneMapClient.point_arg)
    (points : list OneMapClient.point_arg) :
  OneMapClient.planning_areas self = [] ->
  OneMapClient.map_points Geometry contains network self [] = (Returned [], self) /\
  (network (OneMapClient.requests self) = OneMapClient.RequestFailed ->
   (OneMapClient.map_points Geometry contains network self (p :: points)).1
     = Raised RequestException) /\
  (forall data areas,
      network (OneMapClient.requests self) = OneMapClient.Payload data ->
      OneMapClient.parse_areas Geometry data = Returned areas ->
      areas <> [] ->
      exists results,
        OneMapClient.map_points Geometry contains network self (p :: points)
          = (Returned results,
             {| OneMapClient.planning_areas := areas;
                OneMapClient.requests := S (OneMapClient.requests self) |}) /\
        Forall2 (resolved_against areas) (p :: points) results).
Proof.
  intros Hempty. split; [done|]. split.
  - intros Hfail. simpl.
    unfold OneMapClient.get_planning_area, OneMapClient.load_planning_areas.
    rewrite Hempty, Hfail. by destruct p.
  - intros data areas Hnet Hparse Hparsed.
    set (loaded := {| OneMapClient.planning_areas := areas;
                      OneMapClient.requests := S (OneMapClient.requests self) |}).
    destruct (map_points_cached_batch loaded points Hparsed) as (results & Hrest & Hall).
    simpl.
    destruct p as [lat lon|lat lon];
      rewrite (proj1 (get_planning_area_lazy self data areas lat lon lat lon
                        Hempty Hnet Hparse Hparsed));
      fold loaded; rewrite Hrest; eexists; (split; [done|]); by constructor.
Qed.

End Loading.

(** ** dashboard.py and geo_enhanced.py *)

Section Hotspot.

Import TemperatureAggregator.

Lemma hottest_first_maximum (before mid points : list point) (best : point) :
  Forall (fun p => value p < value best) before ->
  Forall (fun p => value p <= value best) mid ->
  exists l1 l2,
    before ++ best :: mid ++ points = l1 ++ Dashboard.hottest best points :: l2 /\
    Forall (fun p => value p < value (Dashboard.hottest best points)) l1 /\
    Forall (fun p => value p <= value (Dashboard.hottest best points)) l2.
Proof.
  revert before mid best. induction points as [|p points IH]; intros before mid best Hb Hm.
  - simpl. exists before, mid. by rewrite app_nil_r.
  - simpl. destruct (Qltb (value best) (value p)) eqn:E.
    + apply Qltb_lt in E.
      destruct (IH (before ++ best :: mid) [] p) as (l1 & l2 & Heq & H1 & H2).
      * apply Forall_app. split; [|constructor; [done|]].
        -- eapply Forall_impl; [exact Hb|]. intros q Hq. by apply Qlt_trans with (value best).
        -- eapply Forall_impl; [exact Hm|]. intros q Hq.
           by apply Qle_lt_trans with (value best).
      * constructor.
      * exists l1, l2. split; [|done]. rewrite <- Heq. simpl.
        by rewrite <- app_assoc.
    + assert (value p <= value best) as Hp.
      { apply Qnot_lt_le. intros H. apply Qltb_lt in H. congruence. }
      destruct (IH before (mid ++ [p]) best) as (l1 & l2 & Heq & H1 & H2).
      * done.
      * apply Forall_app. split; [done|]. by constructor.
      * exists l1, l2. split; [|done]. rewrite <- Heq.
        by rewrite <- (app_assoc mid).
Qed.

(** X9.  The hotspot of the dashboard is the first of the hottest stations:
    every station read before it is strictly cooler and none after it is
    hotter, and its own name and value are shown.  Without stations the
    dashboard shows 'N/A' and 0. *)
Theorem hotspot_is_first_maximum (points : list point) :
  (points = [] -> Dashboard.hotspot points = (Some "N/A", 0)) /\
  (points <> [] ->
   exists l1 h l2,
     points = l1 ++ h :: l2 /\
     Dashboard.hotspot points = (name h, value h) /\
     Forall (fun p => value p < value h) l1 /\
     Forall (fun p => value p <= value h) l2).
Proof.
  split; [by intros ->|].
  destruct points as [|p points]; [done|]. intros _.
  destruct (hottest_first_maximum [] [] points p) as (l1 & l2 & Heq & H1 & H2);
    [constructor..|].
  exists l1, (Dashboard.hottest p points), l2. by repeat split.
Qed.

End Hotspot.

Section RiskOverlay.

Import EnhancedTriggerRules.

(** The area a finding is about. *)
Definition area_of (r : finding) : string :=
  match details_ r with Some d => planning_area d | None => "" end.

(** The dict built from findings whose priority depends on the area only. *)
Lemma risk_data_from_lookup (level : string -> string) (results : list finding)
    (acc : gmap string string) :
  Forall (fun r => is_Some (details_ r) /\ priority r = level (area_of r)) results ->
  exists risk_data,
    Dashboard.risk_data_from acc results = Returned risk_data /\
    forall area,
      (area ∈ map area_of results -> risk_data !! area = Some (level area)) /\
      (area ∉ map area_of results -> risk_data !! area = acc !! area).
Proof.
  intros Hall. revert acc.
  induction Hall as [|r results [[d Hd] Hp] _ IH]; intros acc; simpl.
  - exists acc. split; [done|]. intros area. split; [|done].
    by intros ?%elem_of_nil.
  - rewrite Hd.
    assert (Hr : area_of r = planning_area d) by (unfold area_of; by rewrite Hd).
    destruct (IH (<[planning_area d := priority r]> acc))
      as (risk_data & -> & Hlookup).
    exists risk_data. split; [done|]. intros area.
    destruct (Hlookup area) as [Hin Hout]. rewrite Hr. split.
    + intros [->|Hrest]%elem_of_cons.
      * destruct (decide (planning_area d ∈ map area_of results)) as [Hk|Hk].
        -- by apply Hin.
        -- rewrite Hout by done. rewrite lookup_insert_eq. by rewrite Hp, Hr.
      * by apply Hin.
    + intros [Hne Hrest]%not_elem_of_cons.
      rewrite Hout by done. by rewrite lookup_insert_ne.
Qed.

(** The priority that the table gives a region. *)
Definition level_in (df : DataFrame unified) (area : string) : string :=
  match evaluate_area df (Some area) with
  | Returned f => priority f
  | Raised _ => ""
  end.

(** Every row of the table has a name. *)
Definition named (df : DataFrame unified) : Prop :=
  Forall (fun row => is_Some (DataFusion.planning_area row)) (rows_of df).

Lemma evaluate_all_levels (df : DataFrame unified) :
  named df ->
  exists results,
    evaluate_all df = Returned results /\
    (forall area, area ∈ map area_of results <->
                  Some area ∈ map DataFusion.planning_area (rows_of df)) /\
    Forall (fun r => is_Some (details_ r) /\ priority r = level_in df (area_of r) /\
                     risk_level (priority r)) results.
Proof.
  intros Hnamed. unfold named in Hnamed. rewrite Forall_forall in Hnamed.
  destruct (evaluate_all_findings df) as (fs & results & Hof & Hresults & Hperm).
  assert (Hrow : forall row f,
             row ∈ rows_of df ->
             evaluate_area df (DataFusion.planning_area row) = Returned f /\
             finding_of (rows_of df) row f ->
             exists n d, DataFusion.planning_area row = Some n /\
                         details_ f = Some d /\ area_of f = n /\
                         evaluate_area df (Some n) = Returned f /\
                         risk_level (priority f)).
  { intros row f Hin [Heval [[Hnone _]|(n & first & Hn & _ & _ & Hlevel & d & Hd & Hname & _)]].
    - destruct (Hnamed row Hin) as [n Hn]. congruence.
    - exists n, d. unfold area_of. rewrite Hd, <- Hn. by repeat split. }
  exists results. split; [done|]. split.
  - intros area. rewrite (Permutation_map area_of Hperm), !elem_of_keys. split.
    + intros (f & Hf & Harea).
      destruct (Forall2_elem_of_r _ _ _ _ Hof Hf) as (row & Hin & H).
      destruct (Hrow row f Hin H) as (n & d & Hn & _ & Hname & _).
      exists row. split; [done|]. congruence.
    + intros (row & Hin & Harea).
      destruct (Forall2_elem_of_l _ _ _ _ Hof Hin) as (f & Hf & H).
      destruct (Hrow row f Hin H) as (n & d & Hn & _ & Hname & _).
      exists f. split; [done|]. congruence.
  - rewrite Hperm. apply Forall_forall. intros f Hf.
    destruct (Forall2_elem_of_r _ _ _ _ Hof Hf) as (row & Hin & H).
    destruct (Hrow row f Hin H) as (n & d & Hn & Hd & Hname & Heval & Hlevel).
    split; [by exists d|]. split; [|done].
    unfold level_in. by rewrite Hname, Heval.
Qed.

(** The risk dict built from the findings of a table whose rows have
    names. *)
Lemma risk_data_lookup (df : DataFrame unified) :
  named df ->
  exists results risk_data,
    evaluate_all df = Returned results /\
    Dashboard.risk_data_from ∅ results = Returned risk_data /\
    forall area,
      (Some area ∈ map DataFusion.planning_area (rows_of df) ->
       exists f, evaluate_area df (Some area) = Returned f /\
                 risk_level (priority f) /\
                 risk_data !! area = Some (priority f)) /\
      (Some area ∉ map DataFusion.planning_area (rows_of df) ->
       risk_data !! area = None).
Proof.
  intros Hnamed.
  destruct (evaluate_all_levels df Hnamed) as (results & Hresults & Hareas & Hall).
  destruct (risk_data_from_lookup (level_in df) results ∅) as (risk_data & Hdict & Hlookup).
  { eapply Forall_impl; [exact Hall|]. by intros r (H1 & H2 & _). }
  exists results, risk_data. split; [done|]. split; [done|]. intros area.
  destruct (Hlookup area) as [Hin Hout]. split.
  - intros Harea. apply Hareas in Harea as Hkey.
    rewrite (Hin Hkey).
    apply elem_of_keys in Hkey as (r & Hr & Hrarea).
    rewrite Forall_forall in Hall. destruct (Hall r Hr) as (_ & Hp & Hlevel).
    rewrite Hrarea in Hp. unfold level_in in *.
    destruct (evaluate_area df (Some area)) as [f|e] eqn:Heval.
    + exists f. split; [done|]. split; [|done]. by rewrite <- Hp.
    + exfalso. rewrite Hp in Hlevel. by destruct Hlevel as [H|[H|[H|[H|H]]]].
  - intros Harea. rewrite Hout; [apply lookup_empty|]. by rewrite Hareas.
Qed.

(** One finding without details makes the comprehension raise. *)
Lemma risk_data_from_raises (results : list finding) (acc : gmap string string) :
  (exists r, r ∈ results /\ details_ r = None) ->
  Dashboard.risk_data_from acc results = Raised (KeyError "planning_area").
Proof.
  intros (r & Hr & Hnone). revert acc.
  induction results as [|r' results IH]; intros acc; [by apply elem_of_nil in Hr|].
  simpl. destruct (details_ r') as [d|] eqn:Hd; [|done].
  apply elem_of_cons in Hr as [->|Hr]; [congruence|]. by apply IH.
Qed.

(** A row without a name leaves a finding without details among the
    findings of [evaluate_all]. *)
Lemma evaluate_all_unnamed (df : DataFrame unified) :
  (exists row, row ∈ rows_of df /\ DataFusion.planning_area row = None) ->
  exists results,
    evaluate_all df = Returned results /\
    exists r, r ∈ results /\ details_ r = None.
Proof.
  intros (row & Hin & Hnone).
  destruct (evaluate_all_findings df) as (fs & results & Hof & Hresults & Hperm).
  exists results. split; [done|].
  destruct (Forall2_elem_of_l _ _ _ _ Hof Hin) as (f & Hf & _ & Hfound).
  exists f. rewrite Hperm. split; [done|].
  destruct Hfound as [[_ ->]|(n & first & Hn & _)]; [done|congruence].
Qed.

(** X10.  The risk dict of [map_content].  When every row of the table has
    a name, the dict is built without a [KeyError]: it has exactly the
    regions of the table as keys, and the value of a region is the priority
    of its evaluation, whichever of its rows the entry came from.  When a
    row has no name, its finding has no details and building the dict
    raises [KeyError('planning_area')]. *)
Theorem risk_data_of_table (df : DataFrame unified) :
  exists results,
    evaluate_all df = Returned results /\
    (Forall (fun row => is_Some (DataFusion.planning_area row)) (rows_of df) ->
     exists risk_data,
       Dashboard.risk_data_from ∅ results = Returned risk_data /\
       forall area,
         (Some area ∈ map DataFusion.planning_area (rows_of df) ->
          exists f, evaluate_area df (Some area) = Returned f /\
                    risk_level (priority f) /\
                    risk_data !! area = Some (priority f)) /\
         (Some area ∉ map DataFusion.planning_area (rows_of df) ->
          risk_data !! area = None)) /\
    ((exists row, row ∈ rows_of df /\ DataFusion.planning_area row = None) ->
     Dashboard.risk_data_from ∅ results = Raised (KeyError "planning_area")).
Proof.
  destruct (evaluate_all_findings df) as (fs & results & _ & Hresults & _).
  exists results. split; [done|]. split.
  - intros Hnamed.
    destruct (risk_data_lookup df Hnamed) as (results' & risk_data & H1 & H2 & H3).
    rewrite Hresults in H1. injection H1 as <-. by exists risk_data.
  - intros Hrow.
    destruct (evaluate_all_unnamed df Hrow) as (results' & H1 & H2).
    rewrite Hresults in H1. injection H1 as <-. by apply risk_data_from_raises.
Qed.

End RiskOverlay.

Section MapContent.

Import EnhancedTriggerRules.

Variable Geometry : Type.
Variable network : nat -> OneMapClient.response Geometry.

(** A risk level has a palette colour of its own, none of them the gray of
    'NO_DATA'. *)
Lemma risk_level_colour (p : string) :
  risk_level p ->
  exists c, GeoEnhanced.RISK_COLORS !! p = Some c /\ c <> "#808080".
Proof.
  intros [-> | [-> | [-> | [-> | ->]]]]; eexists; (split; [by vm_compute|done]).
Qed.

(** How the overlay shows one cached area. *)
Definition shown (df : DataFrame unified) (area : OneMapClient.area Geometry)
    (ft : GeoEnhanced.feature Geometry) : Prop :=
  GeoEnhanced.pln_area_n ft = OneMapClient.name area /\
  GeoEnhanced.geometry ft = OneMapClient.geometry area /\
  (OneMapClient.name area ∈ map DataFusion.planning_area (rows_of df) ->
   exists f, evaluate_area df (OneMapClient.name area) = Returned f /\
             GeoEnhanced.priority ft = priority f /\
             GeoEnhanced.RISK_COLORS !! priority f
               = Some (GeoEnhanced.style_function Geometry ft) /\
             GeoEnhanced.style_function Geometry ft <> "#808080") /\
  (OneMapClient.name area ∉ map DataFusion.planning_area (rows_of df) ->
   GeoEnhanced.priority ft = "NO_DATA" /\
   GeoEnhanced.style_function Geometry ft = "#808080").

(** X11.  With planning areas cached, [map_content] does not reload them.
    When a row of the table has no name it raises
    [KeyError('planning_area')].  When every row has a name it raises
    nothing: for a table without rows the map has no overlay; otherwise the
    overlay has one feature per cached area, in cache order: an area of the
    table carries the priority of its evaluation and that priority's
    palette colour, which is never gray; an area that is not in the table
    carries 'NO_DATA' and gray. *)
Theorem map_content_overlay (df : DataFrame unified)
    (onemap_client : OneMapClient.t Geometry)
    (points : list TemperatureAggregator.point) :
  OneMapClient.planning_areas onemap_client <> [] ->
  ((exists row, row ∈ rows_of df /\ DataFusion.planning_area row = None) ->
   Dashboard.map_content Geometry network df onemap_client points
     = (Raised (KeyError "planning_area"), onemap_client)) /\
  (Forall (fun row => is_Some (DataFusion.planning_area row)) (rows_of df) ->
   exists m,
     Dashboard.map_content Geometry network df onemap_client points
       = (Returned m, onemap_client) /\
     (rows_of df = [] -> GeoEnhanced.overlay m = None) /\
     (rows_of df <> [] ->
      exists features,
        GeoEnhanced.overlay m = Some features /\
        Forall2 (shown df) (OneMapClient.planning_areas onemap_client) features)).
Proof.
  intros Hcached. unfold Dashboard.map_content.
  rewrite (nonempty_true _ Hcached). simpl. split.
  { intros Hrow. destruct (evaluate_all_unnamed df Hrow) as (results & -> & Hr).
    by rewrite risk_data_from_raises. }
  intros Hnamed.
  destruct (risk_data_lookup df Hnamed) as (results & risk_data & -> & -> & Hlookup).
  eexists. split; [done|].
  unfold GeoEnhanced.generate_heatmap_with_planning_areas.
  rewrite (nonempty_true _ Hcached). simpl.
  destruct (decide (rows_of df = [])) as [Hrows|Hrows].
  - split; [|done]. intros _.
    assert (risk_data = ∅) as ->.
    { apply map_eq. intros area. rewrite lookup_empty.
      apply Hlookup. rewrite Hrows. simpl. apply not_elem_of_nil. }
    rewrite bool_decide_eq_true_2 by done. simpl.
    unfold GeoEnhanced.generate_heatmap. by destruct (negb (nonempty points)).
  - split; [done|]. intros _.
    assert (risk_data <> ∅) as Hne.
    { intros ->. destruct (rows_of df) as [|row0 rows] eqn:Hdf; [done|].
      apply Forall_cons in Hnamed as [[n Hn] _].
      destruct (Hlookup n) as [Hin _].
      destruct Hin as (f & _ & _ & Hf); [rewrite <- Hn; simpl; apply elem_of_cons; by left|].
      by rewrite lookup_empty in Hf. }
    rewrite bool_decide_eq_false_2 by done. simpl.
    eexists. split; [done|]. clear Hcached.
    induction (OneMapClient.planning_areas onemap_client) as [|area areas IH];
      simpl; constructor; [|done].
    unfold shown, GeoEnhanced.style_function. simpl.
    split; [done|]. split; [done|].
    destruct (OneMapClient.name area) as [n|]; simpl.
    + destruct (Hlookup n) as [Hin Hout]. split.
      * intros Harea. destruct (Hin Harea) as (f & Heval & Hlevel & ->).
        exists f. split; [done|]. simpl. split; [done|].
        destruct (risk_level_colour _ Hlevel) as (c & -> & Hc). done.
      * intros Harea. rewrite (Hout Harea). simpl. split; [done|]. by vm_compute.
    + split.
      * intros (row & Hrow & Hnone)%elem_of_keys.
        unfold named in Hnamed. rewrite Forall_forall in Hnamed.
        destruct (Hnamed row Hrow) as [n Hn]. congruence.
      * intros _. split; [done|]. by vm_compute.
Qed.

End MapContent.

(** ** context_enricher.py: density classes and green ratios *)

Section DensityClasses.

Import ContextEnricher.

Lemma ratio_above (c t : nat) :
  t <> 0%nat -> (6 # 10 < Qnat c / Qnat t <-> (6 * t < 10 * c)%nat).
Proof.
  intros Ht. destruct t as [|t]; [done|].
  unfold Qnat, Qdiv, Qinv, Qmult, Qlt. simpl. lia.
Qed.

Lemma ratio_below (c t : nat) :
  t <> 0%nat -> (Qnat c / Qnat t < 4 # 10 <-> (10 * c < 4 * t)%nat).
Proof.
  intros Ht. destruct t as [|t]; [done|].
  unfold Qnat, Qdiv, Qinv, Qmult, Qlt. simpl. lia.
Qed.

Lemma determine_density_cases (c r : nat) :
  determine_density c r =
    if decide (c + r = 0)%nat then "Unknown/Low Density"
    else if decide (3 * r < 2 * c)%nat then "Commercial"
    else if decide (3 * c < 2 * r)%nat then "Residential"
    else "Mixed".
Proof.
  unfold determine_density.
  destruct (Nat.eqb_spec (c + r) 0) as [H0|H0]; destruct (decide (c + r = 0)%nat);
    try done.
  destruct (Qltb (6 # 10) (Qnat c / Qnat (c + r))) eqn:E1.
  - apply Qltb_lt, ratio_above in E1; [|done].
    destruct (decide (3 * r < 2 * c)%nat); [done|lia].
  - assert (~ (6 * (c + r) < 10 * c)%nat) as H1.
    { intros H. apply ratio_above, Qltb_lt in H; [congruence|done]. }
    destruct (decide (3 * r < 2 * c)%nat); [lia|].
    destruct (Qltb (Qnat c / Qnat (c + r)) (4 # 10)) eqn:E2.
    + apply Qltb_lt, ratio_below in E2; [|done].
      destruct (decide (3 * c < 2 * r)%nat); [done|lia].
    + assert (~ (10 * c < 4 * (c + r))%nat) as H2.
      { intros H. apply ratio_below, Qltb_lt in H; [congruence|done]. }
      destruct (decide (3 * c < 2 * r)%nat); [lia|done].
Qed.

(** X12.  In whole numbers: an area is Commercial exactly when twice its
    commercial count exceeds three times its residential count, Residential
    exactly when the same holds the other way round, of unknown density
    exactly when both counts are zero, and Mixed otherwise.  Exchanging the
    two counts therefore exchanges Commercial and Residential and keeps the
    other two classes. *)
Theorem determine_density_by_counts (c r : nat) :
  (determine_density c r = "Commercial" <-> (3 * r < 2 * c)%nat) /\
  (determine_density c r = "Residential" <-> (3 * c < 2 * r)%nat) /\
  (determine_density c r = "Unknown/Low Density" <-> c = 0%nat /\ r = 0%nat) /\
  (determine_density c r = "Mixed" <->
   (c + r <> 0 /\ 2 * c <= 3 * r /\ 2 * r <= 3 * c)%nat) /\
  (determine_density c r = "Commercial" <-> determine_density r c = "Residential") /\
  (determine_density c r = "Mixed" <-> determine_density r c = "Mixed") /\
  (determine_density c r = "Unknown/Low Density"
   <-> determine_density r c = "Unknown/Low Density").
Proof.
  rewrite !determine_density_cases.
  destruct (decide (c + r = 0)%nat), (decide (r + c = 0)%nat),
    (decide (3 * r < 2 * c)%nat), (decide (3 * c < 2 * r)%nat);
    repeat split; intros; try done; try lia.
Qed.

End DensityClasses.


Section GreenRatioOrder.

Import ContextEnricher.

Variable all_areas : list (option string).
Variables green_counts comm_counts res_counts : gmap string nat.

Abbreviation context_rows :=
  (get_context_features all_areas green_counts comm_counts res_counts).

Lemma ratio_to_max_mono (max_green : option nat) (c1 c2 : nat) :
  (c1 <= c2)%nat -> ratio_to_max max_green c1 <= ratio_to_max max_green c2.
Proof.
  intros Hc. unfold ratio_to_max. destruct max_green as [m|]; [|done].
  destruct (Nat.ltb_spec 0 m) as [Hm|Hm]; [|done].
  apply np_round_mono. unfold fdiv. apply binary64_mono. unfold Qdiv.
  apply Qmult_le_compat_r; [by apply binary64_mono, Qnat_le|].
  apply Qinv_le_0_compat, binary64_nonneg, Qnat_nonneg.
Qed.

(** No green items give the ratio 0, as many as the maximum give 1. *)
Lemma ratio_to_max_zero (max_green : option nat) : ratio_to_max max_green 0 = 0.
Proof.
  unfold ratio_to_max. destruct max_green as [m|]; [|done].
  destruct (Nat.ltb 0 m); [|done].
  assert (fdiv (binary64 (Qnat 0)) (binary64 (Qnat m)) = 0) as ->; [|done].
  unfold fdiv. apply binary64_zero. unfold Qdiv. apply Qmult_0_l.
Qed.

Lemma ratio_to_max_one (m : nat) : (0 < m)%nat -> ratio_to_max (Some m) m = 1.
Proof.
  intros Hm. unfold ratio_to_max. destruct (Nat.ltb_spec 0 m); [|lia].
  assert (1 <= binary64 (Qnat m)) as Hb.
  { apply Qle_trans with (binary64 1); [by vm_compute|].
    apply binary64_mono. change 1 with (Qnat 1). apply Qnat_le. lia. }
  assert (fdiv (binary64 (Qnat m)) (binary64 (Qnat m)) = 1) as ->; [|done].
  unfold fdiv. transitivity (binary64 1); [|done]. apply binary64_proper.
  apply Qmult_inv_r. intros H0. rewrite H0 in Hb. by apply Qle_not_lt in Hb.
Qed.

(** X13.  The green ratio orders the regions as their green counts do: a
    region with at most the count of another has at most its ratio.  A
    region without green items has ratio 0, and when some region has green
    items the region with the largest count has ratio 1. *)
Theorem green_ratio_follows_green_count (r1 r2 : features) :
  r1 ∈ context_rows -> r2 ∈ context_rows ->
  ((green_count r1 <= green_count r2)%nat -> green_ratio r1 <= green_ratio r2) /\
  (green_count r1 = 0%nat -> green_ratio r1 == 0) /\
  ((0 < green_count r1)%nat ->
   (forall r, r ∈ context_rows -> (green_count r <= green_count r1)%nat) ->
   green_ratio r1 == 1).
Proof.
  intros H1 H2.
  rewrite (green_ratio_row _ _ _ _ r1 H1), (green_ratio_row _ _ _ _ r2 H2).
  split; [apply ratio_to_max_mono|]. split.
  - intros ->. by rewrite ratio_to_max_zero.
  - intros Hpos Hmax.
    destruct (max_count (map green_count context_rows)) as [m|] eqn:Hm.
    + destruct (max_count_spec _ _ Hm) as [Hin Hle].
      assert (m = green_count r1) as ->.
      { apply Nat.le_antisymm.
        - apply list_elem_of_In, in_map_iff in Hin as (r & <- & Hr).
          apply Hmax. by apply list_elem_of_In.
        - apply Hle. apply list_elem_of_In, in_map. by apply list_elem_of_In. }
      by rewrite ratio_to_max_one.
    + destruct context_rows; [by apply elem_of_nil in H1|done].
Qed.

End GreenRatioOrder.

Lemma green_ratio_follows_green_count_witness :
  exists r1 r2,
    r1 ∈ ContextEnricher.get_context_features [Some "BEDOK"; Some "TENGAH"; Some "TUAS"]
           sample_green_counts ∅ ∅ /\
    r2 ∈ ContextEnricher.get_context_features [Some "BEDOK"; Some "TENGAH"; Some "TUAS"]
           sample_green_counts ∅ ∅ /\
    (ContextEnricher.green_count r1 <= ContextEnricher.green_count r2)%nat /\
    ContextEnricher.green_ratio r1 <= ContextEnricher.green_ratio r2.
Proof.
  set (rows := ContextEnricher.get_context_features [Some "BEDOK"; Some "TENGAH"; Some "TUAS"]
                 sample_green_counts ∅ ∅).
  assert (Hrows : exists r1 r2 rest, rows = r1 :: r2 :: rest /\
            (ContextEnricher.green_count r1 <= ContextEnricher.green_count r2)%nat).
  { vm_compute. eexists _, _, _. split; [reflexivity|]. simpl. repeat constructor. }
  destruct Hrows as (r1 & r2 & rest & Hrows & Hle).
  assert (H1 : r1 ∈ rows) by (rewrite Hrows; apply elem_of_cons; by left).
  assert (H2 : r2 ∈ rows).
  { rewrite Hrows. apply elem_of_cons. right. apply elem_of_cons. by left. }
  exists r1, r2. split; [exact H1|]. split; [exact H2|]. split; [exact Hle|].
  destruct (green_ratio_follows_green_count [Some "BEDOK"; Some "TENGAH"; Some "TUAS"]
              sample_green_counts ∅ ∅ r1 r2 H1 H2) as [Hmono _].
  exact (Hmono Hle).
Defined.

(** ** context_enricher.py: [_fetch_and_map] *)

Section SplitComma.

Import ContextEnricher.

Lemma split_comma_nonempty (s : string) : split_comma s <> [].
Proof.
  destruct s as [|c s]; simpl; [done|].
  destruct (Ascii.eqb c comma); [done|]. by destruct (split_comma s).
Qed.

Lemma split_comma_without (s : string) : has_comma s = false -> split_comma s = [s].
Proof.
  induction s as [|c s IH]; simpl; [done|].
  destruct (Ascii.eqb c comma); simpl; [done|].
  intros H. by rewrite (IH H).
Qed.

Lemma split_comma_with (s : string) :
  has_comma s = true -> (2 <= length (split_comma s))%nat.
Proof.
  induction s as [|c s IH]; simpl; [done|].
  destruct (Ascii.eqb c comma); simpl.
  - intros _. pose proof (split_comma_nonempty s).
    destruct (split_comma s); [done|simpl; lia].
  - intros H. specialize (IH H). destruct (split_comma s); simpl in *; lia.
Qed.

End SplitComma.

Section FetchAndMapFacts.

Import ContextEnricher.

Variable Geometry : Type.
Variable contains : Geometry -> Q -> Q -> bool.
Variable network : nat -> OneMapClient.response Geometry.
Variable float : string -> option Q.
Variable get_theme_data : string -> list theme_item.

Abbreviation cached := (@OneMapClient.planning_areas Geometry).

(** The region that coordinates are attributed to: the name of the first
    cached area containing them, unless there is none or its name is
    empty. *)
Definition located_at (areas : list (OneMapClient.area Geometry)) (lat lon : Q)
  : option string :=
  let area := OneMapClient.first_containing Geometry contains areas lat lon in
  if TemperatureAggregator.truthy area then area else None.

(** The two numbers of an item whose 'LatLng' has exactly two fields that
    both read as floats. *)
Definition item_coordinates (item : theme_item) : option (Q * Q) :=
  match split_comma (default "" (LatLng item)) with
  | [lat; lon] =>
      match float lat, float lon with
      | Some lat, Some lon => Some (lat, lon)
      | _, _ => None
      end
  | _ => None
  end.

(** The region an item is counted for, if any. *)
Definition item_area (areas : list (OneMapClient.area Geometry)) (item : theme_item)
  : option string :=
  match item_coordinates item with
  | Some (lat, lon) => located_at areas lat lon
  | None => None
  end.

(** An item whose 'LatLng' has at most one comma. *)
Definition unpackable (item : theme_item) : Prop :=
  (length (split_comma (default "" (LatLng item))) <= 2)%nat.

(** All items of the themes of a list, in the order they are processed. *)
Definition items_of (theme_list : list string) : list theme_item :=
  theme_list ≫= get_theme_data.

Definition bump (area : option string) (counts : gmap string nat) : gmap string nat :=
  match area with
  | Some a => <[a := (default 0 (counts !! a) + 1)%nat]> counts
  | None => counts
  end.

Lemma count_item_cached (self : OneMapClient.t Geometry) (counts : gmap string nat)
    (item : theme_item) :
  cached self <> [] -> unpackable item ->
  count_item Geometry contains network float self counts item
    = (Counted (bump (item_area (cached self) item) counts), self).
Proof.
  intros Hcached Hitem. unfold count_item, item_area, item_coordinates, unpackable in *.
  set (s := default "" (LatLng item)) in *.
  destruct (String.eqb_spec s "") as [Hs|Hs]; simpl.
  { by rewrite Hs. }
  destruct (has_comma s) eqn:Hc; simpl.
  2: { by rewrite (split_comma_without s Hc). }
  pose proof (split_comma_with s Hc) as Hlen.
  destruct (split_comma s) as [|lat [|lon [|third parts]]]; simpl in *; try lia.
  destruct (float lat) as [a|]; [|done].
  destruct (float lon) as [b|]; [|done].
  rewrite resolve_cached by done. unfold located_at.
  destruct (OneMapClient.first_containing _ _ _ _ _) as [k|]; simpl; [|done].
  by destruct (negb (String.eqb k "")).
Qed.

Lemma count_item_unpack_error (self : OneMapClient.t Geometry)
    (counts : gmap string nat) (item : theme_item) :
  ~ unpackable item ->
  count_item Geometry contains network float self counts item
    = (Failed ValueError, self).
Proof.
  intros Hitem. unfold count_item, unpackable in *.
  set (s := default "" (LatLng item)) in *.
  destruct (String.eqb_spec s "") as [Hs|Hs]; simpl.
  { exfalso. apply Hitem. rewrite Hs. simpl. lia. }
  destruct (has_comma s) eqn:Hc; simpl.
  2: { exfalso. apply Hitem. rewrite (split_comma_without s Hc). simpl. lia. }
  destruct (split_comma s) as [|lat [|lon [|third parts]]]; simpl in *; try done.
  all: exfalso; apply Hitem; lia.
Qed.

Lemma bump_lookup (area : option string) (counts : gmap string nat) (k : string) :
  default 0%nat (bump area counts !! k)
    = (default 0 (counts !! k) + if decide (area = Some k) then 1 else 0)%nat.
Proof.
  destruct (decide (area = Some k)) as [->|Hne].
  - unfold bump. rewrite lookup_insert_eq. done.
  - destruct area as [a|]; unfold bump; [|lia].
    rewrite lookup_insert_ne by congruence. lia.
Qed.

Lemma bump_positive (area : option string) (counts : gmap string nat) :
  (forall k n, counts !! k = Some n -> (0 < n)%nat) ->
  forall k n, bump area counts !! k = Some n -> (0 < n)%nat.
Proof.
  intros Hpos k n. destruct area as [a|]; simpl; [|apply Hpos].
  destruct (decide (a = k)) as [->|Hne].
  - rewrite lookup_insert_eq. intros [= <-]. lia.
  - rewrite lookup_insert_ne by done. apply Hpos.
Qed.

Lemma count_items_cached (self : OneMapClient.t Geometry) (items : list theme_item)
    (counts : gmap string nat) :
  cached self <> [] -> Forall unpackable items ->
  exists counts',
    count_items Geometry contains network float self counts items
      = (Counted counts', self) /\
    (forall k, default 0%nat (counts' !! k)
               = (default 0 (counts !! k)
                  + length (filter (fun it => item_area (cached self) it = Some k) items))%nat) /\
    ((forall k n, counts !! k = Some n -> (0 < n)%nat) ->
     forall k n, counts' !! k = Some n -> (0 < n)%nat).
Proof.
  intros Hcached Hall. revert counts.
  induction Hall as [|item items Hitem _ IH]; intros counts; simpl.
  - exists counts. split; [done|]. split; [|done]. intros k. simpl. lia.
  - rewrite count_item_cached by done.
    destruct (IH (bump (item_area (cached self) item) counts))
      as (counts' & -> & Hcount & Hpos).
    exists counts'. split; [done|]. split.
    + intros k. rewrite Hcount, bump_lookup.
      destruct (decide (item_area (cached self) item = Some k)).
      * rewrite filter_cons_True by done. simpl. lia.
      * rewrite filter_cons_False by done. lia.
    + intros H. apply Hpos. by apply bump_positive.
Qed.

Lemma count_items_app (self : OneMapClient.t Geometry) (l1 l2 : list theme_item)
    (counts : gmap string nat) :
  count_items Geometry contains network float self counts (l1 ++ l2)
    = match count_items Geometry contains network float self counts l1 with
      | (Failed e, c) => (Failed e, c)
      | (Counted counts', c) =>
          count_items Geometry contains network float c counts' l2
      end.
Proof.
  revert self counts. induction l1 as [|item l1 IH]; intros self counts; simpl; [done|].
  destruct (count_item _ _ _ _ _ _ _) as [[counts'|e] c]; [apply IH|done].
Qed.

Lemma count_themes_items (self : OneMapClient.t Geometry) (theme_list : list string)
    (counts : gmap string nat) :
  count_themes Geometry contains network float get_theme_data self counts theme_list
    = count_items Geometry contains network float self counts (items_of theme_list).
Proof.
  revert self counts. induction theme_list as [|theme rest IH]; intros self counts;
    [done|].
  change (items_of (theme :: rest)) with (get_theme_data theme ++ items_of rest).
  rewrite count_items_app. simpl.
  destruct (count_items _ _ _ _ _ _ _) as [[counts'|e] c]; [apply IH|done].
Qed.

Lemma located_at_name (areas : list (OneMapClient.area Geometry)) (lat lon : Q)
    (k : string) :
  located_at areas lat lon = Some k ->
  k <> "" /\ Some k ∈ map OneMapClient.name areas.
Proof.
  unfold located_at.
  pose proof (first_containing_spec Geometry contains areas lat lon) as Hspec.
  destruct (OneMapClient.first_containing _ _ _ _ _) as [a|]; simpl; [|done].
  destruct (String.eqb_spec a "") as [|Hne]; simpl; [done|].
  intros [= <-]. split; [done|].
  destruct Hspec as [(before & area & after & -> & _ & _ & ->)|[_ [=]]].
  rewrite map_app. apply elem_of_app. right. simpl. apply elem_of_cons. by left.
Qed.

(** The counts of [_fetch_and_map] under a filled cache. *)
Lemma fetch_and_map_cached (self : OneMapClient.t Geometry) (theme_list : list string) :
  cached self <> [] ->
  Forall unpackable (items_of theme_list) ->
  exists counts,
    _fetch_and_map Geometry contains network float get_theme_data self theme_list
      = (Counted counts, self) /\
    (forall k, default 0%nat (counts !! k)
               = length (filter (fun it => item_area (cached self) it = Some k)
                           (items_of theme_list))) /\
    (forall k n, counts !! k = Some n ->
                 (0 < n)%nat /\ k <> "" /\ Some k ∈ map OneMapClient.name (cached self)).
Proof.
  intros Hcached Hall. unfold _fetch_and_map. rewrite count_themes_items.
  destruct (count_items_cached self (items_of theme_list) ∅ Hcached Hall)
    as (counts & -> & Hcount & Hpos).
  exists counts. split; [done|]. split.
  - intros k. rewrite Hcount, lookup_empty. simpl. lia.
  - intros k n Hk.
    assert (0 < n)%nat as Hn.
    { eapply Hpos; [|exact Hk]. intros k' n'. by rewrite lookup_empty. }
    split; [done|].
    specialize (Hcount k). rewrite Hk, lookup_empty in Hcount. simpl in Hcount.
    destruct (filter _ _) as [|item rest] eqn:Hf; [simpl in Hcount; lia|].
    assert (item ∈ filter (fun it => item_area (cached self) it = Some k)
                     (items_of theme_list)) as Hin
        by (rewrite Hf; apply elem_of_cons; by left).
    apply list_elem_of_filter in Hin as [Harea _].
    unfold item_area in Harea.
    destruct (item_coordinates item) as [[lat lon]|]; [|done].
    by apply located_at_name in Harea.
Qed.

(** X14.  With planning areas cached and no 'LatLng' holding more than one
    comma, [_fetch_and_map] raises nothing and leaves the client's cache as
    it is, without a planning-area request.  The count it returns for a
    region is the number of items, over all themes of the list, whose
    'LatLng' reads as two floats lying in that region; items without
    'LatLng', without a comma, with unreadable numbers or outside every
    region are passed over.  The dict never holds a zero, and its keys are
    non-empty names of cached areas. *)
Theorem fetch_and_map_counts (self : OneMapClient.t Geometry) (theme_list : list string) :
  cached self <> [] ->
  Forall unpackable (items_of theme_list) ->
  exists counts,
    _fetch_and_map Geometry contains network float get_theme_data self theme_list
      = (Counted counts, self) /\
    (forall k, default 0%nat (counts !! k)
               = length (filter (fun it => item_area (cached self) it = Some k)
                           (items_of theme_list))) /\
    (forall k n, counts !! k = Some n ->
                 (0 < n)%nat /\ k <> "" /\ Some k ∈ map OneMapClient.name (cached self)).
Proof. apply fetch_and_map_cached. Qed.

(** X15.  The unpacking of the split 'LatLng' is outside the [try]: the
    first item with more than one comma ends [_fetch_and_map] with a
    [ValueError], whatever the items after it are, and no counts are
    returned. *)
Theorem fetch_and_map_unpack_error (self : OneMapClient.t Geometry)
    (theme_list : list string) (before after : list theme_item) (item : theme_item) :
  cached self <> [] ->
  items_of theme_list = before ++ item :: after ->
  Forall unpackable before ->
  ~ unpackable item ->
  _fetch_and_map Geometry contains network float get_theme_data self theme_list
    = (Failed ValueError, self).
Proof.
  intros Hcached Hitems Hbefore Hitem.
  unfold _fetch_and_map. rewrite count_themes_items, Hitems, count_items_app.
  destruct (count_items_cached self before ∅ Hcached Hbefore) as (counts & -> & _).
  simpl. by rewrite count_item_unpack_error.
Qed.

(** The number of items of a list of themes that lie in a region; no item
    is counted for a region without a name. *)
Definition items_in (areas : list (OneMapClient.area Geometry)) (theme_list : list string)
    (k : option string) : nat :=
  match k with
  | Some n =>
      length (filter (fun it => item_area areas it = Some n) (items_of theme_list))
  | None => 0
  end.

(** X16.  With planning areas cached and no 'LatLng' holding more than one
    comma, [get_context_features] returns, without reloading the planning
    areas, one row per cached area in cache order, also for an area that no
    item lies in; the three counts of a row are the numbers of green,
    commercial and residential theme items lying in its area, and its
    density class is the one of its commercial and residential counts. *)
Theorem get_context_features_counts_items (self : OneMapClient.t Geometry) :
  cached self <> [] ->
  Forall unpackable (items_of THEMES_GREEN) ->
  Forall unpackable (items_of THEMES_COMMERCIAL) ->
  Forall unpackable (items_of THEMES_RESIDENTIAL) ->
  exists rows,
    get_context_features_of Geometry contains network float get_theme_data self
      = (Counted rows, self) /\
    map planning_area rows = map OneMapClient.name (cached self) /\
    forall row, row ∈ rows ->
      green_count row = items_in (cached self) THEMES_GREEN (planning_area row) /\
      comm_count row = items_in (cached self) THEMES_COMMERCIAL (planning_area row) /\
      res_count row = items_in (cached self) THEMES_RESIDENTIAL (planning_area row) /\
      density_type row = determine_density (comm_count row) (res_count row).
Proof.
  intros Hcached Hgreen Hcomm Hres. unfold get_context_features_of.
  rewrite load_cached by done.
  destruct (fetch_and_map_cached self THEMES_GREEN Hcached Hgreen) as (g & -> & Hg & _).
  destruct (fetch_and_map_cached self THEMES_COMMERCIAL Hcached Hcomm) as (c & -> & Hc & _).
  destruct (fetch_and_map_cached self THEMES_RESIDENTIAL Hcached Hres) as (r & -> & Hr & _).
  eexists. split; [done|]. unfold get_context_features. split.
  - rewrite map_map. simpl. apply map_id.
  - intros row Hrow. apply list_elem_of_In, in_map_iff in Hrow as (a & <- & _).
    simpl. unfold lookup_count, items_in. destruct a as [n|]; [|done].
    by rewrite Hg, Hc, Hr.
Qed.

End FetchAndMapFacts.

(** ** aggregator.py: loading, totals and bounds *)

(** A key that occurs once among distinct keys selects one more element. *)
Lemma group_sizes_step {A} (key : A -> string) (keys : list string) (x : A) (l : list A) :
  NoDup keys -> key x ∈ keys ->
  sum_list (map (fun k => length (filter (fun y => key y = k) (x :: l))) keys)
    = S (sum_list (map (fun k => length (filter (fun y => key y = k) l)) keys)).
Proof.
  induction keys as [|k keys IH]; intros Hkeys Hx; [by apply elem_of_nil in Hx|].
  apply NoDup_cons in Hkeys as [Hk Hkeys]. simpl.
  destruct (decide (key x = k)) as [Heq|Hne].
  - rewrite filter_cons_True by done. simpl. f_equal. f_equal.
    clear IH Hx Hkeys. induction keys as [|k' keys IH']; [done|]. simpl.
    apply not_elem_of_cons in Hk as [Hkk' Hk].
    rewrite filter_cons_False by congruence. f_equal. by apply IH'.
  - rewrite filter_cons_False by done.
    apply elem_of_cons in Hx as [Hx|Hx]; [done|].
    rewrite (IH Hkeys Hx). lia.
Qed.

(** Each element is counted under exactly one of the distinct keys. *)
Lemma group_sizes_total {A} (key : A -> string) (keys : list string) (l : list A) :
  NoDup keys -> (forall x, x ∈ l -> key x ∈ keys) ->
  sum_list (map (fun k => length (filter (fun x => key x = k) l)) keys) = length l.
Proof.
  intros Hkeys. induction l as [|x l IH]; intros Hin.
  - clear Hkeys Hin. induction keys as [|k keys IHk]; [done|]. exact IHk.
  - rewrite group_sizes_step; [|done|apply Hin, elem_of_cons; by left].
    simpl. f_equal. apply IH. intros y Hy. apply Hin, elem_of_cons. by right.
Qed.

Section AggregatorTotals.

Import TemperatureAggregator.

Variable Geometry : Type.
Variable contains : Geometry -> Q -> Q -> bool.
Variable network : nat -> OneMapClient.response Geometry.
Variable pd : pandas.

(** X17.  The aggregation of a non-empty list of points on an empty cache:
    when the request fails it raises [RequestException] and returns no
    frame; when the payload holds a parsable area it makes that one
    planning-area request and returns the frame it would return with these
    areas already cached. *)
Theorem get_aggregated_data_loads (self : OneMapClient.t Geometry) (points : list point) :
  OneMapClient.planning_areas self = [] ->
  points <> [] ->
  (network (OneMapClient.requests self) = OneMapClient.RequestFailed ->
   get_aggregated_data Geometry contains network pd self points
     = (Raised RequestException,
        {| OneMapClient.planning_areas := [];
           OneMapClient.requests := S (OneMapClient.requests self) |})) /\
  (forall data areas,
      network (OneMapClient.requests self) = OneMapClient.Payload data ->
      OneMapClient.parse_areas Geometry data = Returned areas ->
      areas <> [] ->
      let loaded := {| OneMapClient.planning_areas := areas;
                       OneMapClient.requests := S (OneMapClient.requests self) |} in
      get_aggregated_data Geometry contains network pd self points
        = ((get_aggregated_data Geometry contains network pd loaded points).1, loaded)).
Proof.
  intros Hempty Hpoints. split.
  - intros Hfail. unfold get_aggregated_data.
    rewrite (nonempty_true _ Hpoints). simpl.
    by rewrite load_empty_failed.
  - intros data areas Hnet Hparse Hparsed loaded.
    rewrite (get_aggregated_data_cached _ _ _ _ loaded points) by done.
    unfold get_aggregated_data, aggregated.
    rewrite (nonempty_true _ Hpoints). simpl.
    rewrite (load_empty_payload _ _ self data areas) by done. fold loaded.
    rewrite map_points_cached by done. simpl.
    by destruct (negb (nonempty _)).
Qed.

Lemma get_aggregated_data_rows (self : OneMapClient.t Geometry) (points : list point) :
  OneMapClient.planning_areas self <> [] ->
  exists df,
    get_aggregated_data Geometry contains network pd self points = (Returned df, self) /\
    rows_of df
      ≡ₚ aggregate (mapped_data Geometry contains (OneMapClient.planning_areas self) points).
Proof.
  intros Hcached. destruct points as [|p points].
  - by exists Empty_DataFrame.
  - rewrite get_aggregated_data_cached by done. eexists. split; [done|].
    apply aggregated_rows.
Qed.

Lemma mapped_data_length areas (points : list point) :
  length (mapped_data Geometry contains areas points)
    = length (filter (fun p => is_Some (located Geometry contains areas p)) points).
Proof.
  induction points as [|p points IH]; simpl; [done|].
  destruct (located Geometry contains areas p) as [k|] eqn:Hp.
  - rewrite filter_cons_True by (rewrite Hp; by eexists). simpl. by rewrite IH.
  - rewrite filter_cons_False by (rewrite Hp; by intros [? [=]]). done.
Qed.

Lemma aggregate_station_total (md : list mapped) :
  sum_list (map (fun row => length (stations row)) (aggregate md)) = length md.
Proof.
  unfold aggregate. rewrite map_map. simpl.
  rewrite <- (group_sizes_total m_planning_area (sorted_keys (map m_planning_area md)) md).
  - f_equal. apply map_ext. intros k. by rewrite length_map.
  - apply NoDup_sorted_keys.
  - intros m Hm. apply elem_of_sorted_keys, elem_of_keys. by exists m.
Qed.

(** X18.  With planning areas cached, the rows of the aggregation account
    for every attributed point exactly once: the lengths of their station
    lists add up to the number of points that lie in a region.  In every
    row the station list is non-empty and the station count is at most its
    length; the row has an average, and its maximum is the value of one of
    the points of its region, which none of them exceeds.  When the region
    has at most 1024 points, with values between -64 and 64, the average
    exceeds the maximum by at most 0.05 and a rounding error of [2^-20]. *)
Theorem get_aggregated_data_totals (self : OneMapClient.t Geometry) (points : list point) :
  OneMapClient.planning_areas self <> [] ->
  exists df,
    get_aggregated_data Geometry contains network pd self points = (Returned df, self) /\
    sum_list (map (fun row => length (stations row)) (rows_of df))
      = length (filter (fun p => is_Some (located Geometry contains
                                            (OneMapClient.planning_areas self) p))
                  points) /\
    forall row, row ∈ rows_of df ->
      (0 < length (stations row))%nat /\
      (station_count row <= length (stations row))%nat /\
      exists a m hottest,
        avg_temp row = Some a /\ max_temp row = Some m /\
        hottest ∈ points /\
        located Geometry contains (OneMapClient.planning_areas self) hottest
          = Some (planning_area row) /\
        value hottest = m /\
        (forall p, p ∈ points ->
                   located Geometry contains (OneMapClient.planning_areas self) p
                     = Some (planning_area row) ->
                   value p <= m) /\
        ((length (stations row) <= 1024)%nat ->
         (forall p, p ∈ points ->
                    located Geometry contains (OneMapClient.planning_areas self) p
                      = Some (planning_area row) ->
                    Qabs (value p) <= 64) ->
         a <= m + (1 # 20) + pow2 (-20)).
Proof.
  intros Hcached.
  destruct (get_aggregated_data_rows self points Hcached) as (df & Hdf & Hperm).
  exists df. split; [done|]. split.
  - rewrite (Permutation_map (fun row => length (stations row)) Hperm).
    by rewrite aggregate_station_total, mapped_data_length.
  - intros row Hrow. rewrite Hperm in Hrow.
    apply aggregate_summarises in Hrow
      as (Hne & Havg & _ & (m & Hmax & Hin & Hbound) & Hcount & _ & Hstations).
    rewrite Hstations, Hcount, length_map. split; [|split].
    + destruct (contributing _ _ _ _ _); [done|simpl; lia].
    + unfold count. etrans; [apply length_filter|]. by rewrite length_map.
    + apply list_elem_of_In, in_map_iff in Hin as (hottest & Hvalue & Hhot).
      apply list_elem_of_In, list_elem_of_filter in Hhot as [Hloc Hpoint].
      eexists _, m, hottest. split; [done|]. split; [done|]. split; [done|].
      split; [done|]. split; [done|]. split.
      * intros p Hp Hlocated.
        apply Hbound. apply list_elem_of_In, in_map, list_elem_of_In.
        by apply list_elem_of_filter.
      * intros Hlen Hvalues.
        apply (rounded_mean_le_bound
                 (map value (contributing Geometry contains
                               (OneMapClient.planning_areas self)
                               (planning_area row) points))).
        -- by rewrite length_map.
        -- apply Forall_fmap, Forall_forall.
           intros p [Hlocated Hp]%list_elem_of_filter. by apply Hvalues.
        -- by apply Forall_forall.
        -- unfold rounded_mean.
           by destruct (contributing Geometry contains _ _ points).
Qed.

(** In binary64 the rounded average of a region can exceed its maximum by
    more than 0.05: a single station reporting 0.35 (the binary64 number
    0.34999999999999997) has the average 0.4. *)
Lemma rounded_mean_above_maximum :
  rounded_mean [binary64 (35 # 100)] = Some (binary64 (4 # 10)) /\
  maximum [binary64 (35 # 100)] = Some (binary64 (35 # 100)) /\
  binary64 (35 # 100) + (1 # 20) < binary64 (4 # 10).
Proof. by vm_compute. Qed.

(** Readings of 25.1 and 25.8 degrees: their mean 25.45 is not a binary64
    number, and the average comes out as 25.5. *)
Lemma rounded_mean_of_two_readings :
  rounded_mean [binary64 (251 # 10); binary64 (258 # 10)] = Some (binary64 (255 # 10)).
Proof. by vm_compute. Qed.

End AggregatorTotals.

Lemma get_aggregated_data_totals_witness :
  OneMapClient.planning_areas two_regions <> [] /\
  exists df,
    TemperatureAggregator.get_aggregated_data box box_contains offline stable_pandas
      two_regions [west_station; east_station] = (Returned df, two_regions) /\
    sum_list (map (fun row => length (TemperatureAggregator.stations row)) (rows_of df))
      = 2%nat.
Proof.
  split; [done|].
  destruct (get_aggregated_data_totals box box_contains offline stable_pandas
              two_regions [west_station; east_station])
    as (df & Hdf & Htotal & _); [done|].
  exists df. split; [exact Hdf|]. rewrite Htotal. reflexivity.
Defined.

Lemma get_aggregated_data_loads_witness :
  OneMapClient.planning_areas (OneMapClient.init (Geometry := box)) = [] /\
  [west_station] <> [] /\
  TemperatureAggregator.get_aggregated_data box box_contains offline stable_pandas
    OneMapClient.init [west_station]
    = (Raised RequestException,
       {| OneMapClient.planning_areas := []; OneMapClient.requests := 1 |}).
Proof.
  split; [done|]. split; [done|].
  apply (get_aggregated_data_loads box box_contains offline stable_pandas
           OneMapClient.init [west_station]); done.
Defined.

(** ** data_fusion.py on the results of the aggregator and the enricher *)

Section Pipeline.

Variable Geometry : Type.
Variable contains : Geometry -> Q -> Q -> bool.
Variable network : nat -> OneMapClient.response Geometry.
Variable pd : pandas.
Variables green_counts comm_counts res_counts : gmap string nat.

Lemma context_keys (all_areas : list (option string)) :
  map ContextEnricher.planning_area
    (ContextEnricher.get_context_features all_areas green_counts comm_counts res_counts)
  = all_areas.
Proof. unfold ContextEnricher.get_context_features. rewrite map_map. apply map_id. Qed.

(** X19.  Let the temperature frame be the aggregation of some points by a
    client whose cached areas have distinct names, and the context frame be
    built from the names of the same areas.  Then the unified dataset has
    exactly one row per cached area.  Every row carries a green ratio and a
    density class, and it carries a temperature exactly when some point is
    attributed to its area. *)
Theorem unified_dataset_covers_cached_areas
    (self : OneMapClient.t Geometry) (points : list TemperatureAggregator.point)
    (temp_df : DataFrame TemperatureAggregator.stat) :
  OneMapClient.planning_areas self <> [] ->
  NoDup (map OneMapClient.name (OneMapClient.planning_areas self)) ->
  TemperatureAggregator.get_aggregated_data Geometry contains network pd self points
    = (Returned temp_df, self) ->
  let context_df :=
    Frame (ContextEnricher.get_context_features
             (map OneMapClient.name (OneMapClient.planning_areas self))
             green_counts comm_counts res_counts) in
  exists rows,
    DataFusion.get_unified_dataset pd temp_df context_df = Frame rows /\
    map DataFusion.planning_area rows
      ≡ₚ map OneMapClient.name (OneMapClient.planning_areas self) /\
    forall row, row ∈ rows ->
      is_Some (DataFusion.green_ratio row) /\
      is_Some (DataFusion.density_type row) /\
      (is_Some (DataFusion.avg_temperature row) <->
       exists p n, p ∈ points /\
                   DataFusion.planning_area row = Some n /\
                   located Geometry contains (OneMapClient.planning_areas self) p
                     = Some n).
Proof.
  intros Hcached Hnames Htemp context_df.
  set (areas := OneMapClient.planning_areas self) in *.
  destruct (get_aggregated_data_rows Geometry contains network pd self points Hcached)
    as (df & Hdf & Hperm).
  rewrite Htemp in Hdf. injection Hdf as <-. fold areas in Hperm.
  set (md := mapped_data Geometry contains areas points) in *.
  assert (Htemp_names : map TemperatureAggregator.planning_area (rows_of temp_df)
                          ≡ₚ sorted_keys (map TemperatureAggregator.m_planning_area md)).
  { by rewrite (Permutation_map TemperatureAggregator.planning_area Hperm),
       aggregate_keys. }
  assert (Htemp_keys : map DataFusion.temp_key (rows_of temp_df)
                         = map Some (map TemperatureAggregator.planning_area
                                       (rows_of temp_df))).
  { by rewrite map_map. }
  assert (Hctx_keys : map context_key (rows_of context_df) = map OneMapClient.name areas).
  { apply context_keys. }
  assert (Htemp_in : forall k, k ∈ map DataFusion.temp_key (rows_of temp_df) <->
                               exists p n, p ∈ points /\ k = Some n /\
                                 located Geometry contains areas p = Some n).
  { intros k. rewrite Htemp_keys, elem_of_keys. split.
    - intros (n & Hn & <-).
      rewrite Htemp_names, elem_of_sorted_keys in Hn.
      apply mapped_data_keys in Hn as (p & Hp & Hloc). by exists p, n.
    - intros (p & n & Hp & -> & Hloc). exists n. split; [|done].
      rewrite Htemp_names, elem_of_sorted_keys. apply mapped_data_keys. by exists p. }
  destruct (joined_outer_join temp_df context_df) as (Hdistinct & Hkeys & Hfused).
  { rewrite Htemp_keys. apply (NoDup_fmap_2 Some).
    rewrite Htemp_names. apply NoDup_sorted_keys. }
  { by rewrite Hctx_keys. }
  assert (Hempty : empty context_df = false).
  { unfold empty, context_df. simpl. unfold ContextEnricher.get_context_features.
    fold areas. by destruct areas. }
  unfold DataFusion.get_unified_dataset. rewrite Hempty.
  pose proof (sort_values_Permutation pd DataFusion.unified DataFusion.avg_temperature
                (DataFusion.joined temp_df context_df)) as Hsort.
  eexists. split; [done|].
  assert (Hsub : forall k, k ∈ map DataFusion.temp_key (rows_of temp_df) ->
                           k ∈ map OneMapClient.name areas).
  { intros k (p & n & _ & -> & Hp)%Htemp_in. by apply located_at_name in Hp as [_ ?]. }
  split.
  - rewrite (Permutation_map DataFusion.planning_area Hsort).
    apply NoDup_Permutation; [done|done|].
    intros k. rewrite Hkeys, Hctx_keys. split; [|by right].
    intros [Hk|Hk]; [by apply Hsub|done].
  - intros row Hrow. rewrite Hsort in Hrow.
    assert (Hrow_key : DataFusion.planning_area row ∈ map context_key (rows_of context_df)).
    { rewrite Hctx_keys.
      assert (DataFusion.planning_area row
                ∈ map DataFusion.planning_area (DataFusion.joined temp_df context_df)) as Hk
          by (apply elem_of_keys; eauto).
      apply Hkeys in Hk as [Hk|Hk]; [by apply Hsub|]. by rewrite <- Hctx_keys. }
    destruct (Hfused row Hrow) as (Hstat & Hnostat & Hctx & _).
    apply elem_of_keys in Hrow_key as (c & Hc & Hck).
    destruct (Hctx c Hc Hck) as [-> ->].
    split; [by eexists|]. split; [by eexists|].
    split.
    + intros Hsome.
      destruct (decide (DataFusion.planning_area row
                          ∈ map DataFusion.temp_key (rows_of temp_df)))
        as [Hyes|Hno].
      * apply Htemp_in in Hyes as (p & n & Hp & Hn & Hloc). by exists p, n.
      * rewrite (Hnostat Hno) in Hsome. by destruct Hsome.
    + intros (p & n & Hp & Hn & Hloc).
      assert (DataFusion.planning_area row
                ∈ map DataFusion.temp_key (rows_of temp_df)) as Hin.
      { apply Htemp_in. by exists p, n. }
      apply elem_of_keys in Hin as (t & Ht & Htk). rewrite (Hstat t Ht Htk).
      rewrite Hperm in Ht.
      apply aggregate_summarises in Ht as (_ & -> & _). by eexists.
Qed.

End Pipeline.

Lemma unified_dataset_covers_cached_areas_witness :
  exists temp_df rows,
    TemperatureAggregator.get_aggregated_data box box_contains offline stable_pandas
      two_regions [west_station] = (Returned temp_df, two_regions) /\
    DataFusion.get_unified_dataset stable_pandas temp_df
      (Frame (ContextEnricher.get_context_features
                (map OneMapClient.name (OneMapClient.planning_areas two_regions))
                ∅ ∅ ∅)) = Frame rows /\
    map DataFusion.planning_area rows
      ≡ₚ map OneMapClient.name (OneMapClient.planning_areas two_regions).
Proof.
  assert (Hcached : OneMapClient.planning_areas two_regions <> []) by done.
  assert (Hnames : NoDup (map OneMapClient.name (OneMapClient.planning_areas two_regions))).
  { simpl. apply NoDup_cons. split; [|apply NoDup_singleton].
    by intros ?%list_elem_of_singleton. }
  destruct (TemperatureAggregator.get_aggregated_data box box_contains offline
              stable_pandas two_regions [west_station]) as [[temp_df|e] c] eqn:Hrun;
    [|by vm_compute in Hrun].
  assert (c = two_regions) as -> by (vm_compute in Hrun; by injection Hrun).
  destruct (unified_dataset_covers_cached_areas box box_contains offline stable_pandas
              ∅ ∅ ∅ two_regions [west_station] temp_df Hcached Hnames Hrun)
    as (rows & Hrows & Hperm & _).
  by exists temp_df, rows.
Defined.

(** ** perception.py: joining stations and readings *)

Section IslandWideWeather.

Import DataGovClient.






End IslandWideWeather.

(** ** trigger_rules_enhanced.py: what the two rule lists can produce *)

Section RuleLists.

Import EnhancedTriggerRules.

(** The thresholds are nested. *)
Lemma critical_temperature_is_high (temp : Q) :
  Qleb TEMP_CRITICAL temp = true -> Qleb TEMP_HIGH temp = true.
Proof.
  rewrite !Qleb_le. intros H. apply Qle_trans with TEMP_CRITICAL; [|done].
  by vm_compute.
Qed.

Lemma critical_green_is_low (green : option Q) :
  lt_float green GREEN_CRITICAL = true -> lt_float green GREEN_LOW = true.
Proof.
  destruct green as [g|]; simpl; [|done].
  rewrite !Qltb_lt. intros H. apply Qlt_trans with GREEN_CRITICAL; [done|].
  by vm_compute.
Qed.

(** [green'] is no greener than [green]: when [green] is a number, so is
    [green'], and it is at most [green].  A missing [green] compares false
    with every threshold, so nothing is asked of [green'] then. *)
Definition no_greener (green' green : option Q) : Prop :=
  forall g, green = Some g -> exists g', green' = Some g' /\ g' <= g.

Lemma Qleb_hotter (c temp temp' : Q) :
  temp <= temp' -> Qleb c temp = true -> Qleb c temp' = true.
Proof. rewrite !Qleb_le. intros H1 H2. by apply Qle_trans with temp. Qed.

Lemma lt_float_no_greener (c : Q) (green green' : option Q) :
  no_greener green' green -> lt_float green c = true -> lt_float green' c = true.
Proof.
  intros Hg. destruct green as [g|]; simpl; [|done].
  destruct (Hg g eq_refl) as (g' & -> & Hle). simpl.
  rewrite !Qltb_lt. intros H. by apply Qle_lt_trans with g.
Qed.

(** X21.  The temperature rules can only give CRITICAL, HIGH or NORMAL: the
    two MEDIUM rules never fire, because every row they match is matched by
    the HIGH rule for low green ratio before them.  So a measured region
    triggers exactly when its temperature reaches 30.5, or reaches 29.5
    with a green ratio below 0.2, whatever its density class. *)
Theorem temperature_rules_never_medium (area : string) (temp : Q)
    (green : option Q) (density : option string) :
  (priority (_evaluate_with_temperature area temp green density) = "CRITICAL" \/
   priority (_evaluate_with_temperature area temp green density) = "HIGH" \/
   priority (_evaluate_with_temperature area temp green density) = "NORMAL") /\
  reason_ (_evaluate_with_temperature area temp green density) <> MEDIUM_commercial /\
  reason_ (_evaluate_with_temperature area temp green density) <> MEDIUM_residential /\
  (trigger (_evaluate_with_temperature area temp green density) = true <->
   TEMP_CRITICAL <= temp \/ (TEMP_HIGH <= temp /\ Spec.below green GREEN_LOW)).
Proof.
  rewrite <- !Qleb_le, <- lt_float_below.
  pose proof (critical_temperature_is_high temp) as Htemp.
  pose proof (critical_green_is_low green) as Hgreen.
  unfold _evaluate_with_temperature.
  destruct (Qleb TEMP_CRITICAL temp), (Qleb TEMP_HIGH temp),
    (lt_float green GREEN_CRITICAL), (lt_float green GREEN_LOW),
    (is_density density "Commercial"), (is_density density "Residential");
    simpl in *;
    try (specialize (Htemp eq_refl)); try (specialize (Hgreen eq_refl));
    try discriminate;
    (split; [auto|]); (split; [done|]); (split; [done|]);
    (split; [intros Ht; try discriminate; auto
            |intros [H|[H1 H2]]; try discriminate; reflexivity]).
Qed.

(** X22.  The priority of a finding tells where it comes from: CRITICAL and
    HIGH are only given to a region with a temperature, MEDIUM and LOW only
    to a region without one, by inference from its context. *)
Theorem priority_tells_data_source (df : DataFrame unified) (area : option string)
    (f : finding) :
  evaluate_area df area = Returned f ->
  (priority f = "CRITICAL" \/ priority f = "HIGH" ->
   exists d, details_ f = Some d /\ data_source d = "temperature" /\
             is_Some (avg_temperature d)) /\
  (priority f = "MEDIUM" \/ priority f = "LOW" ->
   exists d, details_ f = Some d /\ data_source d = "context_inference" /\
             avg_temperature d = None).
Proof.
  destruct df as [|rows]; [done|].
  destruct (evaluate_area_cases rows area) as [(n & row & _ & _ & _ & ->)|[_ ->]].
  - intros [= <-]. unfold evaluate_row.
    destruct (DataFusion.avg_temperature row) as [temp|].
    + pose proof (critical_green_is_low (DataFusion.green_ratio row)) as Hgreen.
      unfold _evaluate_with_temperature.
      destruct (Qleb TEMP_CRITICAL temp), (Qleb TEMP_HIGH temp),
        (lt_float (DataFusion.green_ratio row) GREEN_CRITICAL),
        (lt_float (DataFusion.green_ratio row) GREEN_LOW),
        (is_density (DataFusion.density_type row) "Commercial"),
        (is_density (DataFusion.density_type row) "Residential");
        simpl in *; try (specialize (Hgreen eq_refl)); try discriminate;
        (split; [intros _; eexists; split; [done|]; split; [done|]; by eexists
                |by intros [?|?]]).
    + unfold _infer_from_context.
      destruct (lt_float (DataFusion.green_ratio row) GREEN_CRITICAL),
        (lt_float (DataFusion.green_ratio row) GREEN_LOW),
        (is_density (DataFusion.density_type row) "Commercial"),
        (is_density (DataFusion.density_type row) "Residential");
        simpl;
        (split; [by intros [?|?]|intros _; eexists; split; [done|]; by split]).
  - intros [= <-]. simpl. split; by intros [?|?].
Qed.

(** X23.  Neither rule list ever gives a milder priority to a hotter or to a
    less green region: with the density class fixed, raising the
    temperature or lowering the green ratio keeps or raises the priority
    (a smaller rank is a higher priority). *)
Theorem hotter_and_less_green_never_milder (area area' : string) (temp temp' : Q)
    (green green' : option Q) (density : option string) :
  temp <= temp' ->
  no_greener green' green ->
  (rank (_evaluate_with_temperature area' temp' green' density)
   <= rank (_evaluate_with_temperature area temp green density))%nat /\
  (rank (_infer_from_context area' green' density)
   <= rank (_infer_from_context area green density))%nat.
Proof.
  intros Htemp Hgreen.
  pose proof (Qleb_hotter TEMP_CRITICAL temp temp' Htemp) as Hc.
  pose proof (Qleb_hotter TEMP_HIGH temp temp' Htemp) as Hh.
  pose proof (lt_float_no_greener GREEN_CRITICAL green green' Hgreen) as Hgc.
  pose proof (lt_float_no_greener GREEN_LOW green green' Hgreen) as Hgl.
  pose proof (critical_temperature_is_high temp') as Hn.
  pose proof (critical_green_is_low green') as Hm.
  unfold _evaluate_with_temperature, _infer_from_context, rank.
  destruct (Qleb TEMP_CRITICAL temp), (Qleb TEMP_HIGH temp),
    (lt_float green GREEN_CRITICAL), (lt_float green GREEN_LOW);
    try (specialize (Hc eq_refl)); try (specialize (Hh eq_refl));
    try (specialize (Hgc eq_refl)); try (specialize (Hgl eq_refl));
    destruct (Qleb TEMP_CRITICAL temp'), (Qleb TEMP_HIGH temp'),
      (lt_float green' GREEN_CRITICAL), (lt_float green' GREEN_LOW);
    try discriminate;
    try (specialize (Hn eq_refl)); try (specialize (Hm eq_refl));
    try discriminate;
    destruct (is_density density "Commercial"), (is_density density "Residential");
    vm_compute; split; lia.
Qed.

End RuleLists.

Lemma priority_tells_data_source_witness :
  exists f,
    EnhancedTriggerRules.evaluate_area (Frame sample_table) (Some "BEDOK") = Returned f /\
    EnhancedTriggerRules.priority f = "LOW" /\
    exists d, EnhancedTriggerRules.details_ f = Some d /\
              EnhancedTriggerRules.data_source d = "context_inference" /\
              EnhancedTriggerRules.avg_temperature d = None.
Proof.
  destruct (EnhancedTriggerRules.evaluate_area (Frame sample_table) (Some "BEDOK"))
    as [f|e] eqn:Hf; [|by vm_compute in Hf].
  assert (Hlow : EnhancedTriggerRules.priority f = "LOW").
  { vm_compute in Hf. by injection Hf as <-. }
  exists f. split; [reflexivity|]. split; [exact Hlow|].
  destruct (priority_tells_data_source (Frame sample_table) (Some "BEDOK") f Hf)
    as [_ Hinferred].
  apply Hinferred. by right.
Defined.

Lemma hotter_and_less_green_never_milder_witness :
  29 <= 31 /\
  no_greener (Some (5 # 100)) None /\
  (EnhancedTriggerRules.rank
     (EnhancedTriggerRules._evaluate_with_temperature "A" 31 (Some (5 # 100))
        (Some "Commercial"))
   <= EnhancedTriggerRules.rank
        (EnhancedTriggerRules._evaluate_with_temperature "A" 29 None
           (Some "Commercial")))%nat.
Proof.
  assert (Htemp : 29 <= 31) by (by vm_compute).
  assert (Hgreen : no_greener (Some (5 # 100)) None) by (by intros g).
  split; [exact Htemp|]. split; [exact Hgreen|].
  apply (hotter_and_less_green_never_milder "A" "A" 29 31 None (Some (5 # 100))
           (Some "Commercial") Htemp Hgreen).
Defined.

(** ** Concrete runs

    A payload of four dicts: the second has a geometry that does not parse,
    the third has no name and the name of the fourth is null.  A network
    that fails the first request and answers every later one with that
    payload. *)

Definition survey_items : list (OneMapClient.item box) :=
  [ {| OneMapClient.pln_area_n := Some (Some "WEST");
       OneMapClient.geojson := Some (0, 0, 2, 2) |};
    {| OneMapClient.pln_area_n := Some (Some "BROKEN"); OneMapClient.geojson := None |};
    {| OneMapClient.pln_area_n := None; OneMapClient.geojson := Some (1, 0, 3, 2) |};
    {| OneMapClient.pln_area_n := Some None; OneMapClient.geojson := Some (5, 5, 6, 6) |} ].

Definition survey : list (OneMapClient.element box) :=
  map OneMapClient.dict survey_items.

(** The areas that the load makes of the payload. *)
Definition surveyed : list (OneMapClient.area box) :=
  [ {| OneMapClient.name := Some "WEST"; OneMapClient.geometry := (0, 0, 2, 2) |};
    {| OneMapClient.name := Some "UNKNOWN"; OneMapClient.geometry := (1, 0, 3, 2) |};
    {| OneMapClient.name := None; OneMapClient.geometry := (5, 5, 6, 6) |} ].

Definition flaky (n : nat) : OneMapClient.response box :=
  match n with
  | O => OneMapClient.RequestFailed
  | S _ => OneMapClient.Payload survey
  end.

(** A client with an empty cache that has made one request. *)
Definition after_failure : OneMapClient.t box :=
  {| OneMapClient.planning_areas := []; OneMapClient.requests := 1 |}.

(** A reader of unsigned decimal integers, standing for [float]. *)
Fixpoint digits_value (acc : Z) (s : string) : option Z :=
  match s with
  | EmptyString => Some acc
  | String c rest =>
      let n := Ascii.nat_of_ascii c in
      if (48 <=? n)%nat && (n <=? 57)%nat
      then digits_value (10 * acc + Z.of_nat (n - 48)) rest
      else None
  end.

Definition read_number (s : string) : option Q :=
  match s with
  | EmptyString => None
  | _ => option_map inject_Z (digits_value 0 s)
  end.

(** A theme service with four hotels: one in WEST, one without coordinates,
    one with an unreadable latitude and one outside every region. *)
Definition hotels_only (theme : string) : list ContextEnricher.theme_item :=
  if String.eqb theme "hotels"
  then [ {| ContextEnricher.LatLng := Some "1,1" |};
         {| ContextEnricher.LatLng := None |};
         {| ContextEnricher.LatLng := Some "x,1" |};
         {| ContextEnricher.LatLng := Some "9,9" |} ]
  else [].

(** A theme service whose second hotel has three fields. *)
Definition hotels_malformed (theme : string) : list ContextEnricher.theme_item :=
  if String.eqb theme "hotels"
  then [ {| ContextEnricher.LatLng := Some "1,1" |};
         {| ContextEnricher.LatLng := Some "1,1,7" |};
         {| ContextEnricher.LatLng := Some "1,1" |} ]
  else [].

Lemma load_planning_areas_skips_malformed_witness :
  OneMapClient.planning_areas after_failure = [] /\
  flaky (OneMapClient.requests after_failure) = OneMapClient.Payload survey /\
  exists loaded,
    OneMapClient.load_planning_areas box flaky after_failure = (Returned tt, loaded) /\
    map OneMapClient.name (OneMapClient.planning_areas loaded)
      = [Some "WEST"; Some "UNKNOWN"; None].
Proof.
  split; [reflexivity|]. split; [reflexivity|].
  destruct (load_planning_areas_skips_malformed box flaky after_failure survey
              eq_refl eq_refl) as [Hdicts _].
  destruct (Hdicts survey_items eq_refl) as (loaded & Hload & _).
  exists loaded. split; [exact Hload|].
  vm_compute in Hload. by injection Hload as <-.
Defined.

(** A payload whose second element is not a dict: the load raises and the
    first element is not cached. *)
Lemma load_planning_areas_not_a_dict :
  OneMapClient.load_planning_areas box
    (fun _ => OneMapClient.Payload
                [ OneMapClient.dict
                    {| OneMapClient.pln_area_n := Some (Some "WEST");
                       OneMapClient.geojson := Some (0, 0, 2, 2) |};
                  OneMapClient.not_a_dict ])
    OneMapClient.init
  = (Raised AttributeError,
     {| OneMapClient.planning_areas := []; OneMapClient.requests := 1 |}).
Proof. reflexivity. Qed.

Lemma load_planning_areas_retries_witness :
  OneMapClient.planning_areas (OneMapClient.init (Geometry := box)) = [] /\
  flaky 0 = OneMapClient.RequestFailed /\
  flaky 1 = OneMapClient.Payload survey /\
  OneMapClient.parse_areas box survey = Returned surveyed /\
  exists after,
    OneMapClient.load_planning_areas box flaky OneMapClient.init
      = (Raised RequestException, after) /\
    OneMapClient.planning_areas after = [] /\
    OneMapClient.load_planning_areas box flaky after
      = (Returned tt,
         {| OneMapClient.planning_areas := surveyed; OneMapClient.requests := 2 |}).
Proof.
  split; [reflexivity|]. split; [reflexivity|]. split; [reflexivity|].
  split; [reflexivity|].
  destruct (load_planning_areas_retries box flaky OneMapClient.init survey surveyed
              eq_refl (or_introl eq_refl) eq_refl eq_refl)
    as (result & after & Hload & Hraised & Hempty & Hnext).
  exists after. rewrite (Hraised eq_refl) in Hload.
  split; [exact Hload|]. split; [exact Hempty|exact Hnext].
Defined.

Lemma get_planning_area_loads_once_witness :
  OneMapClient.planning_areas after_failure = [] /\
  OneMapClient.parse_areas box survey = Returned surveyed /\
  surveyed <> [] /\
  exists loaded,
    OneMapClient.get_planning_area box box_contains flaky after_failure 1 (5 # 2)
      = (Returned (Some "UNKNOWN"), loaded) /\
    OneMapClient.requests loaded = 2%nat /\
    OneMapClient.get_planning_area box box_contains flaky loaded 1 (1 # 2)
      = (Returned (Some "WEST"), loaded).
Proof.
  assert (Hparsed : surveyed <> []) by done.
  split; [reflexivity|]. split; [reflexivity|]. split; [exact Hparsed|].
  destruct (get_planning_area_loads_once box box_contains flaky after_failure survey
              surveyed 1 (5 # 2) 1 (1 # 2) eq_refl eq_refl eq_refl Hparsed)
    as [Hfirst Hsecond].
  eexists. split; [exact Hfirst|]. split; [reflexivity|exact Hsecond].
Defined.

Lemma map_points_one_result_per_point_witness :
  OneMapClient.planning_areas two_regions <> [] /\
  exists results,
    OneMapClient.map_points box box_contains offline two_regions
      [OneMapClient.dict_point 1 (1 # 2); OneMapClient.tuple_point 9 9]
      = (Returned results, two_regions) /\
    map OneMapClient.planning_area results = [Some "WEST"; None].
Proof.
  assert (Hcached : OneMapClient.planning_areas two_regions <> []) by done.
  split; [exact Hcached|].
  destruct (map_points_one_result_per_point box box_contains offline two_regions
              [OneMapClient.dict_point 1 (1 # 2); OneMapClient.tuple_point 9 9] Hcached)
    as (results & Hcall & _ & Hall).
  exists results. split; [exact Hcall|].
  vm_compute in Hcall. by injection Hcall as <-.
Defined.

Lemma map_points_loads_at_first_point_witness :
  OneMapClient.planning_areas after_failure = [] /\
  exists results,
    OneMapClient.map_points box box_contains flaky after_failure
      [OneMapClient.tuple_point 1 (5 # 2); OneMapClient.tuple_point 1 (1 # 2)]
      = (Returned results,
         {| OneMapClient.planning_areas := surveyed; OneMapClient.requests := 2 |}) /\
    length results = 2%nat.
Proof.
  split; [reflexivity|].
  destruct (map_points_loads_at_first_point box box_contains flaky after_failure
              (OneMapClient.tuple_point 1 (5 # 2)) [OneMapClient.tuple_point 1 (1 # 2)]
              eq_refl) as (_ & _ & Hloaded).
  destruct (Hloaded survey surveyed eq_refl eq_refl ltac:(done))
    as (results & Hcall & Hall).
  exists results. split; [exact Hcall|].
  apply Forall2_length in Hall. by rewrite <- Hall.
Defined.

Lemma map_content_overlay_witness :
  OneMapClient.planning_areas two_regions <> [] /\
  exists m features,
    Dashboard.map_content box offline (Frame sample_table) two_regions [west_station]
      = (Returned m, two_regions) /\
    GeoEnhanced.overlay m = Some features /\
    map GeoEnhanced.priority features = ["NO_DATA"; "NO_DATA"].
Proof.
  assert (Hcached : OneMapClient.planning_areas two_regions <> []) by done.
  split; [exact Hcached|].
  destruct (map_content_overlay box offline (Frame sample_table) two_regions
              [west_station] Hcached) as [_ Hnamed].
  destruct Hnamed as (m & Hcall & _ & Hrows);
    [repeat constructor; by eexists|].
  destruct (Hrows ltac:(done)) as (features & Hoverlay & _).
  exists m, features. split; [exact Hcall|]. split; [exact Hoverlay|].
  vm_compute in Hcall. injection Hcall as <-.
  vm_compute in Hoverlay. by injection Hoverlay as <-.
Defined.

(** The table of the rule engine with one more row, which has no name: the
    map raises. *)
Lemma map_content_unnamed_row :
  Dashboard.map_content box offline
    (Frame (sample_table ++
            [ {| DataFusion.planning_area := None;
                 DataFusion.avg_temperature := None;
                 DataFusion.green_ratio := Some (5 # 10);
                 DataFusion.density_type := Some "Mixed" |} ]))
    two_regions [west_station]
  = (Raised (KeyError "planning_area"), two_regions).
Proof. reflexivity. Qed.

Lemma fetch_and_map_counts_witness :
  OneMapClient.planning_areas two_regions <> [] /\
  exists counts,
    ContextEnricher._fetch_and_map box box_contains offline read_number hotels_only
      two_regions ContextEnricher.THEMES_COMMERCIAL
      = (ContextEnricher.Counted counts, two_regions) /\
    counts !! "WEST" = Some 1%nat /\
    counts !! "EAST" = None.
Proof.
  assert (Hcached : OneMapClient.planning_areas two_regions <> []) by done.
  split; [exact Hcached|].
  destruct (fetch_and_map_counts box box_contains offline read_number hotels_only
              two_regions ContextEnricher.THEMES_COMMERCIAL Hcached)
    as (counts & Hcall & Hcount & Hkeys).
  { repeat constructor; vm_compute; lia. }
  exists counts. split; [exact Hcall|].
  assert (Hwest : default 0%nat (counts !! "WEST") = 1%nat)
    by (rewrite Hcount; vm_compute; reflexivity).
  assert (Heast : default 0%nat (counts !! "EAST") = 0%nat)
    by (rewrite Hcount; vm_compute; reflexivity).
  split.
  - destruct (counts !! "WEST") as [n|] eqn:Hn; simpl in Hwest; [by subst|done].
  - destruct (counts !! "EAST") as [n|] eqn:Hn; [|done].
    destruct (Hkeys "EAST" n Hn) as [Hpos _]. simpl in Heast. lia.
Defined.

Lemma fetch_and_map_unpack_error_witness :
  OneMapClient.planning_areas two_regions <> [] /\
  ContextEnricher._fetch_and_map box box_contains offline read_number hotels_malformed
    two_regions ContextEnricher.THEMES_COMMERCIAL
    = (ContextEnricher.Failed ContextEnricher.ValueError, two_regions).
Proof.
  assert (Hcached : OneMapClient.planning_areas two_regions <> []) by done.
  split; [exact Hcached|].
  apply (fetch_and_map_unpack_error box box_contains offline read_number hotels_malformed
           two_regions ContextEnricher.THEMES_COMMERCIAL
           [ {| ContextEnricher.LatLng := Some "1,1" |} ]
           [ {| ContextEnricher.LatLng := Some "1,1" |} ]
           {| ContextEnricher.LatLng := Some "1,1,7" |} Hcached).
  - reflexivity.
  - repeat constructor; vm_compute; lia.
  - vm_compute. lia.
Defined.

Lemma get_context_features_counts_items_witness :
  OneMapClient.planning_areas two_regions <> [] /\
  exists rows,
    ContextEnricher.get_context_features_of box box_contains offline read_number
      hotels_only two_regions = (ContextEnricher.Counted rows, two_regions) /\
    map ContextEnricher.planning_area rows = [Some "WEST"; Some "EAST"] /\
    map ContextEnricher.comm_count rows = [1%nat; 0%nat] /\
    map ContextEnricher.density_type rows = ["Commercial"; "Unknown/Low Density"].
Proof.
  assert (Hcached : OneMapClient.planning_areas two_regions <> []) by done.
  split; [exact Hcached|].
  destruct (get_context_features_counts_items box box_contains offline read_number
              hotels_only two_regions Hcached) as (rows & Hcall & Hnames & _).
  1-3: repeat constructor; vm_compute; lia.
  exists rows. split; [exact Hcall|]. split; [exact Hnames|].
  vm_compute in Hcall. by injection Hcall as <-.
Defined.
